(** * Order lifecycle of the marketplace: REST handlers, storage layer and
      the history trigger

    The repository holds two persistence paths for orders:

    - the Express server ([routes.ts], [storage.ts], [auth.ts]) over the
      drizzle schema of [shared/schema.ts]; the handlers write the history
      rows themselves;
    - the Supabase path (checkout page [handleCheckout] and the SQL
      migration), where the trigger [track_order_state_change] writes the
      history rows.

    Both are embedded below over one relational state.  Conventions:

    - a [DECIMAL(10,2)] column is an integer number of hundredths ([Z]);
    - a JavaScript number, and a decimal sent as text, is an exact rational
      ([Q]): the rounding error of IEEE doubles is not modelled;
    - every [await storage.f(...)] is one statement sent to the database; it
      may be rejected (the handlers' [catch] answers 500), which the model
      takes from a schedule carried by the state;
    - [gen_random_uuid()], [NOW()] and [new Date()] are read from an
      environment record;
    - a request body is the record of its optional keys, each of the type
      the schema gives the column; a text outside an enum, which the
      database refuses, a violated foreign key and a repeated uuid are not
      modelled apart from the schedule of refusals.

    The account routes (sign-up, sign-in, profiles, addresses) and the cart
    of the shop pages are embedded after the orders, over the same state
    extended by the tables [profiles] and [user_addresses]. *)

From Stdlib Require Import ZArith QArith Qround Lia Lqa Ascii String.
From stdpp Require Import base option list strings sorting.

Local Open Scope Z_scope.

(** ** Enumerations ([shared/schema.ts], SQL [CREATE TYPE]) *)

Inductive OrderStatus :=
  | created
  | pending_verification
  | seller_contacted
  | seller_accepted
  | seller_rejected
  | buyer_contacted
  | buyer_confirmed
  | buyer_rejected
  | confirmed
  | out_for_delivery
  | delivered
  | completed
  | rejected.

Inductive PaymentStatus :=
  | pending
  | partial_pending
  | partial_paid
  | paid
  | failed
  | refunded.

Inductive PaymentMethod := online | cod.

#[global] Instance OrderStatus_eq_dec : EqDecision OrderStatus.
Proof. solve_decision. Defined.
#[global] Instance PaymentStatus_eq_dec : EqDecision PaymentStatus.
Proof. solve_decision. Defined.
#[global] Instance PaymentMethod_eq_dec : EqDecision PaymentMethod.
Proof. solve_decision. Defined.

Definition orderStatusEnum : list OrderStatus :=
  [ created; pending_verification; seller_contacted; seller_accepted;
    seller_rejected; buyer_contacted; buyer_confirmed; buyer_rejected;
    confirmed; out_for_delivery; delivered; completed; rejected ].

(** The label of an enum value, as it travels in JSON and query strings. *)
Definition orderStatus_label (s : OrderStatus) : string :=
  match s with
  | created => "created"
  | pending_verification => "pending_verification"
  | seller_contacted => "seller_contacted"
  | seller_accepted => "seller_accepted"
  | seller_rejected => "seller_rejected"
  | buyer_contacted => "buyer_contacted"
  | buyer_confirmed => "buyer_confirmed"
  | buyer_rejected => "buyer_rejected"
  | confirmed => "confirmed"
  | out_for_delivery => "out_for_delivery"
  | delivered => "delivered"
  | completed => "completed"
  | rejected => "rejected"
  end.

(** Casting a text to [order_status]: the database refuses other labels. *)
Definition orderStatus_of_label (l : string) : option OrderStatus :=
  head (filter (λ s, orderStatus_label s = l) orderStatusEnum).

(** ** Decimal columns *)

(** Rounding of [numeric]: to the nearest integer, ties away from zero. *)
Definition round_half_away (q : Q) : Z :=
  if Qle_bool 0 q then Qfloor (q + (1 # 2)) else - Qfloor (- q + (1 # 2)).

(** Storing a value in a [DECIMAL(10,2)] column: rounded to two places,
    refused ("numeric field overflow") from 10^8 on. *)
Definition numeric_10_2 (q : Q) : option Z :=
  let c := round_half_away (q * 100) in
  if Z.abs c <? 10 ^ 10 then Some c else None.

(** ** Rows *)

Module OrderItem.
Record t := mk {
    product_id : string;
    title : string;
    quantity : Z;
    price : Q;
    unit : string
}.
End OrderItem.

Module Address.
Record t := mk {
    line1 : string;
    line2 : string;
    city : string;
    state : string;
    pinCode : string
}.
End Address.

Module Seller.
Record t := mk {
    id : string;
    userId : string;
    shopName : string;
    status : string
}.
End Seller.

Module Product.
Record t := mk {
    id : string;
    sellerId : string;
    title : string;
    price : Z;
    unit : string
}.
End Product.

Module Order.
Record t := mk {
    id : string;
    customerId : string;
    sellerId : string;
    items : list OrderItem.t;
    subtotal : Z;
    deliveryCharges : option Z;
    total : Z;
    paymentMethod : PaymentMethod;
    paymentStatus : PaymentStatus;
    prepaymentAmount : option Z;
    status : OrderStatus;
    deliveryAddress : Address.t;
    verifiedByAdminId : option string;
    sellerResponse : option string;
    buyerResponse : option string;
    rejectReason : option string;
    contactAttempts : option Z;
    createdAt : Z;
    updatedAt : Z
}.
End Order.

Module OrderStateHistory.
Record t := mk {
    id : string;
    orderId : string;
    status : OrderStatus;
    changedBy : option string;
    note : option string;
    createdAt : Z
}.
End OrderStateHistory.

(** [InsertOrder]: what [insertOrderSchema.parse] returns.  Columns that
    are [notNull] without a default are required, the others optional. *)
Module InsertOrder.
Record t := mk {
    customerId : string;
    sellerId : string;
    items : list OrderItem.t;
    subtotal : Q;
    deliveryCharges : option Q;
    total : Q;
    paymentMethod : PaymentMethod;
    paymentStatus : option PaymentStatus;
    prepaymentAmount : option Q;
    status : option OrderStatus;
    deliveryAddress : Address.t;
    verifiedByAdminId : option string;
    sellerResponse : option string;
    buyerResponse : option string;
    rejectReason : option string;
    contactAttempts : option Z
}.
End InsertOrder.

(** [req.body] of the order routes: a JSON object, every key optional.
    Read as [Partial<InsertOrder>] by [updateOrder]; [note] is no column of
    [orders] and is only read by the PATCH handler. *)
Module Body.
Record t := mk {
    customerId : option string;
    sellerId : option string;
    items : option (list OrderItem.t);
    subtotal : option Q;
    deliveryCharges : option Q;
    total : option Q;
    paymentMethod : option PaymentMethod;
    paymentStatus : option PaymentStatus;
    prepaymentAmount : option Q;
    status : option OrderStatus;
    deliveryAddress : option Address.t;
    verifiedByAdminId : option string;
    sellerResponse : option string;
    buyerResponse : option string;
    rejectReason : option string;
    contactAttempts : option Z;
    note : option string
}.

Definition empty : t :=
    mk None None None None None None None None None None None None None None
       None None None.
End Body.

Module InsertOrderStateHistory.
Record t := mk {
    orderId : string;
    status : OrderStatus;
    changedBy : option string;
    note : option string
}.
End InsertOrderStateHistory.

(** ** The database *)

Module Db.
Record t := mk {
    sellers : list Seller.t;
    products : list Product.t;
    orders : list Order.t;
    orderStateHistory : list OrderStateHistory.t
}.

Definition with_orders (d : t) (rows : list Order.t) : t :=
    mk (sellers d) (products d) rows (orderStateHistory d).

Definition with_orderStateHistory (d : t)
      (rows : list OrderStateHistory.t) : t :=
    mk (sellers d) (products d) (orders d) rows.

Definition with_products (d : t) (rows : list Product.t) : t :=
    mk (sellers d) rows (orders d) (orderStateHistory d).
End Db.

(** What the environment supplies to one request: the clock and the ids
    that [gen_random_uuid()] hands out, numbered by insertion. *)
Record Env := {
  now : Z;
  gen_random_uuid : nat → string
}.

(** ** Promises *)

Inductive Outcome (A : Type) :=
  | Resolved (a : A)
  | Rejected (message : string).
Arguments Resolved {A} a.
Arguments Rejected {A} message.

(** The state a handler runs in: the tables, and for each statement still
    to be sent whether the database refuses it ([true]); an exhausted
    schedule refuses nothing. *)
Record World := {
  db : Db.t;
  rejects : list bool
}.

Definition Async (A : Type) : Type := World → Outcome A * World.

Definition ret {A} (a : A) : Async A := λ w, (Resolved a, w).

Definition throw {A} (message : string) : Async A :=
  λ w, (Rejected message, w).

Definition bind {A B} (m : Async A) (k : A → Async B) : Async B :=
  λ w, match m w with
       | (Resolved a, w') => k a w'
       | (Rejected e, w') => (Rejected e, w')
       end.

Definition try_catch {A} (m : Async A) (handler : string → A) : Async A :=
  λ w, match m w with
       | (Resolved a, w') => (Resolved a, w')
       | (Rejected e, w') => (Resolved (handler e), w')
       end.

Declare Scope async_scope.
Delimit Scope async_scope with async.
Notation "x <- 'await' m ;; k" := (bind m (λ x, k))
  (at level 100, m at next level, right associativity) : async_scope.
Notation "'await' m ;; k" := (bind m (λ _, k))
  (at level 100, m at next level, right associativity) : async_scope.

(** One statement: refused by the schedule, refused by the database for a
    reason of its own, or applied as a whole. *)
Definition query {A} (stmt : Db.t → Outcome (A * Db.t)) : Async A :=
  λ w,
    let rest := tail (rejects w) in
    match head (rejects w) with
    | Some true =>
        (Rejected "Connection terminated", {| db := db w; rejects := rest |})
    | _ =>
        match stmt (db w) with
        | Resolved (a, d) => (Resolved a, {| db := d; rejects := rest |})
        | Rejected e => (Rejected e, {| db := db w; rejects := rest |})
        end
    end.

(** ** The storage layer ([DatabaseStorage], [storage.ts]) *)

(** [orderBy(desc(orders.createdAt))] and
    [orderBy(desc(orderStateHistory.createdAt))]. *)
Definition desc_orders_createdAt : relation Order.t :=
  λ a b, Order.createdAt b ≤ Order.createdAt a.

Definition desc_orderStateHistory_createdAt : relation OrderStateHistory.t :=
  λ a b, OrderStateHistory.createdAt b ≤ OrderStateHistory.createdAt a.

#[global] Instance desc_orders_createdAt_dec a b :
  Decision (desc_orders_createdAt a b).
Proof. unfold desc_orders_createdAt. apply _. Defined.

#[global] Instance desc_orderStateHistory_createdAt_dec a b :
  Decision (desc_orderStateHistory_createdAt a b).
Proof. unfold desc_orderStateHistory_createdAt. apply _. Defined.

Definition getSellerByUserId (userId : string) : Async (option Seller.t) :=
  query (λ d,
    Resolved (head (filter (λ s, Seller.userId s = userId) (Db.sellers d)), d)).

Definition getOrder (id : string) : Async (option Order.t) :=
  query (λ d,
    Resolved (head (filter (λ o, Order.id o = id) (Db.orders d)), d)).

Definition getOrdersByCustomer (customerId : string) : Async (list Order.t) :=
  query (λ d,
    Resolved (merge_sort desc_orders_createdAt
                (filter (λ o, Order.customerId o = customerId) (Db.orders d)),
              d)).

Definition getOrdersBySeller (sellerId : string) : Async (list Order.t) :=
  query (λ d,
    Resolved (merge_sort desc_orders_createdAt
                (filter (λ o, Order.sellerId o = sellerId) (Db.orders d)),
              d)).

(** [inArray(orders.status, statuses as any)]: the texts are cast to the
    enum by the database, which refuses the statement on an unknown label. *)
Definition getOrdersByStatus (statuses : list string) : Async (list Order.t) :=
  query (λ d,
    match mapM orderStatus_of_label statuses with
    | Some sts =>
        Resolved (merge_sort desc_orders_createdAt
                    (filter (λ o, Order.status o ∈ sts) (Db.orders d)),
                  d)
    | None => Rejected "invalid input value for enum order_status"
    end).

(** The row [db.insert(orders).values(data)] writes: defaults of the
    schema for the absent columns, decimals rounded to their scale. *)
Definition orders_values (id : string) (now : Z) (data : InsertOrder.t)
    : option Order.t :=
  subtotal ← numeric_10_2 (InsertOrder.subtotal data);
  deliveryCharges ←
    from_option numeric_10_2 (Some 0) (InsertOrder.deliveryCharges data);
  total ← numeric_10_2 (InsertOrder.total data);
  prepaymentAmount ←
    match InsertOrder.prepaymentAmount data with
    | Some q => Some <$> numeric_10_2 q
    | None => Some None
    end;
  Some {|
    Order.id := id;
    Order.customerId := InsertOrder.customerId data;
    Order.sellerId := InsertOrder.sellerId data;
    Order.items := InsertOrder.items data;
    Order.subtotal := subtotal;
    Order.deliveryCharges := Some deliveryCharges;
    Order.total := total;
    Order.paymentMethod := InsertOrder.paymentMethod data;
    Order.paymentStatus := default pending (InsertOrder.paymentStatus data);
    Order.prepaymentAmount := prepaymentAmount;
    Order.status := default created (InsertOrder.status data);
    Order.deliveryAddress := InsertOrder.deliveryAddress data;
    Order.verifiedByAdminId := InsertOrder.verifiedByAdminId data;
    Order.sellerResponse := InsertOrder.sellerResponse data;
    Order.buyerResponse := InsertOrder.buyerResponse data;
    Order.rejectReason := InsertOrder.rejectReason data;
    Order.contactAttempts :=
      Some (default 0 (InsertOrder.contactAttempts data));
    Order.createdAt := now;
    Order.updatedAt := now
  |}.

Definition createOrder (id : string) (now : Z) (data : InsertOrder.t)
    : Async Order.t :=
  query (λ d,
    match orders_values id now data with
    | Some order => Resolved (order, Db.with_orders d (Db.orders d ++ [order]))
    | None => Rejected "numeric field overflow"
    end).

(** A column named by the update takes the new value, another keeps its
    own. *)
Definition set_numeric (old : Z) (new : option Q) : option Z :=
  match new with
  | Some q => numeric_10_2 q
  | None => Some old
  end.

Definition set_numeric_nullable (old : option Z) (new : option Q)
    : option (option Z) :=
  match new with
  | Some q => Some <$> numeric_10_2 q
  | None => Some old
  end.

Definition set_nullable {A} (old new : option A) : option A :=
  match new with
  | Some x => Some x
  | None => old
  end.

(** [.set({ ...data, updatedAt: new Date() })] on one row.  Keys of the
    object that are no column of [orders] (such as [note]) are dropped by
    the query builder. *)
Definition orders_set (data : Body.t) (now : Z) (o : Order.t)
    : option Order.t :=
  subtotal ← set_numeric (Order.subtotal o) (Body.subtotal data);
  deliveryCharges ←
    set_numeric_nullable (Order.deliveryCharges o) (Body.deliveryCharges data);
  total ← set_numeric (Order.total o) (Body.total data);
  prepaymentAmount ←
    set_numeric_nullable (Order.prepaymentAmount o)
      (Body.prepaymentAmount data);
  Some {|
    Order.id := Order.id o;
    Order.customerId := default (Order.customerId o) (Body.customerId data);
    Order.sellerId := default (Order.sellerId o) (Body.sellerId data);
    Order.items := default (Order.items o) (Body.items data);
    Order.subtotal := subtotal;
    Order.deliveryCharges := deliveryCharges;
    Order.total := total;
    Order.paymentMethod :=
      default (Order.paymentMethod o) (Body.paymentMethod data);
    Order.paymentStatus :=
      default (Order.paymentStatus o) (Body.paymentStatus data);
    Order.prepaymentAmount := prepaymentAmount;
    Order.status := default (Order.status o) (Body.status data);
    Order.deliveryAddress :=
      default (Order.deliveryAddress o) (Body.deliveryAddress data);
    Order.verifiedByAdminId :=
      set_nullable (Order.verifiedByAdminId o) (Body.verifiedByAdminId data);
    Order.sellerResponse :=
      set_nullable (Order.sellerResponse o) (Body.sellerResponse data);
    Order.buyerResponse :=
      set_nullable (Order.buyerResponse o) (Body.buyerResponse data);
    Order.rejectReason :=
      set_nullable (Order.rejectReason o) (Body.rejectReason data);
    Order.contactAttempts :=
      set_nullable (Order.contactAttempts o) (Body.contactAttempts data);
    Order.createdAt := Order.createdAt o;
    Order.updatedAt := now
  |}.

(** [UPDATE orders SET ... WHERE id = $1 RETURNING *], row by row. *)
Definition orders_update_where_id (id : string) (data : Body.t) (now : Z)
    (rows : list Order.t) : option (list Order.t) :=
  mapM (λ o, if decide (Order.id o = id) then orders_set data now o
             else Some o) rows.

Definition updateOrder (id : string) (data : Body.t) (now : Z)
    : Async (option Order.t) :=
  query (λ d,
    match orders_update_where_id id data now (Db.orders d) with
    | Some rows =>
        Resolved (head (filter (λ o, Order.id o = id) rows),
                  Db.with_orders d rows)
    | None => Rejected "numeric field overflow"
    end).

Definition getOrderStateHistory (orderId : string)
    : Async (list OrderStateHistory.t) :=
  query (λ d,
    Resolved (merge_sort desc_orderStateHistory_createdAt
                (filter (λ h, OrderStateHistory.orderId h = orderId)
                   (Db.orderStateHistory d)),
              d)).

Definition orderStateHistory_values (id : string) (now : Z)
    (data : InsertOrderStateHistory.t) : OrderStateHistory.t :=
  {|
    OrderStateHistory.id := id;
    OrderStateHistory.orderId := InsertOrderStateHistory.orderId data;
    OrderStateHistory.status := InsertOrderStateHistory.status data;
    OrderStateHistory.changedBy := InsertOrderStateHistory.changedBy data;
    OrderStateHistory.note := InsertOrderStateHistory.note data;
    OrderStateHistory.createdAt := now
  |}.

Definition createOrderStateHistory (id : string) (now : Z)
    (data : InsertOrderStateHistory.t) : Async OrderStateHistory.t :=
  query (λ d,
    let history := orderStateHistory_values id now data in
    Resolved (history,
              Db.with_orderStateHistory d (Db.orderStateHistory d ++ [history]))).

(** ** Requests and responses ([auth.ts], [routes.ts]) *)

Inductive Json :=
  | JsonOrder (order : Order.t)
  | JsonOrders (orders : list Order.t)
  | JsonHistory (history : list OrderStateHistory.t)
  | JsonError (error : string)
  | JsonUndefined.

Record Response := {
  statusCode : Z;
  payload : Json
}.

(** [res.json(x)] and [res.status(c).json(x)]. *)
Definition res_json (x : Json) : Response :=
  {| statusCode := 200; payload := x |}.

Definition res_status_json (c : Z) (x : Json) : Response :=
  {| statusCode := c; payload := x |}.

Definition json_of_order (o : option Order.t) : Json :=
  match o with
  | Some order => JsonOrder order
  | None => JsonUndefined
  end.

(** The request as it arrives, and as [authMiddleware] hands it on. *)
Module Request.
Record t := mk {
    auth_token : option string;
    params_id : string;
    query_status : option string;
    body : Body.t
}.
End Request.

Module AuthRequest.
Record t := mk {
    userId : string;
    userRole : string;
    params_id : string;
    query_status : option string;
    body : Body.t
}.
End AuthRequest.

(** [status.split(",")]. *)
Fixpoint split_comma (s : string) : list string :=
  match s with
  | EmptyString => [EmptyString]
  | String c s' =>
      if decide (c = ","%char) then EmptyString :: split_comma s'
      else match split_comma s' with
           | w :: ws => String c w :: ws
           | [] => [String c EmptyString]
           end
  end.

Definition catch_500 (m : Async Response) : Async Response :=
  try_catch m (λ message, res_status_json 500 (JsonError message)).

Definition of_outcome {A} (r : Outcome A) : Async A := λ w, (r, w).

Local Open Scope async_scope.

(** [router.get("/api/orders", authMiddleware, ...)] *)
Definition get_api_orders (req : AuthRequest.t) : Async Response :=
  catch_500 (
    if decide (AuthRequest.userRole req = "customer") then
      orders <- await getOrdersByCustomer (AuthRequest.userId req);;
      ret (res_json (JsonOrders orders))
    else if decide (AuthRequest.userRole req = "seller") then
      seller <- await getSellerByUserId (AuthRequest.userId req);;
      match seller with
      | None => ret (res_status_json 403 (JsonError "Not a seller"))
      | Some seller =>
          orders <- await getOrdersBySeller (Seller.id seller);;
          ret (res_json (JsonOrders orders))
      end
    else if decide (AuthRequest.userRole req = "admin") then
      match AuthRequest.query_status req with
      | Some (String c status) =>
          orders <- await getOrdersByStatus (split_comma (String c status));;
          ret (res_json (JsonOrders orders))
      | _ =>
          orders <- await getOrdersByStatus
                      [ "pending_verification"; "seller_contacted";
                        "seller_accepted"; "buyer_contacted" ];;
          ret (res_json (JsonOrders orders))
      end
    else ret (res_json JsonUndefined)).

(** [router.get("/api/orders/:id", authMiddleware, ...)] *)
Definition get_api_orders_id (req : AuthRequest.t) : Async Response :=
  catch_500 (
    order <- await getOrder (AuthRequest.params_id req);;
    match order with
    | None => ret (res_status_json 404 (JsonError "Order not found"))
    | Some order => ret (res_json (JsonOrder order))
    end).

(** [insertOrderSchema.parse({ ...req.body, customerId: req.userId })]:
    throws when a required key is missing. *)
Definition insertOrderSchema_parse (b : Body.t) : Outcome InsertOrder.t :=
  match Body.customerId b, Body.sellerId b, Body.items b, Body.subtotal b,
        Body.total b, Body.paymentMethod b, Body.deliveryAddress b with
  | Some customerId, Some sellerId, Some items, Some subtotal, Some total,
    Some paymentMethod, Some deliveryAddress =>
      Resolved {|
        InsertOrder.customerId := customerId;
        InsertOrder.sellerId := sellerId;
        InsertOrder.items := items;
        InsertOrder.subtotal := subtotal;
        InsertOrder.deliveryCharges := Body.deliveryCharges b;
        InsertOrder.total := total;
        InsertOrder.paymentMethod := paymentMethod;
        InsertOrder.paymentStatus := Body.paymentStatus b;
        InsertOrder.prepaymentAmount := Body.prepaymentAmount b;
        InsertOrder.status := Body.status b;
        InsertOrder.deliveryAddress := deliveryAddress;
        InsertOrder.verifiedByAdminId := Body.verifiedByAdminId b;
        InsertOrder.sellerResponse := Body.sellerResponse b;
        InsertOrder.buyerResponse := Body.buyerResponse b;
        InsertOrder.rejectReason := Body.rejectReason b;
        InsertOrder.contactAttempts := Body.contactAttempts b
      |}
  | _, _, _, _, _, _, _ => Rejected "Required"
  end.

(** [{ ...req.body, customerId: req.userId }] *)
Definition with_customerId (b : Body.t) (userId : string) : Body.t :=
  {|
    Body.customerId := Some userId;
    Body.sellerId := Body.sellerId b;
    Body.items := Body.items b;
    Body.subtotal := Body.subtotal b;
    Body.deliveryCharges := Body.deliveryCharges b;
    Body.total := Body.total b;
    Body.paymentMethod := Body.paymentMethod b;
    Body.paymentStatus := Body.paymentStatus b;
    Body.prepaymentAmount := Body.prepaymentAmount b;
    Body.status := Body.status b;
    Body.deliveryAddress := Body.deliveryAddress b;
    Body.verifiedByAdminId := Body.verifiedByAdminId b;
    Body.sellerResponse := Body.sellerResponse b;
    Body.buyerResponse := Body.buyerResponse b;
    Body.rejectReason := Body.rejectReason b;
    Body.contactAttempts := Body.contactAttempts b;
    Body.note := Body.note b
  |}.

(** [router.post("/api/orders", authMiddleware, ...)] *)
Definition post_api_orders (env : Env) (req : AuthRequest.t)
    : Async Response :=
  catch_500 (
    data <- await of_outcome
              (insertOrderSchema_parse
                 (with_customerId (AuthRequest.body req)
                    (AuthRequest.userId req)));;
    order <- await createOrder (gen_random_uuid env 0%nat) (now env) data;;
    await createOrderStateHistory (gen_random_uuid env 1%nat) (now env)
      {| InsertOrderStateHistory.orderId := Order.id order;
         InsertOrderStateHistory.status := Order.status order;
         InsertOrderStateHistory.changedBy := Some (AuthRequest.userId req);
         InsertOrderStateHistory.note := None |};;
    ret (res_json (JsonOrder order))).

(** [router.patch("/api/orders/:id", authMiddleware, ...)] *)
Definition patch_api_orders_id (env : Env) (req : AuthRequest.t)
    : Async Response :=
  catch_500 (
    order <- await getOrder (AuthRequest.params_id req);;
    match order with
    | None => ret (res_status_json 404 (JsonError "Order not found"))
    | Some order =>
        updatedOrder <- await updateOrder (AuthRequest.params_id req)
                          (AuthRequest.body req) (now env);;
        (* if (req.body.status && req.body.status !== order.status) *)
        await (match Body.status (AuthRequest.body req) with
               | Some status =>
                   if decide (status ≠ Order.status order) then
                     await createOrderStateHistory
                       (gen_random_uuid env 0%nat) (now env)
                       {| InsertOrderStateHistory.orderId := Order.id order;
                          InsertOrderStateHistory.status := status;
                          InsertOrderStateHistory.changedBy :=
                            Some (AuthRequest.userId req);
                          InsertOrderStateHistory.note :=
                            Body.note (AuthRequest.body req) |};;
                     ret ()
                   else ret ()
               | None => ret ()
               end);;
        ret (res_json (json_of_order updatedOrder))
    end).

(** [router.get("/api/orders/:id/history", authMiddleware, ...)] *)
Definition get_api_orders_id_history (req : AuthRequest.t)
    : Async Response :=
  catch_500 (
    history <- await getOrderStateHistory (AuthRequest.params_id req);;
    ret (res_json (JsonHistory history))).

(** [authMiddleware]: the cookie is checked by [verifyToken] (a JWT
    signature check, taken as a function of the token), and the decoded
    identity is attached to the request. *)
Definition authMiddleware
    (verifyToken : string → option (string * string))
    (next : AuthRequest.t → Async Response) (req : Request.t)
    : Async Response :=
  match Request.auth_token req with
  | None | Some EmptyString =>
      ret (res_status_json 401 (JsonError "Not authenticated"))
  | Some token =>
      match verifyToken token with
      | None => ret (res_status_json 401 (JsonError "Invalid token"))
      | Some (userId, role) =>
          next {|
            AuthRequest.userId := userId;
            AuthRequest.userRole := role;
            AuthRequest.params_id := Request.params_id req;
            AuthRequest.query_status := Request.query_status req;
            AuthRequest.body := Request.body req
          |}
      end
  end.

Local Close Scope async_scope.

(** ** The Supabase path: the history trigger (SQL migration) *)

Inductive TgOp := INSERT | UPDATE.

#[global] Instance TgOp_eq_dec : EqDecision TgOp.
Proof. solve_decision. Defined.

(** [track_order_state_change()]: the row the trigger function inserts
    into [order_state_history], if any.  [OLD] is absent on INSERT. *)
Definition track_order_state_change (TG_OP : TgOp) (OLD : option Order.t)
    (NEW : Order.t) (auth_uid : option string)
    : option InsertOrderStateHistory.t :=
  if bool_decide (TG_OP = INSERT)
     || bool_decide (Order.status <$> OLD ≠ Some (Order.status NEW))
  then
    Some {|
      InsertOrderStateHistory.orderId := Order.id NEW;
      InsertOrderStateHistory.status := Order.status NEW;
      InsertOrderStateHistory.changedBy := auth_uid;
      InsertOrderStateHistory.note :=
        match Order.rejectReason NEW with
        | Some reject_reason => Some reject_reason
        | None =>
            match Order.sellerResponse NEW with
            | Some seller_response => Some seller_response
            | None =>
                match Order.buyerResponse NEW with
                | Some buyer_response => Some buyer_response
                | None => None
                end
            end
        end
    |}
  else None.

(** The rows a statement's trigger calls add, with their generated ids. *)
Definition history_rows (env : Env) (k : nat)
    (fired : list InsertOrderStateHistory.t) : list OrderStateHistory.t :=
  imap (λ i data,
          orderStateHistory_values (gen_random_uuid env (k + i)%nat)
            (now env) data) fired.

(** [INSERT INTO orders] sent by a signed-in client: the policy
    "Customers can create orders" checks [auth.uid() = customer_id]; the
    AFTER INSERT trigger runs inside the statement. *)
Definition insert_into_orders (env : Env) (k : nat)
    (auth_uid : option string) (data : InsertOrder.t) : Async Order.t :=
  query (λ d,
    if decide (auth_uid = Some (InsertOrder.customerId data)) then
      match orders_values (gen_random_uuid env k) (now env) data with
      | Some NEW =>
          let fired :=
            option_list (track_order_state_change INSERT None NEW auth_uid) in
          Resolved (NEW,
            Db.mk (Db.sellers d) (Db.products d) (Db.orders d ++ [NEW])
              (Db.orderStateHistory d ++ history_rows env (S k) fired))
      | None => Rejected "numeric field overflow"
      end
    else Rejected "new row violates row-level security policy").

(** [UPDATE orders SET ... WHERE id = $1], row by row: the new rows and the
    history inserts of the AFTER UPDATE trigger.  ([update_orders_updated_at]
    stamps [updated_at] as [orders_set] does.) *)
Fixpoint update_orders_rows (env : Env) (auth_uid : option string)
    (id : string) (data : Body.t) (rows : list Order.t)
    : option (list Order.t * list InsertOrderStateHistory.t) :=
  match rows with
  | [] => Some ([], [])
  | OLD :: rest =>
      '(rest', fired) ← update_orders_rows env auth_uid id data rest;
      if decide (Order.id OLD = id) then
        NEW ← orders_set data (now env) OLD;
        Some (NEW :: rest',
              option_list
                (track_order_state_change UPDATE (Some OLD) NEW auth_uid)
              ++ fired)
      else Some (OLD :: rest', fired)
  end.

(** The statement as a whole.  No policy of the migration lets a client
    update [orders]: it is issued by a role that bypasses row security, with
    whatever [auth.uid()] that session has. *)
Definition update_orders (env : Env) (auth_uid : option string)
    (id : string) (data : Body.t) : Async () :=
  query (λ d,
    match update_orders_rows env auth_uid id data (Db.orders d) with
    | Some (rows, fired) =>
        Resolved ((),
          Db.mk (Db.sellers d) (Db.products d) rows
            (Db.orderStateHistory d ++ history_rows env 0 fired))
    | None => Rejected "numeric field overflow"
    end).

(** ** The checkout page ([handleCheckout]) *)

Module CartItem.
Record t := mk {
    id : string;
    title : string;
    price : Q;
    unit : string;
    quantity : Z;
    seller_id : string
}.
End CartItem.

Inductive Toast :=
  | Toast_incomplete_address
  | Toast_order_placed
  | Toast_error (description : string).

(** [loadCartItems]: the cart saved in the browser is a list of product
    ids, one entry per unit.  [products] stands for the rows of the table
    the client may read; the price is the number its [DECIMAL(10,2)] column
    holds. *)
Definition loadCartItems (saved : list string) (products : list Product.t)
    : list CartItem.t :=
  (λ product,
     {| CartItem.id := Product.id product;
        CartItem.title := Product.title product;
        CartItem.price := (inject_Z (Product.price product) / 100)%Q;
        CartItem.unit := Product.unit product;
        CartItem.quantity :=
          Z.of_nat (length (filter (λ id, id = Product.id product) saved));
        CartItem.seller_id := Product.sellerId product |})
  <$> filter (λ product, Product.id product ∈ saved) products.

Definition with_quantity (item : CartItem.t) (quantity : Z) : CartItem.t :=
  {| CartItem.id := CartItem.id item;
     CartItem.title := CartItem.title item;
     CartItem.price := CartItem.price item;
     CartItem.unit := CartItem.unit item;
     CartItem.quantity := quantity;
     CartItem.seller_id := CartItem.seller_id item |}.

Definition updateQuantity (id : string) (delta : Z)
    (cartItems : list CartItem.t) : list CartItem.t :=
  (λ item, if decide (CartItem.id item = id)
           then with_quantity item (Z.max 1 (CartItem.quantity item + delta))
           else item) <$> cartItems.

Definition removeItem (id : string) (cartItems : list CartItem.t)
    : list CartItem.t :=
  filter (λ item, CartItem.id item ≠ id) cartItems.

(** [sellerGroups[item.seller_id].push(item)], keys in the order of their
    first item. *)
Fixpoint sellerGroups_push (groups : list (string * list CartItem.t))
    (item : CartItem.t) : list (string * list CartItem.t) :=
  match groups with
  | [] => [(CartItem.seller_id item, [item])]
  | (sellerId, items) :: rest =>
      if decide (sellerId = CartItem.seller_id item)
      then (sellerId, items ++ [item]) :: rest
      else (sellerId, items) :: sellerGroups_push rest item
  end.

Definition sellerGroups (cartItems : list CartItem.t)
    : list (string * list CartItem.t) :=
  fold_left sellerGroups_push cartItems [].

(** [items.reduce((sum, item) => sum + item.price * item.quantity, 0)] *)
Definition cart_subtotal (items : list CartItem.t) : Q :=
  fold_left (λ sum item,
               (sum + CartItem.price item * inject_Z (CartItem.quantity item))%Q)
    items 0%Q.

Definition order_item (item : CartItem.t) : OrderItem.t :=
  {|
    OrderItem.product_id := CartItem.id item;
    OrderItem.title := CartItem.title item;
    OrderItem.quantity := CartItem.quantity item;
    OrderItem.price := CartItem.price item;
    OrderItem.unit := CartItem.unit item
  |}.

(** The object [orderData] built for one seller. *)
Definition orderData (user_id sellerId : string) (items : list CartItem.t)
    (paymentMethod : PaymentMethod) (address : Address.t) : InsertOrder.t :=
  let subtotal := cart_subtotal items in
  let deliveryCharges := 50%Q in
  let total := (subtotal + deliveryCharges)%Q in
  let prepaymentAmount :=
    if decide (paymentMethod = cod) then Some (total * (2 # 10))%Q
    else None in
  {|
    InsertOrder.customerId := user_id;
    InsertOrder.sellerId := sellerId;
    InsertOrder.items := order_item <$> items;
    InsertOrder.subtotal := subtotal;
    InsertOrder.deliveryCharges := Some deliveryCharges;
    InsertOrder.total := total;
    InsertOrder.paymentMethod := paymentMethod;
    InsertOrder.paymentStatus := Some pending;
    InsertOrder.prepaymentAmount := prepaymentAmount;
    InsertOrder.status := Some pending_verification;
    InsertOrder.deliveryAddress := address;
    InsertOrder.verifiedByAdminId := None;
    InsertOrder.sellerResponse := None;
    InsertOrder.buyerResponse := None;
    InsertOrder.rejectReason := None;
    InsertOrder.contactAttempts := None
  |}.

Local Open Scope async_scope.

(** [for (const sellerId of Object.keys(sellerGroups)) { ... insert ... }]:
    the [k]-th order takes the ids [2k] and [2k+1] (its history row). *)
Fixpoint checkout_orders (env : Env) (k : nat) (user_id : string)
    (paymentMethod : PaymentMethod) (address : Address.t)
    (groups : list (string * list CartItem.t)) : Async () :=
  match groups with
  | [] => ret ()
  | (sellerId, items) :: rest =>
      await insert_into_orders env k (Some user_id)
        (orderData user_id sellerId items paymentMethod address);;
      checkout_orders env (S (S k)) user_id paymentMethod address rest
  end.

Definition handleCheckout (env : Env) (user : option string)
    (address : Address.t) (cartItems : list CartItem.t)
    (paymentMethod : PaymentMethod) : Async Toast :=
  if bool_decide (Address.line1 address = "")
     || bool_decide (Address.city address = "")
     || bool_decide (Address.state address = "")
     || bool_decide (Address.pinCode address = "")
  then ret Toast_incomplete_address
  else
    try_catch (
      match user with
      | None => throw "Not authenticated"
      | Some user_id =>
          await checkout_orders env 0 user_id paymentMethod address
            (sellerGroups cartItems);;
          ret Toast_order_placed
      end)
      Toast_error.

Local Close Scope async_scope.

(** ** Vocabulary of the statements *)

(** The number a [DECIMAL(10,2)] column holding [c] hundredths stands for,
    and [round(q, 2)] as hundredths. *)
Definition decimal_value (c : Z) : Q := (inject_Z c / 100)%Q.

Definition round_2 (q : Q) : Z := round_half_away (q * 100).

(** A number with at most two decimal places, as a [DECIMAL(10,2)] column
    returns it. *)
Definition two_decimals (q : Q) : Prop := ∃ c : Z, (q == decimal_value c)%Q.

(** Sum of price times quantity over the items stored with an order. *)
Definition items_subtotal (items : list OrderItem.t) : Q :=
  foldr (λ item acc,
           (OrderItem.price item * inject_Z (OrderItem.quantity item) + acc)%Q)
    0%Q items.

(** The same state over another catalog. *)
Definition with_catalog (w : World) (products : list Product.t) : World :=
  {| db := Db.with_products (db w) products; rejects := rejects w |}.

(** A computation that never reads the catalog: run over another catalog
    it answers the same and leaves the same rows. *)
Definition catalog_blind {A} (m : Async A) : Prop :=
  ∀ w products,
    m (with_catalog w products)
    = ((m w).1, with_catalog (m w).2 products).

(** The decimals an update names are all in the range of their column. *)
Definition fits (x : option Q) : bool :=
  match x with
  | Some q => bool_decide (is_Some (numeric_10_2 q))
  | None => true
  end.

Definition decimals_fit (b : Body.t) : bool :=
  fits (Body.subtotal b) && fits (Body.deliveryCharges b)
  && fits (Body.total b) && fits (Body.prepaymentAmount b).

(** The first populated value among [reject_reason], [seller_response] and
    [buyer_response] of an order, in that order. *)
Definition first_populated (o : Order.t) : option string :=
  head (omap id [Order.rejectReason o; Order.sellerResponse o;
                 Order.buyerResponse o]).

(** The history inserts the trigger owes for one updated row. *)
Definition status_rows (auth_uid : option string) (OLD NEW : Order.t)
    : list InsertOrderStateHistory.t :=
  if decide (Order.status OLD ≠ Order.status NEW) then
    [ {| InsertOrderStateHistory.orderId := Order.id NEW;
         InsertOrderStateHistory.status := Order.status NEW;
         InsertOrderStateHistory.changedBy := auth_uid;
         InsertOrderStateHistory.note := first_populated NEW |} ]
  else [].

(** The row the PATCH handler appends for a status change. *)
Definition patch_history_row (env : Env) (req : AuthRequest.t)
    (order : Order.t) (status : OrderStatus) : OrderStateHistory.t :=
  {| OrderStateHistory.id := gen_random_uuid env 0%nat;
     OrderStateHistory.orderId := Order.id order;
     OrderStateHistory.status := status;
     OrderStateHistory.changedBy := Some (AuthRequest.userId req);
     OrderStateHistory.note := Body.note (AuthRequest.body req);
     OrderStateHistory.createdAt := now env |}.

(** The transition graph the specification draws for the status (its
    section 3); no definition of the model above refers to it. *)
Definition next_statuses (s : OrderStatus) : list OrderStatus :=
  match s with
  | created => [pending_verification]
  | pending_verification => [seller_contacted]
  | seller_contacted => [seller_accepted; seller_rejected]
  | seller_accepted => [buyer_contacted]
  | buyer_contacted => [buyer_confirmed; buyer_rejected]
  | buyer_confirmed => [confirmed]
  | confirmed => [out_for_delivery]
  | out_for_delivery => [delivered]
  | delivered => [completed]
  | seller_rejected | buyer_rejected => [rejected]
  | completed | rejected => []
  end.

Fixpoint reachable_within (fuel : nat) (s t : OrderStatus) : bool :=
  match fuel with
  | O => false
  | S fuel' =>
      existsb (λ u, bool_decide (u = t) || reachable_within fuel' u t)
        (next_statuses s)
  end.

Definition reachable (s t : OrderStatus) : bool :=
  reachable_within (length orderStatusEnum) s t.


(** The statuses an admin sees when the request names none. *)
Definition in_review : list OrderStatus :=
  [pending_verification; seller_contacted; seller_accepted; buyer_contacted].

(** A request that passes [authMiddleware]. *)
Definition authenticated (verifyToken : string → option (string * string))
    (req : Request.t) : Prop :=
  ∃ token userId role,
    Request.auth_token req = Some token
    ∧ token ≠ ""
    ∧ verifyToken token = Some (userId, role).

(** ** Sample data *)

Definition quiet (d : Db.t) : World := {| db := d; rejects := [] |}.

Definition sample_address : Address.t :=
  Address.mk "14 Kiln Road" "" "Pune" "MH" "411001".

Definition sample_items : list OrderItem.t :=
  [OrderItem.mk "p-1" "Red bricks" 5 100 "piece"].

(** An order of 5 x 100.00 placed cash on delivery, awaiting verification. *)
Definition sample_order : Order.t :=
  Order.mk "o-1" "cust-1" "sel-1" sample_items 50000 (Some 5000) 55000
    cod pending (Some 11000) pending_verification sample_address
    None None None None (Some 0) 10 10.

Definition sample_history : OrderStateHistory.t :=
  OrderStateHistory.mk "h-1" "o-1" pending_verification (Some "cust-1") None 10.

Definition sample_db : Db.t :=
  Db.mk [Seller.mk "sel-1" "user-7" "Kiln and Co" "active"]
        [Product.mk "p-1" "sel-1" "Red bricks" 10000 "piece"]
        [sample_order] [sample_history].

Definition sample_env : Env :=
  {| now := 20;
     gen_random_uuid := λ k, match k with
                             | O => "u-0"
                             | S O => "u-1"
                             | _ => "u-2"
                             end |}.

Definition sample_cart : list CartItem.t :=
  [CartItem.mk "p-1" "Red bricks" 100 "piece" 5 "sel-1"].

(** A POST body whose total is not the sum of its subtotal and delivery
    charges. *)
Definition inconsistent_post : AuthRequest.t :=
  AuthRequest.mk "cust-1" "customer" "" None
    (Body.mk None (Some "sel-1") (Some sample_items) (Some 100%Q)
       (Some 50%Q) (Some 1%Q) (Some online) None None None
       (Some sample_address) None None None None None None).

Definition status_body (status : OrderStatus) : Body.t :=
  Body.mk None None None None None None None None None (Some status) None
    None None None None None None.

(** An admin moves the sample order on to [seller_contacted]. *)
Definition sample_patch : AuthRequest.t :=
  AuthRequest.mk "admin-1" "admin" "o-1" None (status_body seller_contacted).

(** An admin sets the sample order back to [created]. *)
Definition backward_patch : AuthRequest.t :=
  AuthRequest.mk "admin-1" "admin" "o-1" None (status_body created).

(** An admin rejects the sample order and gives the reason. *)
Definition reject_patch : AuthRequest.t :=
  AuthRequest.mk "admin-1" "admin" "o-1" None
    (Body.mk None None None None None None None None None (Some rejected)
       None None None None (Some "out of stock") None None).


(** The sample tables on a connection that drops at the third statement. *)
Definition drops_third_statement : World :=
  {| db := sample_db; rejects := [false; false; true] |}.

(** A POST body whose amounts and status do not follow from its items:
    5 x 100.00 of bricks, subtotal 1.00, total 2.00, prepayment 999.00,
    status [completed]. *)
Definition forged_post : AuthRequest.t :=
  AuthRequest.mk "cust-1" "customer" "" None
    (Body.mk None (Some "sel-1") (Some sample_items) (Some 1%Q)
       (Some 50%Q) (Some 2%Q) (Some cod) None (Some 999%Q) (Some completed)
       (Some sample_address) None None None None None None).

(** Two tokens: the customer who placed the sample order, and another
    customer. *)
Definition sample_verifyToken (token : string) : option (string * string) :=
  if decide (token = "token-cust-1") then Some ("cust-1", "customer")
  else if decide (token = "token-cust-9") then Some ("cust-9", "customer")
  else None.

Definition owner_request : Request.t :=
  Request.mk (Some "token-cust-1") "o-1" None Body.empty.

Definition stranger_request : Request.t :=
  Request.mk (Some "token-cust-9") "o-1" None Body.empty.

Definition sample_list_request : AuthRequest.t :=
  AuthRequest.mk "cust-1" "customer" "" None Body.empty.

(** The clock of a later request. *)
Definition later_env : Env :=
  {| now := 30; gen_random_uuid := λ _, "u-3" |}.

Definition accept_patch : AuthRequest.t :=
  AuthRequest.mk "admin-1" "admin" "o-1" None (status_body seller_accepted).

(** A cash-on-delivery POST body of total 550.00 that names no
    prepayment. *)
Definition cod_post_without_prepayment : AuthRequest.t :=
  AuthRequest.mk "cust-1" "customer" "" None
    (Body.mk None (Some "sel-1") (Some sample_items) (Some 500%Q)
       (Some 50%Q) (Some 550%Q) (Some cod) None None
       (Some pending_verification) (Some sample_address) None None None None
       None None).

(** ** Vocabulary of the further properties *)

(** A computation that leaves the tables as they are, whatever it answers
    and whatever the database refuses. *)
Definition reads_only {A} (m : Async A) : Prop :=
  ∀ w, db (m w).2 = db w.

(** A history row without the user it is attributed to. *)
Definition without_changedBy (h : OrderStateHistory.t) : OrderStateHistory.t :=
  {| OrderStateHistory.id := OrderStateHistory.id h;
     OrderStateHistory.orderId := OrderStateHistory.orderId h;
     OrderStateHistory.status := OrderStateHistory.status h;
     OrderStateHistory.changedBy := None;
     OrderStateHistory.note := OrderStateHistory.note h;
     OrderStateHistory.createdAt := OrderStateHistory.createdAt h |}.

(** The required keys of [insertOrderSchema], apart from [customerId] which
    the route sets. *)
Definition required_keys_present (b : Body.t) : bool :=
  bool_decide (is_Some (Body.sellerId b))
  && bool_decide (is_Some (Body.items b))
  && bool_decide (is_Some (Body.subtotal b))
  && bool_decide (is_Some (Body.total b))
  && bool_decide (is_Some (Body.paymentMethod b))
  && bool_decide (is_Some (Body.deliveryAddress b)).

(** A reader of the order the sample environment creates first. *)
Definition sample_reader : AuthRequest.t :=
  AuthRequest.mk "admin-1" "admin" "u-0" None Body.empty.

(** The sample PATCH sent by a customer who has no part in the order. *)
Definition stranger_patch : AuthRequest.t :=
  AuthRequest.mk "cust-9" "customer" "o-1" None (status_body seller_contacted).

(** What a history row says happened: which order took which status. *)
Definition transition (h : OrderStateHistory.t) : string * OrderStatus :=
  (OrderStateHistory.orderId h, OrderStateHistory.status h).

(** The four address fields the checkout insists on are filled in. *)
Definition address_complete (address : Address.t) : Prop :=
  Address.line1 address ≠ "" ∧ Address.city address ≠ ""
  ∧ Address.state address ≠ "" ∧ Address.pinCode address ≠ "".

(** An order as the checkout builds it for one group of the cart. *)
Definition order_of_group (user_id : string) (paymentMethod : PaymentMethod)
    (address : Address.t) (o : Order.t) (group : string * list CartItem.t)
    : Prop :=
  Order.sellerId o = group.1
  ∧ Order.items o = order_item <$> group.2
  ∧ Order.customerId o = user_id
  ∧ Order.status o = pending_verification
  ∧ Order.paymentStatus o = pending
  ∧ Order.paymentMethod o = paymentMethod
  ∧ Order.deliveryAddress o = address
  ∧ Order.subtotal o = round_2 (cart_subtotal group.2)
  ∧ Order.deliveryCharges o = Some 5000
  ∧ Order.total o = round_2 (cart_subtotal group.2 + 50).

(** [subtotal], [deliveryCharges] and [total] as the cart page shows them
    under the items: one delivery charge of 50 on the whole cart. *)
Definition cart_total (cartItems : list CartItem.t) : Q :=
  let subtotal := cart_subtotal cartItems in
  let deliveryCharges := 50%Q in
  (subtotal + deliveryCharges)%Q.

(** What a list of orders charges altogether, in hundredths. *)
Definition orders_total (orders : list Order.t) : Z :=
  foldr (λ o acc, Order.total o + acc) 0 orders.

(** A cart with products of two sellers. *)
Definition two_seller_cart : list CartItem.t :=
  [CartItem.mk "p-1" "Red bricks" 100 "piece" 5 "sel-1";
   CartItem.mk "p-7" "River sand" (1999 # 100) "bag" 3 "sel-2";
   CartItem.mk "p-2" "Fly ash bricks" (17 # 2) "piece" 40 "sel-1"].

(** The history row the trigger writes for a new order of [user_id]. *)
Definition first_row_of (user_id : string) (h : OrderStateHistory.t)
    (o : Order.t) : Prop :=
  OrderStateHistory.orderId h = Order.id o
  ∧ OrderStateHistory.status h = Order.status o
  ∧ OrderStateHistory.changedBy h = Some user_id
  ∧ OrderStateHistory.note h = None.

(** [newCart]: what [updateQuantity] and [removeItem] write back to the
    browser, the id of each item once per unit
    ([for (let i = 0; i < item.quantity; i++) newCart.push(item.id)]). *)
Definition newCart (newItems : list CartItem.t) : list string :=
  newItems ≫= λ item,
    replicate (Z.to_nat (CartItem.quantity item)) (CartItem.id item).

(** What the customer does on the cart page. *)
Inductive CartAction :=
  | UpdateQuantity (id : string) (delta : Z)
  | RemoveItem (id : string).

Definition cart_action (cartItems : list CartItem.t) (action : CartAction)
    : list CartItem.t :=
  match action with
  | UpdateQuantity id delta => updateQuantity id delta cartItems
  | RemoveItem id => removeItem id cartItems
  end.

Definition cart_actions (actions : list CartAction)
    (cartItems : list CartItem.t) : list CartItem.t :=
  fold_left cart_action actions cartItems.

(** The cart item [loadCartItems] makes of a product. *)
Definition cart_item (product : Product.t) (quantity : Z) : CartItem.t :=
  {| CartItem.id := Product.id product;
     CartItem.title := Product.title product;
     CartItem.price := (inject_Z (Product.price product) / 100)%Q;
     CartItem.unit := Product.unit product;
     CartItem.quantity := quantity;
     CartItem.seller_id := Product.sellerId product |}.

(** A cart that shows some of the products, in the order of the table, each
    with a quantity of at least one. *)
Inductive loaded_from : list Product.t → list CartItem.t → Prop :=
  | loaded_nil : loaded_from [] []
  | loaded_skip product products cartItems :
      loaded_from products cartItems →
      loaded_from (product :: products) cartItems
  | loaded_cons product quantity products cartItems :
      1 ≤ quantity →
      loaded_from products cartItems →
      loaded_from (product :: products)
        (cart_item product quantity :: cartItems).

Definition sample_catalog : list Product.t :=
  [Product.mk "p-1" "sel-1" "Red bricks" 10000 "piece";
   Product.mk "p-7" "sel-2" "River sand" 1999 "bag"].

(** A saved cart: one product once, one twice, and an id the catalog no
    longer has. *)
Definition sample_saved : list string := ["p-7"; "p-1"; "p-404"; "p-1"].

Definition sample_actions : list CartAction :=
  [UpdateQuantity "p-1" (-5); UpdateQuantity "p-7" 3; RemoveItem "p-1"].

(** [requireRole(...roles)]: the handler behind it runs only for a request
    whose role is one of [roles]; a missing or empty role is refused like
    any other. *)
Definition requireRole (roles : list string)
    (next : AuthRequest.t → Async Response) (req : AuthRequest.t)
    : Async Response :=
  if bool_decide (AuthRequest.userRole req = "")
     || negb (bool_decide (AuthRequest.userRole req ∈ roles))
  then ret (res_status_json 403 (JsonError "Insufficient permissions"))
  else next req.

(** [addToCart] of the home page: [[...cart, productId]], saved as it is. *)
Definition addToCart (cart : list string) (productId : string)
    : list string :=
  cart ++ [productId].

(** The units a cart holds: the sum of its quantities. *)
Definition cart_units (cartItems : list CartItem.t) : Z :=
  foldr (λ item acc, CartItem.quantity item + acc) 0 cartItems.

(** ** Accounts: profiles and addresses ([routes.ts], [storage.ts],
       [auth.ts])

    The tables [profiles] and [user_addresses] stand beside the tables of
    the order model; statements on them draw on the same schedule of
    refusals.  [bcrypt] and [jsonwebtoken] are taken as given functions: a
    hash of a salt and a password, a comparison of a password with a hash,
    a signature over user id, role and time of issue.  A body is again the
    record of its optional keys, typed by the schema; the sign-up, sign-in
    and change-password forms always send the phone and the passwords. *)

Inductive AppRole := role_customer | role_seller | role_admin.

#[global] Instance AppRole_eq_dec : EqDecision AppRole.
Proof. solve_decision. Defined.

Definition appRole_label (role : AppRole) : string :=
  match role with
  | role_customer => "customer"
  | role_seller => "seller"
  | role_admin => "admin"
  end.

Module Profile.
Record t := mk {
    id : string;
    role : AppRole;
    phone : string;
    name : string;
    email : option string;
    passwordHash : string;
    createdAt : Z;
    updatedAt : Z
}.
End Profile.

(** [Omit<Profile, "passwordHash">] *)
Module User.
Record t := mk {
    id : string;
    role : AppRole;
    phone : string;
    name : string;
    email : option string;
    createdAt : Z;
    updatedAt : Z
}.
End User.

Module UserAddress.
Record t := mk {
    id : string;
    userId : string;
    addressLine1 : string;
    addressLine2 : option string;
    city : string;
    state : string;
    pinCode : string;
    isDefault : option bool;
    createdAt : Z
}.
End UserAddress.

Module Tables.
Record t := mk {
    profiles : list Profile.t;
    userAddresses : list UserAddress.t
}.
End Tables.

(** The whole state of the server: the account tables, and the state of
    the order model with the schedule of refusals. *)
Record Site := {
  tables : Tables.t;
  world : World
}.

Definition Task (A : Type) : Type := Site → Outcome A * Site.

Definition task_ret {A} (a : A) : Task A := λ s, (Resolved a, s).

Definition task_throw {A} (message : string) : Task A :=
  λ s, (Rejected message, s).

Definition task_bind {A B} (m : Task A) (k : A → Task B) : Task B :=
  λ s, match m s with
       | (Resolved a, s') => k a s'
       | (Rejected e, s') => (Rejected e, s')
       end.

Definition task_try_catch {A} (m : Task A) (handler : string → A) : Task A :=
  λ s, match m s with
       | (Resolved a, s') => (Resolved a, s')
       | (Rejected e, s') => (Resolved (handler e), s')
       end.

Declare Scope task_scope.
Delimit Scope task_scope with task.
Notation "x <- 'await' m ;; k" := (task_bind m (λ x, k))
  (at level 100, m at next level, right associativity) : task_scope.
Notation "'await' m ;; k" := (task_bind m (λ _, k))
  (at level 100, m at next level, right associativity) : task_scope.

(** A computation of the order model, run on the order tables. *)
Definition lift {A} (m : Async A) : Task A :=
  λ s, match m (world s) with
       | (r, w') => (r, {| tables := tables s; world := w' |})
       end.

(** One statement on the account tables. *)
Definition statement {A} (stmt : Tables.t → Outcome (A * Tables.t)) : Task A :=
  λ s,
    let rest :=
      {| db := db (world s); rejects := tail (rejects (world s)) |} in
    match head (rejects (world s)) with
    | Some true =>
        (Rejected "Connection terminated",
         {| tables := tables s; world := rest |})
    | _ =>
        match stmt (tables s) with
        | Resolved (a, t) => (Resolved a, {| tables := t; world := rest |})
        | Rejected e => (Rejected e, {| tables := tables s; world := rest |})
        end
    end.

(** *** [auth.ts] *)

Record Crypto := {
  bcrypt_hash : string → string → string;
  bcrypt_compare : string → string → bool;
  jwt_sign : string → string → Z → string
}.

Definition sanitizeProfile (profile : Profile.t) : User.t :=
  {| User.id := Profile.id profile;
     User.role := Profile.role profile;
     User.phone := Profile.phone profile;
     User.name := Profile.name profile;
     User.email := Profile.email profile;
     User.createdAt := Profile.createdAt profile;
     User.updatedAt := Profile.updatedAt profile |}.

(** [bcrypt.hash(password, SALT_ROUNDS)]; the salt is drawn by the
    library. *)
Definition hashPassword (c : Crypto) (salt password : string) : string :=
  bcrypt_hash c salt password.

Definition comparePassword (c : Crypto) (password hash : string) : bool :=
  bcrypt_compare c password hash.

Definition generateToken (c : Crypto) (iat : Z) (userId role : string)
    : string :=
  jwt_sign c userId role iat.

(** *** Storage *)

Definition getProfile (id : string) : Task (option Profile.t) :=
  statement (λ t,
    Resolved (head (filter (λ p, Profile.id p = id) (Tables.profiles t)), t)).

Definition getProfileByPhone (phone : string) : Task (option Profile.t) :=
  statement (λ t,
    Resolved (head (filter (λ p, Profile.phone p = phone)
                      (Tables.profiles t)), t)).

Module InsertProfile.
Record t := mk {
    id : string;
    phone : string;
    name : option string;
    email : option string;
    role : AppRole;
    passwordHash : string
}.
End InsertProfile.

(** [name] is [NOT NULL] and has no default. *)
Definition createProfile (now : Z) (data : InsertProfile.t)
    : Task Profile.t :=
  statement (λ t,
    match InsertProfile.name data with
    | None => Rejected "null value in column name"
    | Some name =>
        let profile :=
          {| Profile.id := InsertProfile.id data;
             Profile.role := InsertProfile.role data;
             Profile.phone := InsertProfile.phone data;
             Profile.name := name;
             Profile.email := InsertProfile.email data;
             Profile.passwordHash := InsertProfile.passwordHash data;
             Profile.createdAt := now;
             Profile.updatedAt := now |} in
        Resolved (profile,
                  Tables.mk (Tables.profiles t ++ [profile])
                    (Tables.userAddresses t))
    end).

(** The keys of [profiles] an update may name.  ([createdAt] and
    [updatedAt] are left out: the first is a date no JSON body can carry,
    the second is overwritten.) *)
Module ProfileBody.
Record t := mk {
    id : option string;
    role : option AppRole;
    phone : option string;
    name : option string;
    email : option string;
    passwordHash : option string
}.
End ProfileBody.

(** [.set({ ...data, updatedAt: new Date() })] on one row: an [id] among
    the keys gives the row that id. *)
Definition profiles_set (data : ProfileBody.t) (now : Z) (p : Profile.t)
    : Profile.t :=
  {| Profile.id := default (Profile.id p) (ProfileBody.id data);
     Profile.role := default (Profile.role p) (ProfileBody.role data);
     Profile.phone := default (Profile.phone p) (ProfileBody.phone data);
     Profile.name := default (Profile.name p) (ProfileBody.name data);
     Profile.email := set_nullable (Profile.email p) (ProfileBody.email data);
     Profile.passwordHash :=
       default (Profile.passwordHash p) (ProfileBody.passwordHash data);
     Profile.createdAt := Profile.createdAt p;
     Profile.updatedAt := now |}.

(** [UPDATE profiles SET ... WHERE id = $1 RETURNING *]: the rows found
    are returned as updated.  PostgreSQL writes the new version of a row
    behind the rows the table holds, and that is where a query without
    [ORDER BY] finds it afterwards. *)
Definition updateProfile (id : string) (data : ProfileBody.t) (now : Z)
    : Task (option Profile.t) :=
  statement (λ t,
    let updated :=
      profiles_set data now
      <$> filter (λ p, Profile.id p = id) (Tables.profiles t) in
    Resolved (head updated,
              Tables.mk
                (filter (λ p, Profile.id p ≠ id) (Tables.profiles t)
                 ++ updated)
                (Tables.userAddresses t))).

(** [db.insert(sellers).values({ userId, shopName, status })]: a statement
    on the sellers of the order model. *)
Definition createSeller (id userId shopName status : string)
    : Task Seller.t :=
  lift (query (λ d,
    let seller := Seller.mk id userId shopName status in
    Resolved (seller,
              Db.mk (Db.sellers d ++ [seller]) (Db.products d) (Db.orders d)
                (Db.orderStateHistory d)))).

Definition getUserAddresses (userId : string) : Task (list UserAddress.t) :=
  statement (λ t,
    Resolved (filter (λ a, UserAddress.userId a = userId)
                (Tables.userAddresses t), t)).

Module InsertUserAddress.
Record t := mk {
    userId : string;
    addressLine1 : string;
    addressLine2 : option string;
    city : string;
    state : string;
    pinCode : string;
    isDefault : option bool
}.
End InsertUserAddress.

(** [isDefault] has the default [false]. *)
Definition createUserAddress (id : string) (now : Z)
    (data : InsertUserAddress.t) : Task UserAddress.t :=
  statement (λ t,
    let address :=
      {| UserAddress.id := id;
         UserAddress.userId := InsertUserAddress.userId data;
         UserAddress.addressLine1 := InsertUserAddress.addressLine1 data;
         UserAddress.addressLine2 := InsertUserAddress.addressLine2 data;
         UserAddress.city := InsertUserAddress.city data;
         UserAddress.state := InsertUserAddress.state data;
         UserAddress.pinCode := InsertUserAddress.pinCode data;
         UserAddress.isDefault :=
           Some (default false (InsertUserAddress.isDefault data));
         UserAddress.createdAt := now |} in
    Resolved (address,
              Tables.mk (Tables.profiles t)
                (Tables.userAddresses t ++ [address]))).

(** [req.body] of the address routes.  ([createdAt] is left out: a date no
    JSON body can carry.) *)
Module AddressBody.
Record t := mk {
    id : option string;
    userId : option string;
    addressLine1 : option string;
    addressLine2 : option string;
    city : option string;
    state : option string;
    pinCode : option string;
    isDefault : option bool
}.

Definition empty : t := mk None None None None None None None None.
End AddressBody.

Definition userAddresses_set (data : AddressBody.t) (a : UserAddress.t)
    : UserAddress.t :=
  {| UserAddress.id := default (UserAddress.id a) (AddressBody.id data);
     UserAddress.userId :=
       default (UserAddress.userId a) (AddressBody.userId data);
     UserAddress.addressLine1 :=
       default (UserAddress.addressLine1 a) (AddressBody.addressLine1 data);
     UserAddress.addressLine2 :=
       set_nullable (UserAddress.addressLine2 a)
         (AddressBody.addressLine2 data);
     UserAddress.city := default (UserAddress.city a) (AddressBody.city data);
     UserAddress.state :=
       default (UserAddress.state a) (AddressBody.state data);
     UserAddress.pinCode :=
       default (UserAddress.pinCode a) (AddressBody.pinCode data);
     UserAddress.isDefault :=
       set_nullable (UserAddress.isDefault a) (AddressBody.isDefault data);
     UserAddress.createdAt := UserAddress.createdAt a |}.

#[global] Instance AddressBody_eq_dec : EqDecision AddressBody.t.
Proof. solve_decision. Defined.

(** [.set(data)]: the query builder throws before anything is sent when
    [data] names no value.  The rows found are returned as updated, and
    stand behind the others afterwards, as in [updateProfile]. *)
Definition updateUserAddress (id : string) (data : AddressBody.t)
    : Task (option UserAddress.t) :=
  if decide (data = AddressBody.empty) then task_throw "No values to set"
  else
    statement (λ t,
      let updated :=
        userAddresses_set data
        <$> filter (λ a, UserAddress.id a = id) (Tables.userAddresses t) in
      Resolved (head updated,
                Tables.mk (Tables.profiles t)
                  (filter (λ a, UserAddress.id a ≠ id)
                     (Tables.userAddresses t)
                   ++ updated))).

Definition deleteUserAddress (id : string) : Task () :=
  statement (λ t,
    Resolved ((),
              Tables.mk (Tables.profiles t)
                (filter (λ a, UserAddress.id a ≠ id)
                   (Tables.userAddresses t)))).

(** *** Routes *)

Inductive Cookie :=
  | CookieKept
  | CookieSet (auth_token : string)
  | CookieCleared.

Inductive AccountJson :=
  | JsonSession (user : User.t) (token : string)
  | JsonUser (user : User.t)
  | JsonProfile (profile : User.t)
  | JsonMessage (message : string)
  | JsonFailure (error : string)
  | JsonAddresses (addresses : list UserAddress.t)
  | JsonAddress (address : option UserAddress.t).

Module Reply.
Record t := mk {
    statusCode : Z;
    cookie : Cookie;
    payload : AccountJson
}.
End Reply.

Definition reply_json (x : AccountJson) : Reply.t :=
  Reply.mk 200 CookieKept x.

Definition reply_status_json (c : Z) (x : AccountJson) : Reply.t :=
  Reply.mk c CookieKept x.

Definition task_of_outcome {A} (r : Outcome A) : Task A := λ s, (r, s).

Definition task_catch_500 (m : Task Reply.t) : Task Reply.t :=
  task_try_catch m (λ message, reply_status_json 500 (JsonFailure message)).

(** A JavaScript string that counts as true: present and not empty. *)
Definition truthy (x : option string) : option string :=
  match x with
  | Some (String c s) => Some (String c s)
  | _ => None
  end.

Module SignupBody.
Record t := mk {
    email : option string;
    password : string;
    name : option string;
    phone : string;
    role : option AppRole;
    shopName : option string
}.
End SignupBody.

Local Open Scope task_scope.

(** [router.post("/api/auth/signup", ...)]: the profile takes the first id
    the environment hands out, the seller record the second. *)
Definition post_api_auth_signup (c : Crypto) (env : Env) (salt : string)
    (body : SignupBody.t) : Task Reply.t :=
  task_catch_500 (
    existingUser <- await getProfileByPhone (SignupBody.phone body);;
    match existingUser with
    | Some _ =>
        task_ret (reply_status_json 400
                    (JsonFailure "User already exists with this phone number"))
    | None =>
        let passwordHash := hashPassword c salt (SignupBody.password body) in
        let profileId := gen_random_uuid env 0%nat in
        profile <- await createProfile (now env)
                     {| InsertProfile.id := profileId;
                        InsertProfile.phone := SignupBody.phone body;
                        InsertProfile.name := SignupBody.name body;
                        InsertProfile.email := truthy (SignupBody.email body);
                        InsertProfile.role :=
                          default role_customer (SignupBody.role body);
                        InsertProfile.passwordHash := passwordHash |};;
        await (match SignupBody.role body, truthy (SignupBody.shopName body)
               with
               | Some role_seller, Some shopName =>
                   await createSeller (gen_random_uuid env 1%nat)
                     (Profile.id profile) shopName "active";;
                   task_ret ()
               | _, _ => task_ret ()
               end);;
        let token :=
          generateToken c (now env) (Profile.id profile)
            (appRole_label (Profile.role profile)) in
        task_ret (Reply.mk 200 (CookieSet token)
                    (JsonSession (sanitizeProfile profile) token))
    end).

Module SigninBody.
Record t := mk {
    phone : string;
    password : string
}.
End SigninBody.

(** [router.post("/api/auth/signin", ...)] *)
Definition post_api_auth_signin (c : Crypto) (env : Env)
    (body : SigninBody.t) : Task Reply.t :=
  task_catch_500 (
    profile <- await getProfileByPhone (SigninBody.phone body);;
    match profile with
    | None =>
        task_ret (reply_status_json 401 (JsonFailure "Invalid credentials"))
    | Some profile =>
        if comparePassword c (SigninBody.password body)
             (Profile.passwordHash profile)
        then
          let token :=
            generateToken c (now env) (Profile.id profile)
              (appRole_label (Profile.role profile)) in
          task_ret (Reply.mk 200 (CookieSet token)
                      (JsonSession (sanitizeProfile profile) token))
        else
          task_ret (reply_status_json 401
                      (JsonFailure "Invalid credentials"))
    end).

(** [router.post("/api/auth/signout", ...)] *)
Definition post_api_auth_signout : Task Reply.t :=
  task_ret (Reply.mk 200 CookieCleared
              (JsonMessage "Signed out successfully")).

Module ChangePasswordBody.
Record t := mk {
    currentPassword : string;
    newPassword : string
}.
End ChangePasswordBody.

(** [router.post("/api/auth/change-password", authMiddleware, ...)] *)
Definition post_api_auth_change_password (c : Crypto) (env : Env)
    (salt : string) (userId : string) (body : ChangePasswordBody.t)
    : Task Reply.t :=
  task_catch_500 (
    profile <- await getProfile userId;;
    match profile with
    | None =>
        task_ret (reply_status_json 404 (JsonFailure "Profile not found"))
    | Some profile =>
        if comparePassword c (ChangePasswordBody.currentPassword body)
             (Profile.passwordHash profile)
        then
          let newPasswordHash :=
            hashPassword c salt (ChangePasswordBody.newPassword body) in
          await updateProfile userId
            (ProfileBody.mk None None None None None (Some newPasswordHash))
            (now env);;
          task_ret (reply_json (JsonMessage "Password changed successfully"))
        else
          task_ret (reply_status_json 401
                      (JsonFailure "Current password is incorrect"))
    end).

(** [router.get("/api/auth/session", authMiddleware, ...)] *)
Definition get_api_auth_session (userId : string) : Task Reply.t :=
  task_catch_500 (
    profile <- await getProfile userId;;
    match profile with
    | None =>
        task_ret (reply_status_json 404 (JsonFailure "Profile not found"))
    | Some profile => task_ret (reply_json (JsonUser (sanitizeProfile profile)))
    end).

(** [router.get("/api/profiles/:id", authMiddleware, ...)] *)
Definition get_api_profiles_id (params_id : string) : Task Reply.t :=
  task_catch_500 (
    profile <- await getProfile params_id;;
    match profile with
    | None =>
        task_ret (reply_status_json 404 (JsonFailure "Profile not found"))
    | Some profile =>
        task_ret (reply_json (JsonProfile (sanitizeProfile profile)))
    end).

(** [const { passwordHash, ...allowedUpdates } = req.body] *)
Definition allowedUpdates (body : ProfileBody.t) : ProfileBody.t :=
  ProfileBody.mk (ProfileBody.id body) (ProfileBody.role body)
    (ProfileBody.phone body) (ProfileBody.name body) (ProfileBody.email body)
    None.

(** [router.patch("/api/profiles/:id", authMiddleware, ...)] *)
Definition patch_api_profiles_id (env : Env) (userId params_id : string)
    (body : ProfileBody.t) : Task Reply.t :=
  task_catch_500 (
    if decide (userId ≠ params_id) then
      task_ret (reply_status_json 403
                  (JsonFailure "Cannot update other user's profile"))
    else
      profile <- await updateProfile params_id (allowedUpdates body) (now env);;
      match profile with
      | None =>
          task_ret (reply_status_json 404 (JsonFailure "Profile not found"))
      | Some profile =>
          task_ret (reply_json (JsonProfile (sanitizeProfile profile)))
      end).

(** [router.get("/api/addresses", authMiddleware, ...)] *)
Definition get_api_addresses (userId : string) : Task Reply.t :=
  task_catch_500 (
    addresses <- await getUserAddresses userId;;
    task_ret (reply_json (JsonAddresses addresses))).

(** [insertUserAddressSchema.parse({ ...req.body, userId: req.userId })]:
    throws when a required key is missing; the schema omits [id], so an
    [id] in the body is dropped. *)
Definition insertUserAddressSchema_parse (body : AddressBody.t)
    : Outcome InsertUserAddress.t :=
  match AddressBody.userId body, AddressBody.addressLine1 body,
        AddressBody.city body, AddressBody.state body,
        AddressBody.pinCode body with
  | Some userId, Some addressLine1, Some city, Some state, Some pinCode =>
      Resolved {|
        InsertUserAddress.userId := userId;
        InsertUserAddress.addressLine1 := addressLine1;
        InsertUserAddress.addressLine2 := AddressBody.addressLine2 body;
        InsertUserAddress.city := city;
        InsertUserAddress.state := state;
        InsertUserAddress.pinCode := pinCode;
        InsertUserAddress.isDefault := AddressBody.isDefault body
      |}
  | _, _, _, _, _ => Rejected "Required"
  end.

Definition with_userId (body : AddressBody.t) (userId : string)
    : AddressBody.t :=
  AddressBody.mk (AddressBody.id body) (Some userId)
    (AddressBody.addressLine1 body)
    (AddressBody.addressLine2 body) (AddressBody.city body)
    (AddressBody.state body) (AddressBody.pinCode body)
    (AddressBody.isDefault body).

(** [router.post("/api/addresses", authMiddleware, ...)] *)
Definition post_api_addresses (env : Env) (userId : string)
    (body : AddressBody.t) : Task Reply.t :=
  task_catch_500 (
    data <- await task_of_outcome
              (insertUserAddressSchema_parse (with_userId body userId));;
    address <- await createUserAddress (gen_random_uuid env 0%nat) (now env)
                 data;;
    task_ret (reply_json (JsonAddress (Some address)))).

(** [router.patch("/api/addresses/:id", authMiddleware, ...)] *)
Definition patch_api_addresses_id (params_id : string)
    (body : AddressBody.t) : Task Reply.t :=
  task_catch_500 (
    address <- await updateUserAddress params_id body;;
    task_ret (reply_json (JsonAddress address))).

(** [router.delete("/api/addresses/:id", authMiddleware, ...)] *)
Definition delete_api_addresses_id (params_id : string) : Task Reply.t :=
  task_catch_500 (
    await deleteUserAddress params_id;;
    task_ret (reply_json (JsonMessage "Address deleted"))).

Local Close Scope task_scope.

(** A site on which no statement is refused. *)
Definition calm (t : Tables.t) (d : Db.t) : Site :=
  {| tables := t; world := quiet d |}.

(** Stand-ins for the two libraries, for the examples: the hash shows the
    password, the token shows the identity. *)
Definition sample_crypto : Crypto :=
  {| bcrypt_hash := λ salt password, String "$" (salt +:+ "$" +:+ password);
     bcrypt_compare := λ password hash,
       bool_decide (hash = String "$" ("salt" +:+ "$" +:+ password));
     jwt_sign := λ userId role iat, userId +:+ "." +:+ role |}.

Definition sample_profile : Profile.t :=
  Profile.mk "cust-1" role_customer "98200" "Asha" None "$salt$secret" 5 5.

Definition sample_tables : Tables.t :=
  Tables.mk [sample_profile]
    [UserAddress.mk "a-1" "cust-1" "14 Kiln Road" None "Pune" "MH" "411001"
       (Some false) 6].

Definition sample_signup : SignupBody.t :=
  SignupBody.mk (Some "") "brick" (Some "Ravi") "98111" (Some role_seller)
    (Some "Ravi Bricks").

(** A token checker for the examples: it knows the token of one admin. *)
Definition sample_jwt_verify (token : string) : option (string * string) :=
  if decide (token = "cust-1.admin") then Some ("cust-1", "admin") else None.

(** An address form without a user id, and one that names another user. *)
Definition sample_address_body : AddressBody.t :=
  AddressBody.mk None (Some "cust-9") (Some "2 Quarry Lane") None
    (Some "Nashik") (Some "MH") (Some "422001") None.

(** A body that hands an address over to another user. *)
Definition transfer_body : AddressBody.t :=
  AddressBody.mk None (Some "cust-9") None None None None None None.

(** A computation that leaves every table as it finds it. *)
Definition task_reads_only {A} (m : Task A) : Prop :=
  ∀ s, tables (m s).2 = tables s ∧ db (world (m s).2) = db (world s).

(** Two profiles that share a phone number, as a PATCH of the phone can
    leave them. *)
Definition twin_tables : Tables.t :=
  Tables.mk
    [sample_profile;
     Profile.mk "cust-2" role_customer "98200" "Bela" None "$salt$other" 7 7]
    [].

(** * Properties *)

(** ** Rounding *)

Section Rounding.
Local Open Scope Q_scope.

Lemma Qfloor_unique (x : Q) (n : Z) :
  inject_Z n <= x → x < inject_Z (n + 1) → Qfloor x = n.
Proof.
  intros Hle Hlt.
  pose proof (Qfloor_le x) as H1. pose proof (Qlt_floor x) as H2.
  assert (inject_Z n < inject_Z (Qfloor x + 1)) as H3
    by (eapply Qle_lt_trans; eauto).
  assert (inject_Z (Qfloor x) < inject_Z (n + 1)) as H4
    by (eapply Qle_lt_trans; eauto).
  rewrite <- Zlt_Qlt in H3, H4. lia.
Qed.

Lemma round_half_away_nonneg (q : Q) (n : Z) :
  0 <= q → inject_Z n - (1 # 2) <= q → q < inject_Z n + (1 # 2) →
  round_half_away q = n.
Proof.
  intros H0 H1 H2. unfold round_half_away.
  apply Qle_bool_iff in H0. rewrite H0.
  apply Qfloor_unique; rewrite ?inject_Z_plus;
    change (inject_Z 1) with 1; lra.
Qed.

Lemma round_half_away_neg (q : Q) (n : Z) :
  q < 0 → inject_Z n - (1 # 2) < q → q <= inject_Z n + (1 # 2) →
  round_half_away q = n.
Proof.
  intros H0 H1 H2. unfold round_half_away.
  destruct (Qle_bool 0 q) eqn:E.
  - apply Qle_bool_iff in E. lra.
  - assert (Qfloor (- q + (1 # 2)) = (- n)%Z) as ->; [|lia].
    apply Qfloor_unique; rewrite ?inject_Z_plus, ?inject_Z_opp;
      change (inject_Z 1) with 1; lra.
Qed.

Lemma round_half_away_bounds (q : Q) :
  let n := round_half_away q in
  (0 <= q ∧ inject_Z n - (1 # 2) <= q ∧ q < inject_Z n + (1 # 2)) ∨
  (q < 0 ∧ inject_Z n - (1 # 2) < q ∧ q <= inject_Z n + (1 # 2)).
Proof.
  unfold round_half_away. destruct (Qle_bool 0 q) eqn:E.
  - left. apply Qle_bool_iff in E.
    pose proof (Qfloor_le (q + (1 # 2))).
    pose proof (Qlt_floor (q + (1 # 2))) as H2.
    rewrite inject_Z_plus in H2. change (inject_Z 1) with 1 in H2.
    repeat split; lra.
  - right. assert (q < 0).
    { destruct (Qlt_le_dec q 0) as [|H]; [done|].
      apply Qle_bool_iff in H. congruence. }
    pose proof (Qfloor_le (- q + (1 # 2))).
    pose proof (Qlt_floor (- q + (1 # 2))) as H2.
    rewrite inject_Z_plus in H2. change (inject_Z 1) with 1 in H2.
    rewrite inject_Z_opp in *. repeat split; lra.
Qed.

(** Rounding does not see which fraction stands for the number. *)
Lemma round_half_away_comp (q q' : Q) :
  q == q' → round_half_away q = round_half_away q'.
Proof.
  intros Heq.
  destruct (round_half_away_bounds q') as [(? & ? & ?)|(? & ? & ?)].
  - apply round_half_away_nonneg; lra.
  - apply round_half_away_neg; lra.
Qed.

Lemma round_half_away_inject_Z (n : Z) : round_half_away (inject_Z n) = n.
Proof.
  destruct (Qlt_le_dec (inject_Z n) 0).
  - apply round_half_away_neg; lra.
  - apply round_half_away_nonneg; lra.
Qed.

(** A fifth of an amount rounds to the same hundredth whether the amount
    was rounded first or not: the ties of the fifth sit on ties of the
    amount. *)
Lemma round_half_away_fifth (y : Q) :
  round_half_away (inject_Z (round_half_away y) * (1 # 5))
  = round_half_away (y * (1 # 5)).
Proof.
  set (T := round_half_away y). set (m := round_half_away (y * (1 # 5))).
  pose proof (round_half_away_bounds y) as HT. fold T in HT.
  pose proof (round_half_away_bounds (y * (1 # 5))) as Hm. fold m in Hm.
  cbv zeta in HT, Hm.
  assert (inject_Z (5 * m + -3) < inject_Z T) as Hlo.
  { rewrite inject_Z_plus, inject_Z_mult.
    change (inject_Z 5) with 5. change (inject_Z (-3)) with (-3). lra. }
  assert (inject_Z T < inject_Z (5 * m + 3)) as Hhi.
  { rewrite inject_Z_plus, inject_Z_mult.
    change (inject_Z 5) with 5. change (inject_Z 3) with 3. lra. }
  rewrite <- Zlt_Qlt in Hlo, Hhi.
  assert (5 * m + -2 <= T)%Z as Ha by lia.
  assert (T <= 5 * m + 2)%Z as Hb by lia.
  rewrite Zle_Qle in Ha, Hb.
  rewrite inject_Z_plus, inject_Z_mult in Ha, Hb.
  change (inject_Z 5) with 5 in *. change (inject_Z 2) with 2 in *.
  change (inject_Z (-2)) with (-2) in *.
  destruct (Qlt_le_dec (inject_Z T) 0) as [Hneg|Hpos].
  - apply round_half_away_neg; lra.
  - apply round_half_away_nonneg; lra.
Qed.

End Rounding.

(** ** Statements and promises *)

Lemma query_cases {A} (stmt : Db.t → Outcome (A * Db.t)) (w : World) :
  (∃ e, query stmt w
        = (Rejected e, {| db := db w; rejects := tail (rejects w) |}))
  ∨ (∃ a d, stmt (db w) = Resolved (a, d)
            ∧ query stmt w
              = (Resolved a, {| db := d; rejects := tail (rejects w) |})).
Proof.
  unfold query. destruct (head (rejects w)) as [[]|]; eauto;
    destruct (stmt (db w)) as [[a d]|e]; eauto.
Qed.

Lemma query_quiet {A} (stmt : Db.t → Outcome (A * Db.t)) (d : Db.t) :
  query stmt {| db := d; rejects := [] |}
  = match stmt d with
    | Resolved (a, d') => (Resolved a, {| db := d'; rejects := [] |})
    | Rejected e => (Rejected e, {| db := d; rejects := [] |})
    end.
Proof. reflexivity. Qed.

(** Case analysis on the first statement found in the goal or in a
    hypothesis. *)
Ltac query_inv :=
  let e := fresh "e" in
  let He := fresh "He" in
  let a := fresh "a" in
  let d := fresh "d" in
  let Hstmt := fresh "Hstmt" in
  let Hq := fresh "Hq" in
  match goal with
  | |- context [@query ?A ?stmt ?w] =>
      destruct (@query_cases A stmt w) as [[e He]|(a & d & Hstmt & Hq)];
      [rewrite He; clear He|rewrite Hq; clear Hq]
  | H : context [@query ?A ?stmt ?w] |- _ =>
      destruct (@query_cases A stmt w) as [[e He]|(a & d & Hstmt & Hq)];
      [rewrite He in H; clear He|rewrite Hq in H; clear Hq]
  end.

Lemma numeric_10_2_Some (q : Q) (c : Z) :
  numeric_10_2 q = Some c → c = round_2 q.
Proof.
  unfold numeric_10_2, round_2. case_match; congruence.
Qed.

(** ** Checkout *)

Lemma sellerGroups_push_Forall (P : CartItem.t → Prop) groups item :
  Forall (λ group, Forall P group.2) groups → P item →
  Forall (λ group, Forall P group.2) (sellerGroups_push groups item).
Proof.
  intros Hgroups Hitem.
  induction Hgroups as [|[sellerId items] groups Hg Hgroups IH]; simpl.
  - repeat constructor; done.
  - case_decide; constructor; simpl in *; auto.
    apply Forall_app; auto.
Qed.

(** Every group holds items of the cart only. *)
Lemma sellerGroups_Forall (P : CartItem.t → Prop) cartItems :
  Forall P cartItems →
  Forall (λ group, Forall P group.2) (sellerGroups cartItems).
Proof.
  intros Hcart. unfold sellerGroups.
  cut (∀ groups, Forall (λ group, Forall P group.2) groups →
         Forall (λ group, Forall P group.2)
           (fold_left sellerGroups_push cartItems groups)).
  { intros H. apply H. constructor. }
  induction Hcart as [|item cartItems Hitem Hcart IH]; simpl; intros; [done|].
  apply IH. by apply sellerGroups_push_Forall.
Qed.

Lemma insert_into_orders_cases env k auth_uid data (w : World) :
  (∃ e, insert_into_orders env k auth_uid data w
        = (Rejected e, {| db := db w; rejects := tail (rejects w) |}))
  ∨ (∃ NEW,
       orders_values (gen_random_uuid env k) (now env) data = Some NEW
       ∧ auth_uid = Some (InsertOrder.customerId data)
       ∧ insert_into_orders env k auth_uid data w
         = (Resolved NEW,
            {| db :=
                 Db.mk (Db.sellers (db w)) (Db.products (db w))
                   (Db.orders (db w) ++ [NEW])
                   (Db.orderStateHistory (db w)
                    ++ history_rows env (S k)
                         (option_list
                            (track_order_state_change INSERT None NEW
                               auth_uid)));
               rejects := tail (rejects w) |})).
Proof.
  unfold insert_into_orders. query_inv; [by left; eauto|right].
  simpl in *. case_decide; [|done].
  destruct (orders_values _ _ _) as [NEW|]; [|done].
  match goal with H : Resolved _ = Resolved _ |- _ => injection H as <- <- end.
  eauto.
Qed.

(** The orders a checkout adds are rows built from [orderData]. *)
Lemma checkout_orders_created (P : Order.t → Prop) env user_id paymentMethod
    address groups :
  Forall (λ group, ∀ k o,
            orders_values (gen_random_uuid env k) (now env)
              (orderData user_id group.1 group.2 paymentMethod address)
            = Some o → P o) groups →
  ∀ k w, ∃ new,
    Db.orders
      (db (checkout_orders env k user_id paymentMethod address groups w).2)
    = Db.orders (db w) ++ new
    ∧ Forall P new.
Proof.
  induction 1 as [|[sellerId items] groups Hgroup Hgroups IH]; intros k w.
  - exists []. split; [by rewrite app_nil_r|constructor].
  - simpl. unfold bind.
    destruct (insert_into_orders_cases env k (Some user_id)
                (orderData user_id sellerId items paymentMethod address) w)
      as [[e ->]|(NEW & Hval & _ & ->)].
    + exists []. split; [by rewrite app_nil_r|constructor].
    + destruct (IH (S (S k)) {| db :=
                 Db.mk (Db.sellers (db w)) (Db.products (db w))
                   (Db.orders (db w) ++ [NEW])
                   (Db.orderStateHistory (db w)
                    ++ history_rows env (S k)
                         (option_list
                            (track_order_state_change INSERT None NEW
                               (Some user_id))));
               rejects := tail (rejects w) |}) as (new & Hnew & HP).
      exists (NEW :: new). split.
      * rewrite Hnew. simpl. by rewrite <- app_assoc.
      * constructor; [|done]. eapply Hgroup, Hval.
Qed.

Lemma handleCheckout_created (P : Order.t → Prop) env user address cartItems
    paymentMethod :
  (∀ user_id, user = Some user_id →
     Forall (λ group, ∀ k o,
               orders_values (gen_random_uuid env k) (now env)
                 (orderData user_id group.1 group.2 paymentMethod address)
               = Some o → P o) (sellerGroups cartItems)) →
  ∀ w, ∃ new,
    Db.orders (db (handleCheckout env user address cartItems paymentMethod w).2)
    = Db.orders (db w) ++ new
    ∧ Forall P new.
Proof.
  intros HP w. unfold handleCheckout.
  destruct (_ || _).
  { exists []. split; [by rewrite app_nil_r|constructor]. }
  unfold try_catch. destruct user as [user_id|].
  - unfold bind.
    destruct (checkout_orders_created P env user_id paymentMethod address
                (sellerGroups cartItems) (HP user_id eq_refl) 0%nat w)
      as (new & Hnew & Hall).
    exists new. split; [|done]. rewrite <- Hnew.
    by destruct (checkout_orders _ _ _ _ _ _ w) as [[[]|e] w'].
  - exists []. split; [by rewrite app_nil_r|constructor].
Qed.

(** What [orders_values] stores for an [orderData] object. *)
Lemma orders_values_orderData id now0 user_id sellerId items paymentMethod
    address o :
  orders_values id now0 (orderData user_id sellerId items paymentMethod address)
  = Some o →
  Order.paymentMethod o = paymentMethod
  ∧ Order.items o = order_item <$> items
  ∧ Order.status o = pending_verification
  ∧ Order.subtotal o = round_2 (cart_subtotal items)
  ∧ Order.deliveryCharges o = Some 5000
  ∧ Order.total o = round_2 (cart_subtotal items + 50)
  ∧ Order.prepaymentAmount o
    = if decide (paymentMethod = cod)
      then Some (round_2 ((cart_subtotal items + 50) * (2 # 10)))
      else None.
Proof.
  unfold orders_values, orderData. intros H.
  simplify_option_eq; repeat split;
    try done; try (by apply numeric_10_2_Some);
    try (f_equal; by apply numeric_10_2_Some).
Qed.

(** C6 as stated fails on the server: POST /api/orders creates a
    cash-on-delivery order of total 550.00 without prepayment when the body
    names none, where 20% of the total is 110.00. *)
Lemma C6_post_cod_without_prepayment :
  ∃ order w',
    post_api_orders sample_env cod_post_without_prepayment (quiet sample_db)
    = (Resolved (res_json (JsonOrder order)), w')
    ∧ order ∈ Db.orders (db w')
    ∧ Order.paymentMethod order = cod
    ∧ Order.total order = 55000
    ∧ round_2 (decimal_value (Order.total order) * (20 # 100)) = 11000
    ∧ Order.prepaymentAmount order = None.
Proof.
  do 2 eexists. split; [vm_compute; reflexivity|].
  split; [right; left|by vm_compute].
Qed.

(** C6 (amended). Every order the checkout page creates carries, when the
    payment method is cash on delivery, a prepayment equal to its stored
    total times 0.20 rounded to two places, and no prepayment when the
    payment is online.  The statement covers whatever the schedule of
    refused statements is: [new] lists the orders that were created. *)
Theorem C6_checkout_prepayment (env : Env) (user : option string)
    (address : Address.t) (cartItems : list CartItem.t)
    (paymentMethod : PaymentMethod) (w : World) :
  ∃ new,
    Db.orders (db (handleCheckout env user address cartItems paymentMethod w).2)
    = Db.orders (db w) ++ new
    ∧ Forall (λ o,
                match Order.paymentMethod o with
                | cod =>
                    Order.prepaymentAmount o
                    = Some (round_2 (decimal_value (Order.total o) * (20 # 100)))
                | online => Order.prepaymentAmount o = None
                end) new.
Proof.
  apply handleCheckout_created. intros user_id _.
  apply Forall_forall. intros [sellerId items] _ k o Hval. simpl in Hval.
  apply orders_values_orderData in Hval
    as (Hmethod & _ & _ & _ & _ & Htotal & Hprepay).
  rewrite Hmethod, Hprepay. destruct paymentMethod; [done|].
  simpl. f_equal. rewrite Htotal. unfold round_2, decimal_value.
  set (total := (cart_subtotal items + 50)%Q).
  rewrite (round_half_away_comp (total * (2 # 10) * 100)
             (total * 100 * (1 # 5))) by ring.
  rewrite (round_half_away_comp
             (inject_Z (round_half_away (total * 100)) / 100 * (20 # 100) * 100)
             (inject_Z (round_half_away (total * 100)) * (1 # 5)))
    by (unfold Qdiv; change (/ 100)%Q with (1 # 100)%Q; ring).
  symmetry. apply round_half_away_fifth.
Qed.

Lemma two_decimals_cart_subtotal (items : list CartItem.t) :
  Forall (λ item, two_decimals (CartItem.price item)) items →
  two_decimals (cart_subtotal items).
Proof.
  unfold cart_subtotal. intros Hitems.
  cut (∀ acc, two_decimals acc →
         two_decimals
           (fold_left
              (λ sum item,
                 (sum + CartItem.price item
                        * inject_Z (CartItem.quantity item))%Q) items acc)).
  { intros H. apply H. exists 0. reflexivity. }
  induction Hitems as [|item items [c Hc] _ IH]; simpl; intros acc [a Ha];
    [by exists a|].
  apply IH. exists (a + c * CartItem.quantity item).
  rewrite Ha, Hc. unfold decimal_value, Qdiv.
  rewrite inject_Z_plus, inject_Z_mult. ring.
Qed.

Lemma cart_subtotal_items_subtotal (items : list CartItem.t) :
  (cart_subtotal items == items_subtotal (order_item <$> items))%Q.
Proof.
  unfold cart_subtotal.
  cut (∀ acc,
         (fold_left
            (λ sum item,
               (sum + CartItem.price item
                      * inject_Z (CartItem.quantity item))%Q) items acc
          == acc + items_subtotal (order_item <$> items))%Q).
  { intros H. rewrite H. ring. }
  unfold items_subtotal.
  induction items as [|item items IH]; simpl; intros acc; [ring|].
  rewrite IH. symmetry. apply Qplus_assoc.
Qed.

(** The carts the page builds hold prices with two decimals. *)
Lemma loadCartItems_two_decimals saved products :
  Forall (λ item, two_decimals (CartItem.price item))
    (loadCartItems saved products).
Proof.
  unfold loadCartItems. apply Forall_fmap, Forall_forall.
  intros product _. simpl. by exists (Product.price product).
Qed.

Lemma updateQuantity_two_decimals id delta cartItems :
  Forall (λ item, two_decimals (CartItem.price item)) cartItems →
  Forall (λ item, two_decimals (CartItem.price item))
    (updateQuantity id delta cartItems).
Proof.
  unfold updateQuantity. intros H. apply Forall_fmap.
  eapply Forall_impl; [done|]. intros item Hitem. simpl. by case_decide.
Qed.

Lemma removeItem_two_decimals id cartItems :
  Forall (λ item, two_decimals (CartItem.price item)) cartItems →
  Forall (λ item, two_decimals (CartItem.price item)) (removeItem id cartItems).
Proof.
  unfold removeItem. rewrite !Forall_forall.
  intros H item [_ Hitem]%list_elem_of_filter. auto.
Qed.

(** ** Order operations never read the catalog *)

Lemma catalog_blind_ret {A} (a : A) : catalog_blind (ret a).
Proof. done. Qed.

Lemma catalog_blind_bind {A B} (m : Async A) (k : A → Async B) :
  catalog_blind m → (∀ a, catalog_blind (k a)) → catalog_blind (bind m k).
Proof.
  intros Hm Hk w products. unfold bind. rewrite Hm.
  destruct (m w) as [[a|e] w']; simpl; [apply Hk|done].
Qed.

Lemma catalog_blind_try_catch {A} (m : Async A) (handler : string → A) :
  catalog_blind m → catalog_blind (try_catch m handler).
Proof.
  intros Hm w products. unfold try_catch. rewrite Hm.
  by destruct (m w) as [[a|e] w'].
Qed.

Lemma catalog_blind_query {A} (stmt : Db.t → Outcome (A * Db.t)) :
  (∀ d products,
     stmt (Db.with_products d products)
     = match stmt d with
       | Resolved (a, d') => Resolved (a, Db.with_products d' products)
       | Rejected e => Rejected e
       end) →
  catalog_blind (query stmt).
Proof.
  intros Hstmt w products. unfold query. simpl.
  destruct (head (rejects w)) as [[]|]; try done;
    rewrite Hstmt; by destruct (stmt (db w)) as [[a d']|e].
Qed.

Lemma catalog_blind_patch_api_orders_id env req :
  catalog_blind (patch_api_orders_id env req).
Proof.
  unfold patch_api_orders_id, catch_500.
  apply catalog_blind_try_catch, catalog_blind_bind.
  { by apply catalog_blind_query. }
  intros [order|]; [|apply catalog_blind_ret].
  apply catalog_blind_bind.
  { apply catalog_blind_query. intros d products. simpl.
    by destruct (orders_update_where_id _ _ _ _). }
  intros updatedOrder. apply catalog_blind_bind; [|intros; apply catalog_blind_ret].
  destruct (Body.status _); [|apply catalog_blind_ret].
  case_decide; [|apply catalog_blind_ret].
  apply catalog_blind_bind; [|intros; apply catalog_blind_ret].
  by apply catalog_blind_query.
Qed.

Lemma catalog_blind_update_orders env auth_uid id data :
  catalog_blind (update_orders env auth_uid id data).
Proof.
  apply catalog_blind_query. intros d products. simpl.
  by destruct (update_orders_rows _ _ _ _ _) as [[rows fired]|].
Qed.

(** ** Totals *)

(** The checkout of one seller's 5 x 100.00 bricks, cash on delivery:
    total 550.00, prepayment 110.00, and one history row by the customer. *)
Example checkout_scenario :
  ∃ order row,
    handleCheckout sample_env (Some "cust-1") sample_address sample_cart cod
      (quiet (Db.mk [] [] [] []))
    = (Resolved Toast_order_placed, quiet (Db.mk [] [] [order] [row]))
    ∧ Order.subtotal order = 50000
    ∧ Order.total order = 55000
    ∧ Order.prepaymentAmount order = Some 11000
    ∧ Order.status order = pending_verification
    ∧ OrderStateHistory.status row = pending_verification
    ∧ OrderStateHistory.changedBy row = Some "cust-1".
Proof. do 2 eexists. split; [vm_compute; reflexivity|]. by vm_compute. Qed.

(** Why the prices are taken with two decimals: a price of -0.005, which no
    [DECIMAL(10,2)] column returns, is stored as subtotal -0.01 while the
    total 49.995 is stored as 50.00, both ties being rounded away from
    zero. *)
Example checkout_tie_below_zero :
  ∃ order,
    Db.orders
      (db (handleCheckout sample_env (Some "cust-1") sample_address
             [CartItem.mk "p-9" "Voucher" (-5 # 1000) "piece" 1 "sel-1"]
             online (quiet (Db.mk [] [] [] []))).2)
    = [order]
    ∧ Order.subtotal order = -1
    ∧ Order.deliveryCharges order = Some 5000
    ∧ Order.total order = 5000.
Proof. eexists. split; [vm_compute; reflexivity|]. by vm_compute. Qed.

(** C7 as stated fails on the server: POST /api/orders stores a body with
    subtotal 100.00, delivery charges 50.00 and total 1.00 as it is. *)
Lemma C7_post_stores_inconsistent_total :
  ∃ order w',
    post_api_orders sample_env inconsistent_post (quiet sample_db)
    = (Resolved (res_json (JsonOrder order)), w')
    ∧ order ∈ Db.orders (db w')
    ∧ Order.subtotal order = 10000
    ∧ Order.deliveryCharges order = Some 5000
    ∧ Order.total order = 100
    ∧ Order.total order ≠ Order.subtotal order + 5000.
Proof.
  do 2 eexists. split; [vm_compute; reflexivity|].
  split; [right; left|by vm_compute].
Qed.

(** C7 (amended). Every order the checkout creates from a cart whose prices
    have two decimals stores delivery charges 50.00, a total equal to its
    subtotal plus these, and a subtotal equal to the sum of price times
    quantity over the items stored with it.  Later updates never consult
    the catalog: the PATCH handler and the UPDATE statement answer the same
    and leave the same rows over any products table. *)
Theorem C7_checkout_total_invariant (env : Env) (user : option string)
    (address : Address.t) (cartItems : list CartItem.t)
    (paymentMethod : PaymentMethod) (w : World) :
  Forall (λ item, two_decimals (CartItem.price item)) cartItems →
  (∃ new,
     Db.orders (db (handleCheckout env user address cartItems paymentMethod w).2)
     = Db.orders (db w) ++ new
     ∧ Forall (λ o,
                 Order.deliveryCharges o = Some 5000
                 ∧ Order.total o = Order.subtotal o + 5000
                 ∧ (decimal_value (Order.subtotal o)
                    == items_subtotal (Order.items o))%Q) new)
  ∧ (∀ env' req, catalog_blind (patch_api_orders_id env' req))
  ∧ (∀ env' auth_uid id data,
       catalog_blind (update_orders env' auth_uid id data)).
Proof.
  intros Hprices. split; [|split].
  - apply handleCheckout_created. intros user_id _.
    eapply Forall_impl; [apply (sellerGroups_Forall _ _ Hprices)|].
    intros [sellerId items] Hitems k o Hval. simpl in *.
    apply orders_values_orderData in Hval
      as (_ & Hsnapshot & _ & Hsubtotal & Hdelivery & Htotal & _).
    destruct (two_decimals_cart_subtotal items Hitems) as [c Hc].
    assert (Order.subtotal o = c) as Hsub.
    { rewrite Hsubtotal. unfold round_2.
      rewrite (round_half_away_comp _ (inject_Z c)).
      - apply round_half_away_inject_Z.
      - rewrite Hc. unfold decimal_value, Qdiv.
        change (/ 100)%Q with (1 # 100)%Q. ring. }
    split; [done|]. split.
    + rewrite Htotal, Hsub. unfold round_2.
      rewrite (round_half_away_comp _ (inject_Z (c + 5000))).
      * apply round_half_away_inject_Z.
      * rewrite Hc, inject_Z_plus. unfold decimal_value, Qdiv.
        change (/ 100)%Q with (1 # 100)%Q.
        change (inject_Z 5000) with 5000%Q. ring.
    + rewrite Hsub, Hsnapshot, <- cart_subtotal_items_subtotal. by rewrite Hc.
  - apply catalog_blind_patch_api_orders_id.
  - apply catalog_blind_update_orders.
Qed.

Lemma C7_checkout_total_invariant_witness :
  ∃ new,
    Db.orders
      (db (handleCheckout sample_env (Some "cust-1") sample_address
             sample_cart cod (quiet sample_db)).2)
    = Db.orders sample_db ++ new
    ∧ Forall (λ o,
                Order.deliveryCharges o = Some 5000
                ∧ Order.total o = Order.subtotal o + 5000
                ∧ (decimal_value (Order.subtotal o)
                   == items_subtotal (Order.items o))%Q) new.
Proof.
  apply (C7_checkout_total_invariant sample_env (Some "cust-1") sample_address
           sample_cart cod (quiet sample_db)).
  repeat constructor. exists 10000. by vm_compute.
Defined.

(** ** Updating rows *)

Lemma orders_set_fields data now0 o o' :
  orders_set data now0 o = Some o' →
  Order.id o' = Order.id o
  ∧ Order.status o' = default (Order.status o) (Body.status data)
  ∧ Order.rejectReason o'
    = set_nullable (Order.rejectReason o) (Body.rejectReason data)
  ∧ Order.sellerResponse o'
    = set_nullable (Order.sellerResponse o) (Body.sellerResponse data)
  ∧ Order.buyerResponse o'
    = set_nullable (Order.buyerResponse o) (Body.buyerResponse data).
Proof. unfold orders_set. intros H. by simplify_option_eq. Qed.

Lemma fits_set_numeric old new : fits new = true → is_Some (set_numeric old new).
Proof.
  destruct new as [q|]; simpl; [|eauto]. by intros ?%bool_decide_eq_true.
Qed.

Lemma fits_set_numeric_nullable old new :
  fits new = true → is_Some (set_numeric_nullable old new).
Proof.
  destruct new as [q|]; simpl; [|eauto].
  intros [c ->]%bool_decide_eq_true. by eexists.
Qed.

Lemma orders_set_fits data now0 o :
  decimals_fit data = true → is_Some (orders_set data now0 o).
Proof.
  unfold decimals_fit. rewrite !andb_true_iff. intros [[[H1 H2] H3] H4].
  unfold orders_set.
  destruct (fits_set_numeric (Order.subtotal o) _ H1) as [? ->].
  destruct (fits_set_numeric_nullable (Order.deliveryCharges o) _ H2) as [? ->].
  destruct (fits_set_numeric (Order.total o) _ H3) as [? ->].
  destruct (fits_set_numeric_nullable (Order.prepaymentAmount o) _ H4)
    as [? ->].
  by eexists.
Qed.

Lemma orders_update_where_id_fits id data now0 rows :
  decimals_fit data = true →
  is_Some (orders_update_where_id id data now0 rows).
Proof.
  intros Hfit. apply mapM_is_Some_2, Forall_forall. intros o _. simpl.
  case_decide; [by apply orders_set_fits|by eexists].
Qed.

(** The row [getOrder] finds before the update is the one it finds after,
    updated. *)
Lemma orders_update_where_id_head id data now0 rows rows' :
  orders_update_where_id id data now0 rows = Some rows' →
  match head (filter (λ o, Order.id o = id) rows) with
  | Some o =>
      ∃ o', orders_set data now0 o = Some o'
            ∧ head (filter (λ o, Order.id o = id) rows') = Some o'
  | None => head (filter (λ o, Order.id o = id) rows') = None
  end.
Proof.
  intros H%mapM_Some_1.
  induction H as [|o o' rows rows' Ho _ IH]; [done|].
  rewrite !filter_cons. case_decide as Hid.
  - simpl. exists o'. split; [done|].
    apply orders_set_fields in Ho as (Hid' & _). rewrite decide_True; [done|].
    congruence.
  - injection Ho as <-. by rewrite decide_False.
Qed.

(** ** The PATCH handler *)

(** The rows [req.body.status && req.body.status !== order.status] makes
    the handler append. *)
Lemma patch_api_orders_id_quiet env req d :
  patch_api_orders_id env req (quiet d)
  = match head (filter (λ o, Order.id o = AuthRequest.params_id req)
                  (Db.orders d)) with
    | None =>
        (Resolved (res_status_json 404 (JsonError "Order not found")), quiet d)
    | Some order =>
        match orders_update_where_id (AuthRequest.params_id req)
                (AuthRequest.body req) (now env) (Db.orders d) with
        | None =>
            (Resolved
               (res_status_json 500 (JsonError "numeric field overflow")),
             quiet d)
        | Some rows =>
            (Resolved
               (res_json
                  (json_of_order
                     (head (filter
                              (λ o, Order.id o = AuthRequest.params_id req)
                              rows)))),
             quiet
               (Db.mk (Db.sellers d) (Db.products d) rows
                  (Db.orderStateHistory d
                   ++ match Body.status (AuthRequest.body req) with
                      | Some status =>
                          if decide (status ≠ Order.status order)
                          then [patch_history_row env req order status]
                          else []
                      | None => []
                      end)))
        end
    end.
Proof.
  unfold patch_api_orders_id, catch_500, try_catch, bind, getOrder,
    updateOrder, createOrderStateHistory, quiet.
  rewrite query_quiet.
  destruct (head (filter _ (Db.orders d))) as [order|]; [|done].
  rewrite query_quiet.
  destruct (orders_update_where_id _ _ _ _) as [rows|]; [|done].
  destruct (Body.status _) as [status|]; simpl.
  - case_decide; simpl; [done|].
    unfold ret. by rewrite app_nil_r.
  - unfold ret. by rewrite app_nil_r.
Qed.

(** Under any schedule of refusals the handler leaves the history as it
    was, or appends the one row of a status that did change. *)
Lemma patch_api_orders_id_history env req (w : World) :
  let w' := (patch_api_orders_id env req w).2 in
  Db.orderStateHistory (db w') = Db.orderStateHistory (db w)
  ∨ ∃ order status rows,
      head (filter (λ o, Order.id o = AuthRequest.params_id req)
              (Db.orders (db w))) = Some order
      ∧ Body.status (AuthRequest.body req) = Some status
      ∧ status ≠ Order.status order
      ∧ orders_update_where_id (AuthRequest.params_id req)
          (AuthRequest.body req) (now env) (Db.orders (db w)) = Some rows
      ∧ Db.orders (db w') = rows
      ∧ Db.orderStateHistory (db w')
        = Db.orderStateHistory (db w)
          ++ [patch_history_row env req order status].
Proof.
  destruct w as [d schedule]. simpl.
  unfold patch_api_orders_id, catch_500, try_catch, bind, getOrder,
    updateOrder, createOrderStateHistory, query, ret. simpl.
  destruct schedule as [|b1 [|b2 [|b3 schedule]]];
    try destruct b1; try destruct b2; try destruct b3; simpl;
    try (by left);
    (destruct (head (filter _ (Db.orders d))) as [order|] eqn:Hfind;
       simpl; [|by left]);
    try (by left);
    (destruct (orders_update_where_id _ _ _ _) as [rows|] eqn:Hupd;
       simpl; [|by left]);
    (destruct (Body.status _) as [status|] eqn:Hstatus; simpl; [|by left]);
    (case_decide; simpl; [|by left]);
    try (by left);
    right; exists order, status, rows; done.
Qed.

(** ** The trigger *)

Lemma track_order_state_change_update auth_uid OLD NEW :
  option_list (track_order_state_change UPDATE (Some OLD) NEW auth_uid)
  = status_rows auth_uid OLD NEW.
Proof.
  unfold track_order_state_change, status_rows, first_populated. simpl.
  case_bool_decide as H; case_decide as H'; simpl.
  - by destruct (Order.rejectReason NEW), (Order.sellerResponse NEW),
      (Order.buyerResponse NEW).
  - destruct H. congruence.
  - destruct H'. congruence.
  - done.
Qed.

Lemma update_orders_rows_spec env auth_uid id data rows rows' fired :
  update_orders_rows env auth_uid id data rows = Some (rows', fired) →
  Forall2 (λ OLD NEW,
             if decide (Order.id OLD = id)
             then orders_set data (now env) OLD = Some NEW
             else NEW = OLD) rows rows'
  ∧ fired = mjoin (zip_with (status_rows auth_uid) rows rows').
Proof.
  revert rows' fired.
  induction rows as [|OLD rows IH]; simpl; intros rows' fired H.
  - by injection H as <- <-.
  - destruct (update_orders_rows env auth_uid id data rows)
      as [[rest' fired0]|]; [|done].
    destruct (IH rest' fired0 eq_refl) as [Hrows ->]. simpl in H.
    case_decide as Hid.
    + destruct (orders_set data (now env) OLD) as [NEW|] eqn:Hset; [|done].
      injection H as <- <-. split.
      * constructor; [by rewrite decide_True|done].
      * by rewrite track_order_state_change_update.
    + injection H as <- <-. split.
      * constructor; [by rewrite decide_False|done].
      * simpl. unfold status_rows at 2. by rewrite decide_False by auto.
Qed.

(** The UPDATE statement is refused as a whole, or stores the new rows
    together with one history row for each row whose status changed. *)
Lemma update_orders_cases env auth_uid id data (w : World) :
  (∃ e, update_orders env auth_uid id data w
        = (Rejected e, {| db := db w; rejects := tail (rejects w) |}))
  ∨ (∃ rows,
       Forall2 (λ OLD NEW,
                  if decide (Order.id OLD = id)
                  then orders_set data (now env) OLD = Some NEW
                  else NEW = OLD) (Db.orders (db w)) rows
       ∧ update_orders env auth_uid id data w
         = (Resolved (),
            {| db :=
                 Db.mk (Db.sellers (db w)) (Db.products (db w)) rows
                   (Db.orderStateHistory (db w)
                    ++ history_rows env 0
                         (mjoin (zip_with (status_rows auth_uid)
                                   (Db.orders (db w)) rows)));
               rejects := tail (rejects w) |})).
Proof.
  unfold update_orders. query_inv; [by left; eauto|right].
  simpl in *.
  destruct (update_orders_rows _ _ _ _ _) as [[rows fired]|] eqn:Hrows;
    [|done].
  apply update_orders_rows_spec in Hrows as [Hrows ->].
  match goal with
  | H : Resolved _ = Resolved (?u, _) |- _ => destruct u; injection H as <-
  end.
  eauto.
Qed.

(** ** Status updates and their history rows *)

(** C1 as stated fails on the REST handler: the update and the history
    insert are two statements.  When the database refuses the second, the
    request answers 500, the order is stored as [seller_contacted], and its
    history still ends at [pending_verification]. *)
Lemma C1_patch_refused_history_insert :
  (patch_api_orders_id sample_env sample_patch drops_third_statement).1
  = Resolved (res_status_json 500 (JsonError "Connection terminated"))
  ∧ Order.status sample_order = pending_verification
  ∧ Order.status
    <$> head (filter (λ o, Order.id o = "o-1")
                (Db.orders
                   (db (patch_api_orders_id sample_env sample_patch
                          drops_third_statement).2)))
    = Some seller_contacted
  ∧ Db.orderStateHistory
      (db (patch_api_orders_id sample_env sample_patch
             drops_third_statement).2)
    = [sample_history]
  ∧ OrderStateHistory.status sample_history = pending_verification.
Proof. by vm_compute. Qed.

(** C1 (amended). When no statement is refused, PATCH /api/orders/:id on an
    unknown id answers 404 and changes nothing; on a known id it stores the
    update (the row found, with the keys of the body written into it and
    [updatedAt] stamped: the status and the responses are those of the body
    where it names them; every order of another id is left as it was) and
    appends exactly one history row, carrying the new stored status, when
    that status differs from the one found, and none otherwise.  In the
    trigger path the UPDATE statement is refused as a whole and changes
    nothing, or stores the rows together with one history row for each row
    whose status changed. *)
Theorem C1_status_update_effects (env : Env) (req : AuthRequest.t)
    (d : Db.t) (auth_uid : option string) (w : World) :
  decimals_fit (AuthRequest.body req) = true →
  match head (filter (λ o, Order.id o = AuthRequest.params_id req)
                (Db.orders d)) with
  | None =>
      patch_api_orders_id env req (quiet d)
      = (Resolved (res_status_json 404 (JsonError "Order not found")), quiet d)
  | Some order =>
      ∃ updated rows,
        patch_api_orders_id env req (quiet d)
        = (Resolved (res_json (JsonOrder updated)),
           quiet
             (Db.mk (Db.sellers d) (Db.products d) rows
                (Db.orderStateHistory d
                 ++ if decide (Order.status updated ≠ Order.status order)
                    then [patch_history_row env req order
                            (Order.status updated)]
                    else [])))
        ∧ head (filter (λ o, Order.id o = AuthRequest.params_id req) rows)
          = Some updated
        ∧ orders_set (AuthRequest.body req) (now env) order = Some updated
        ∧ Order.status updated
          = default (Order.status order) (Body.status (AuthRequest.body req))
        ∧ Order.rejectReason updated
          = set_nullable (Order.rejectReason order)
              (Body.rejectReason (AuthRequest.body req))
        ∧ Order.sellerResponse updated
          = set_nullable (Order.sellerResponse order)
              (Body.sellerResponse (AuthRequest.body req))
        ∧ Order.buyerResponse updated
          = set_nullable (Order.buyerResponse order)
              (Body.buyerResponse (AuthRequest.body req))
        ∧ Order.updatedAt updated = now env
        ∧ Forall2 (λ OLD NEW,
                     if decide (Order.id OLD = AuthRequest.params_id req)
                     then orders_set (AuthRequest.body req) (now env) OLD
                          = Some NEW
                     else NEW = OLD) (Db.orders d) rows
  end
  ∧ ((∃ e,
        update_orders env auth_uid (AuthRequest.params_id req)
          (AuthRequest.body req) w
        = (Rejected e, {| db := db w; rejects := tail (rejects w) |}))
     ∨ (∃ rows,
          Forall2 (λ OLD NEW,
                     if decide (Order.id OLD = AuthRequest.params_id req)
                     then orders_set (AuthRequest.body req) (now env) OLD
                          = Some NEW
                     else NEW = OLD) (Db.orders (db w)) rows
          ∧ update_orders env auth_uid (AuthRequest.params_id req)
              (AuthRequest.body req) w
            = (Resolved (),
               {| db :=
                    Db.mk (Db.sellers (db w)) (Db.products (db w)) rows
                      (Db.orderStateHistory (db w)
                       ++ history_rows env 0
                            (mjoin (zip_with (status_rows auth_uid)
                                      (Db.orders (db w)) rows)));
                  rejects := tail (rejects w) |}))).
Proof.
  intros Hfit. split; [|apply update_orders_cases].
  rewrite patch_api_orders_id_quiet.
  destruct (head (filter _ (Db.orders d))) as [order|] eqn:Hfind; [|done].
  destruct (orders_update_where_id_fits (AuthRequest.params_id req)
              (AuthRequest.body req) (now env) (Db.orders d) Hfit)
    as [rows Hrows].
  rewrite Hrows.
  pose proof (orders_update_where_id_head _ _ _ _ _ Hrows) as Hhead.
  rewrite Hfind in Hhead. destruct Hhead as (updated & Hset & Hupdated).
  pose proof (orders_set_fields _ _ _ _ Hset)
    as (_ & Hstatus & Hreject & Hseller & Hbuyer).
  exists updated, rows. split; [|split; [done|]].
  - rewrite Hupdated. simpl. do 4 f_equal.
    destruct (Body.status (AuthRequest.body req)) as [status|];
      simpl in Hstatus; rewrite Hstatus; [done|].
    by rewrite decide_False by auto.
  - do 5 (split; [done|]). split.
    + unfold orders_set in Hset. by simplify_option_eq.
    + apply mapM_Some_1 in Hrows. eapply Forall2_impl; [done|].
      intros OLD NEW HNEW. simpl in HNEW. case_decide; congruence.
Qed.

Lemma C1_status_update_effects_witness :
  ∃ updated rows,
    patch_api_orders_id sample_env sample_patch (quiet sample_db)
    = (Resolved (res_json (JsonOrder updated)),
       quiet
         (Db.mk (Db.sellers sample_db) (Db.products sample_db) rows
            (Db.orderStateHistory sample_db
             ++ if decide (Order.status updated ≠ Order.status sample_order)
                then [patch_history_row sample_env sample_patch sample_order
                        (Order.status updated)]
                else [])))
    ∧ head (filter (λ o, Order.id o = "o-1") rows) = Some updated
    ∧ orders_set (AuthRequest.body sample_patch) (now sample_env) sample_order
      = Some updated
    ∧ Order.status updated = seller_contacted
    ∧ Order.rejectReason updated = None
    ∧ Order.sellerResponse updated = None
    ∧ Order.buyerResponse updated = None
    ∧ Order.updatedAt updated = 20
    ∧ Forall2 (λ OLD NEW,
                 if decide (Order.id OLD = "o-1")
                 then orders_set (AuthRequest.body sample_patch)
                        (now sample_env) OLD = Some NEW
                 else NEW = OLD) (Db.orders sample_db) rows.
Proof.
  apply (C1_status_update_effects sample_env sample_patch sample_db None
           (quiet sample_db)).
  reflexivity.
Defined.

(** C2. Whatever the status [s] of the order found and whatever status [t]
    the request names, PATCH /api/orders/:id answers 200 with the updated
    order and stores [t] (no statement being refused, the decimals of the
    body in range): nothing compares [t] with [s] before the update. *)
Theorem C2_patch_accepts_any_status (env : Env) (req : AuthRequest.t)
    (d : Db.t) (order : Order.t) (t : OrderStatus) :
  head (filter (λ o, Order.id o = AuthRequest.params_id req) (Db.orders d))
  = Some order →
  Body.status (AuthRequest.body req) = Some t →
  decimals_fit (AuthRequest.body req) = true →
  ∃ updated d',
    patch_api_orders_id env req (quiet d)
    = (Resolved (res_json (JsonOrder updated)), quiet d')
    ∧ head (filter (λ o, Order.id o = AuthRequest.params_id req)
              (Db.orders d'))
      = Some updated
    ∧ Order.status updated = t.
Proof.
  intros Hfind Hstatus Hfit.
  rewrite patch_api_orders_id_quiet, Hfind.
  destruct (orders_update_where_id_fits (AuthRequest.params_id req)
              (AuthRequest.body req) (now env) (Db.orders d) Hfit)
    as [rows Hrows].
  rewrite Hrows.
  pose proof (orders_update_where_id_head _ _ _ _ _ Hrows) as Hhead.
  rewrite Hfind in Hhead. destruct Hhead as (updated & Hset & Hupdated).
  apply orders_set_fields in Hset as (_ & Hst & _).
  rewrite Hupdated. do 2 eexists. split; [done|]. split; [done|].
  by rewrite Hst, Hstatus.
Qed.

Lemma C2_patch_accepts_any_status_witness :
  reachable (Order.status sample_order) created = false
  ∧ ∃ updated d',
      patch_api_orders_id sample_env backward_patch (quiet sample_db)
      = (Resolved (res_json (JsonOrder updated)), quiet d')
      ∧ head (filter (λ o, Order.id o = "o-1") (Db.orders d')) = Some updated
      ∧ Order.status updated = created.
Proof.
  split; [reflexivity|].
  apply (C2_patch_accepts_any_status sample_env backward_patch sample_db
           sample_order created); reflexivity.
Defined.

(** Every row the trigger appends for an UPDATE carries the session's user
    and the first populated response of the row as stored. *)
Lemma history_rows_status_rows env k auth_uid rows rows' :
  Forall (λ row,
            OrderStateHistory.changedBy row = auth_uid
            ∧ ∃ NEW, NEW ∈ rows'
                     ∧ OrderStateHistory.orderId row = Order.id NEW
                     ∧ OrderStateHistory.status row = Order.status NEW
                     ∧ OrderStateHistory.note row = first_populated NEW)
    (history_rows env k (mjoin (zip_with (status_rows auth_uid) rows rows'))).
Proof.
  apply Forall_forall. intros row.
  unfold history_rows. intros (i & data & -> & Hdata)%elem_of_lookup_imap.
  assert (data ∈ mjoin (zip_with (status_rows auth_uid) rows rows'))
    as (l & Hl & (OLD & NEW & -> & _ & HNEW)%elem_of_zip_with)%list_elem_of_join
    by (apply list_elem_of_lookup; eauto).
  unfold status_rows in Hl. case_decide; [|by apply elem_of_nil in Hl].
  apply list_elem_of_singleton in Hl as ->. simpl. eauto 10.
Qed.

(** The UPDATE that rejects the sample order with a reason: the trigger
    notes the reason, for the session's user. *)
Example update_orders_reject_reason :
  ∃ updated row,
    update_orders sample_env (Some "admin-1") "o-1"
      (AuthRequest.body reject_patch) (quiet sample_db)
    = (Resolved (),
       quiet (Db.mk (Db.sellers sample_db) (Db.products sample_db) [updated]
                [sample_history; row]))
    ∧ Order.status updated = rejected
    ∧ OrderStateHistory.status row = rejected
    ∧ OrderStateHistory.changedBy row = Some "admin-1"
    ∧ OrderStateHistory.note row = Some "out of stock".
Proof. do 2 eexists. split; [vm_compute; reflexivity|]. by vm_compute. Qed.

(** C3 as stated fails on the REST handler: a PATCH that rejects the order
    with [rejectReason] "out of stock" and no [note] appends a history row
    without note, though the first populated response of the updated order
    is the reason. *)
Lemma C3_patch_note_is_not_the_reason :
  ∃ updated row,
    patch_api_orders_id sample_env reject_patch (quiet sample_db)
    = (Resolved (res_json (JsonOrder updated)),
       quiet (Db.mk (Db.sellers sample_db) (Db.products sample_db) [updated]
                [sample_history; row]))
    ∧ Order.status updated = rejected
    ∧ first_populated updated = Some "out of stock"
    ∧ OrderStateHistory.status row = rejected
    ∧ OrderStateHistory.note row = None.
Proof. do 2 eexists. split; [vm_compute; reflexivity|]. by vm_compute. Qed.

(** C3 (amended). The history row PATCH /api/orders/:id appends for a status
    change carries the acting user and, as its note, the [note] key of the
    request body (null when absent), whatever the responses of the order.
    The rows the trigger appends for an UPDATE carry the session's user and
    the first populated value among [reject_reason], [seller_response] and
    [buyer_response] of the updated order, null if there is none. *)
Theorem C3_history_row_attribution (env : Env) (req : AuthRequest.t)
    (d : Db.t) (order : Order.t) (status : OrderStatus)
    (auth_uid : option string) (w : World) :
  head (filter (λ o, Order.id o = AuthRequest.params_id req) (Db.orders d))
  = Some order →
  Body.status (AuthRequest.body req) = Some status →
  status ≠ Order.status order →
  decimals_fit (AuthRequest.body req) = true →
  (∃ updated rows row,
     patch_api_orders_id env req (quiet d)
     = (Resolved (res_json (JsonOrder updated)),
        quiet (Db.mk (Db.sellers d) (Db.products d) rows
                 (Db.orderStateHistory d ++ [row])))
     ∧ Order.status updated = status
     ∧ OrderStateHistory.orderId row = Order.id order
     ∧ OrderStateHistory.status row = status
     ∧ OrderStateHistory.changedBy row = Some (AuthRequest.userId req)
     ∧ OrderStateHistory.note row = Body.note (AuthRequest.body req))
  ∧ (∀ w',
       update_orders env auth_uid (AuthRequest.params_id req)
         (AuthRequest.body req) w = (Resolved (), w') →
       ∃ appended,
         Db.orderStateHistory (db w')
         = Db.orderStateHistory (db w) ++ appended
         ∧ Forall (λ row,
                     OrderStateHistory.changedBy row = auth_uid
                     ∧ ∃ NEW, NEW ∈ Db.orders (db w')
                              ∧ OrderStateHistory.orderId row = Order.id NEW
                              ∧ OrderStateHistory.status row = Order.status NEW
                              ∧ OrderStateHistory.note row
                                = first_populated NEW) appended).
Proof.
  intros Hfind Hstatus Hne Hfit. split.
  - rewrite patch_api_orders_id_quiet, Hfind, Hstatus.
    destruct (orders_update_where_id_fits (AuthRequest.params_id req)
                (AuthRequest.body req) (now env) (Db.orders d) Hfit)
      as [rows Hrows].
    rewrite Hrows.
    pose proof (orders_update_where_id_head _ _ _ _ _ Hrows) as Hhead.
    rewrite Hfind in Hhead. destruct Hhead as (updated & Hset & Hupdated).
    apply orders_set_fields in Hset as (_ & Hst & _).
    rewrite Hupdated, decide_True by done.
    do 3 eexists. split; [done|]. by rewrite Hst, Hstatus.
  - intros w' Hrun.
    destruct (update_orders_cases env auth_uid (AuthRequest.params_id req)
                (AuthRequest.body req) w) as [[e He]|(rows & _ & Hok)];
      [congruence|].
    rewrite Hok in Hrun. injection Hrun as <-. simpl.
    eexists. split; [done|]. apply history_rows_status_rows.
Qed.

Lemma C3_history_row_attribution_witness :
  ∃ updated rows row,
    patch_api_orders_id sample_env reject_patch (quiet sample_db)
    = (Resolved (res_json (JsonOrder updated)),
       quiet (Db.mk (Db.sellers sample_db) (Db.products sample_db) rows
                (Db.orderStateHistory sample_db ++ [row])))
    ∧ Order.status updated = rejected
    ∧ OrderStateHistory.orderId row = Order.id sample_order
    ∧ OrderStateHistory.status row = rejected
    ∧ OrderStateHistory.changedBy row = Some "admin-1"
    ∧ OrderStateHistory.note row = None.
Proof.
  apply (C3_history_row_attribution sample_env reject_patch sample_db
           sample_order rejected None (quiet sample_db));
    [reflexivity|reflexivity|discriminate|reflexivity].
Defined.





(** ** Creating an order through the server *)

Lemma fits_numeric_10_2 (q : Q) :
  fits (Some q) = true → numeric_10_2 q = Some (round_2 q).
Proof.
  simpl. intros [c Hc]%bool_decide_eq_true.
  by rewrite Hc, (numeric_10_2_Some _ _ Hc).
Qed.

(** C5 as stated fails: POST /api/orders stores the amounts and the status
    of the request body.  Here the items sum to 500.00 while the body says
    subtotal 1.00, total 2.00, prepayment 999.00 and status [completed],
    and these are what the order holds. *)
Lemma C5_post_stores_client_values :
  ∃ order w',
    post_api_orders sample_env forged_post (quiet sample_db)
    = (Resolved (res_json (JsonOrder order)), w')
    ∧ order ∈ Db.orders (db w')
    ∧ round_2 (items_subtotal (Order.items order)) = 50000
    ∧ Order.subtotal order = 100
    ∧ Order.total order = 200
    ∧ Order.paymentMethod order = cod
    ∧ Order.prepaymentAmount order = Some 99900
    ∧ Order.status order = completed.
Proof.
  do 2 eexists. split; [vm_compute; reflexivity|].
  split; [right; left|by vm_compute].
Qed.

(** C5 (amended). POST /api/orders computes no amount: for a body that
    holds the required keys, with decimals in range and no statement
    refused, the order it creates stores the subtotal, total and
    prepayment of the body (rounded to two places) and the status of the
    body, [created] when the body names none.  The server sets the customer
    (the authenticated user) and appends the first history row. *)
Theorem C5_post_stores_body (env : Env) (req : AuthRequest.t) (d : Db.t)
    (sellerId : string) (items : list OrderItem.t) (subtotal total : Q)
    (paymentMethod : PaymentMethod) (deliveryAddress : Address.t) :
  Body.sellerId (AuthRequest.body req) = Some sellerId →
  Body.items (AuthRequest.body req) = Some items →
  Body.subtotal (AuthRequest.body req) = Some subtotal →
  Body.total (AuthRequest.body req) = Some total →
  Body.paymentMethod (AuthRequest.body req) = Some paymentMethod →
  Body.deliveryAddress (AuthRequest.body req) = Some deliveryAddress →
  decimals_fit (AuthRequest.body req) = true →
  ∃ order row,
    post_api_orders env req (quiet d)
    = (Resolved (res_json (JsonOrder order)),
       quiet (Db.mk (Db.sellers d) (Db.products d) (Db.orders d ++ [order])
                (Db.orderStateHistory d ++ [row])))
    ∧ Order.customerId order = AuthRequest.userId req
    ∧ Order.items order = items
    ∧ Order.subtotal order = round_2 subtotal
    ∧ Order.total order = round_2 total
    ∧ Order.paymentMethod order = paymentMethod
    ∧ Order.prepaymentAmount order
      = round_2 <$> Body.prepaymentAmount (AuthRequest.body req)
    ∧ Order.status order = default created (Body.status (AuthRequest.body req))
    ∧ OrderStateHistory.orderId row = Order.id order
    ∧ OrderStateHistory.status row = Order.status order
    ∧ OrderStateHistory.changedBy row = Some (AuthRequest.userId req).
Proof.
  intros Hseller Hitems Hsubtotal Htotal Hmethod Haddress Hfit.
  unfold decimals_fit in Hfit. rewrite !andb_true_iff in Hfit.
  destruct Hfit as [[[Hf1 Hf2] Hf3] Hf4].
  rewrite Hsubtotal in Hf1. rewrite Htotal in Hf3.
  apply fits_numeric_10_2 in Hf1, Hf3.
  unfold post_api_orders, catch_500, try_catch, bind, of_outcome,
    insertOrderSchema_parse, createOrder, createOrderStateHistory, quiet.
  simpl. rewrite Hseller, Hitems, Hsubtotal, Htotal, Hmethod, Haddress.
  rewrite query_quiet. unfold orders_values. simpl. rewrite Hf1, Hf3. simpl.
  destruct (Body.deliveryCharges (AuthRequest.body req)) as [q|]; simpl.
  - apply fits_numeric_10_2 in Hf2. rewrite Hf2. simpl.
    destruct (Body.prepaymentAmount (AuthRequest.body req)) as [p|]; simpl.
    + apply fits_numeric_10_2 in Hf4. rewrite Hf4. simpl.
      do 2 eexists. split; [reflexivity|]. by simpl.
    + do 2 eexists. split; [reflexivity|]. by simpl.
  - destruct (Body.prepaymentAmount (AuthRequest.body req)) as [p|]; simpl.
    + apply fits_numeric_10_2 in Hf4. rewrite Hf4. simpl.
      do 2 eexists. split; [reflexivity|]. by simpl.
    + do 2 eexists. split; [reflexivity|]. by simpl.
Qed.

Lemma C5_post_stores_body_witness :
  ∃ order row,
    post_api_orders sample_env forged_post (quiet sample_db)
    = (Resolved (res_json (JsonOrder order)),
       quiet (Db.mk (Db.sellers sample_db) (Db.products sample_db)
                (Db.orders sample_db ++ [order])
                (Db.orderStateHistory sample_db ++ [row])))
    ∧ Order.customerId order = "cust-1"
    ∧ Order.items order = sample_items
    ∧ Order.subtotal order = round_2 1
    ∧ Order.total order = round_2 2
    ∧ Order.paymentMethod order = cod
    ∧ Order.prepaymentAmount order = round_2 <$> Some 999%Q
    ∧ Order.status order = completed
    ∧ OrderStateHistory.orderId row = Order.id order
    ∧ OrderStateHistory.status row = Order.status order
    ∧ OrderStateHistory.changedBy row = Some "cust-1".
Proof.
  apply (C5_post_stores_body sample_env forged_post sample_db "sel-1"
           sample_items 1 2 cod sample_address); reflexivity.
Defined.

(** ** Reading orders and their history *)

#[global] Instance desc_orders_createdAt_total : Total desc_orders_createdAt.
Proof. intros a b. unfold desc_orders_createdAt. lia. Qed.

#[global] Instance desc_orders_createdAt_trans :
  Transitive desc_orders_createdAt.
Proof. intros a b c. unfold desc_orders_createdAt. lia. Qed.

#[global] Instance desc_orderStateHistory_createdAt_total :
  Total desc_orderStateHistory_createdAt.
Proof. intros a b. unfold desc_orderStateHistory_createdAt. lia. Qed.

#[global] Instance desc_orderStateHistory_createdAt_trans :
  Transitive desc_orderStateHistory_createdAt.
Proof. intros a b c. unfold desc_orderStateHistory_createdAt. lia. Qed.

Lemma Forall_merge_sort_filter {A} (R : relation A)
    `{∀ x y, Decision (R x y)} (P : A → Prop) `{∀ x, Decision (P x)}
    (l : list A) :
  Forall P (merge_sort R (filter P l)).
Proof.
  rewrite merge_sort_Permutation. apply Forall_forall.
  by intros x [? _]%list_elem_of_filter.
Qed.

(** Verification, then forwarding to the seller, then the seller's
    acceptance: three rows, the latest first. *)
Example history_scenario :
  ∃ w rows,
    (patch_api_orders_id later_env accept_patch
       (patch_api_orders_id sample_env sample_patch (quiet sample_db)).2).2
    = w
    ∧ getOrderStateHistory "o-1" w = (Resolved rows, w)
    ∧ OrderStateHistory.status <$> rows
      = [seller_accepted; seller_contacted; pending_verification].
Proof. do 2 eexists. split; [reflexivity|]. by vm_compute. Qed.

(** C8. The history query answers with the rows recorded for the order id,
    all of them and no other (its answer is a permutation of these rows, so
    N rows when N are recorded), ordered by creation time, latest first;
    the route returns that list. *)
Theorem C8_history_query (d : Db.t) (req : AuthRequest.t) :
  ∃ rows,
    getOrderStateHistory (AuthRequest.params_id req) (quiet d)
    = (Resolved rows, quiet d)
    ∧ get_api_orders_id_history req (quiet d)
      = (Resolved (res_json (JsonHistory rows)), quiet d)
    ∧ rows ≡ₚ filter (λ h, OrderStateHistory.orderId h
                           = AuthRequest.params_id req)
                (Db.orderStateHistory d)
    ∧ length rows
      = length (filter (λ h, OrderStateHistory.orderId h
                             = AuthRequest.params_id req)
                  (Db.orderStateHistory d))
    ∧ StronglySorted desc_orderStateHistory_createdAt rows.
Proof.
  eexists. split; [reflexivity|]. split; [reflexivity|].
  split; [apply merge_sort_Permutation|].
  split; [by rewrite merge_sort_Permutation|].
  apply StronglySorted_merge_sort; apply _.
Qed.

(** C9. The order list a requester receives holds, for a customer, only
    orders whose customer is the requester; for a seller, only orders of
    the seller record found for the requester; for an admin who names no
    status, only orders in [pending_verification], [seller_contacted],
    [seller_accepted] or [buyer_contacted]. *)
Theorem C9_order_list_visibility (req : AuthRequest.t) (w : World)
    (orders : list Order.t) :
  (get_api_orders req w).1 = Resolved (res_json (JsonOrders orders)) →
  (AuthRequest.userRole req = "customer" →
   Forall (λ o, Order.customerId o = AuthRequest.userId req) orders)
  ∧ (AuthRequest.userRole req = "seller" →
     ∃ seller,
       head (filter (λ s, Seller.userId s = AuthRequest.userId req)
               (Db.sellers (db w))) = Some seller
       ∧ Forall (λ o, Order.sellerId o = Seller.id seller) orders)
  ∧ (AuthRequest.userRole req = "admin" →
     AuthRequest.query_status req = None →
     Forall (λ o, Order.status o ∈ in_review) orders).
Proof.
  intros Hres. unfold get_api_orders, catch_500, try_catch, bind in Hres.
  split; [|split].
  - intros Hrole. rewrite decide_True in Hres by done.
    unfold getOrdersByCustomer in Hres. query_inv; [done|].
    simplify_eq/=. apply Forall_merge_sort_filter.
  - intros Hrole. rewrite decide_False in Hres by (rewrite Hrole; done).
    rewrite decide_True in Hres by done.
    unfold getSellerByUserId in Hres. query_inv; [done|]. simplify_eq/=.
    destruct (head (filter _ (Db.sellers (db w)))) as [seller|]; [|done].
    exists seller. split; [done|].
    unfold getOrdersBySeller in Hres. query_inv; [done|].
    simplify_eq/=. apply Forall_merge_sort_filter.
  - intros Hrole Hquery.
    rewrite decide_False in Hres by (rewrite Hrole; done).
    rewrite decide_False in Hres by (rewrite Hrole; done).
    rewrite decide_True, Hquery in Hres by done.
    unfold getOrdersByStatus in Hres. query_inv; [done|]. simplify_eq/=.
    apply (Forall_merge_sort_filter _ (λ o, Order.status o ∈ in_review)).
Qed.

Lemma C9_order_list_visibility_witness :
  Forall (λ o, Order.customerId o = "cust-1") [sample_order].
Proof.
  apply (C9_order_list_visibility sample_list_request (quiet sample_db)
           [sample_order]); reflexivity.
Defined.

(** The seller of the sample order and an admin both receive it; another
    customer receives an empty list. *)
Example order_list_examples :
  (get_api_orders (AuthRequest.mk "user-7" "seller" "" None Body.empty)
     (quiet sample_db)).1
  = Resolved (res_json (JsonOrders [sample_order]))
  ∧ (get_api_orders (AuthRequest.mk "admin-1" "admin" "" None Body.empty)
       (quiet sample_db)).1
    = Resolved (res_json (JsonOrders [sample_order]))
  ∧ (get_api_orders (AuthRequest.mk "cust-9" "customer" "" None Body.empty)
       (quiet sample_db)).1
    = Resolved (res_json (JsonOrders [])).
Proof. by vm_compute. Qed.

Lemma authMiddleware_authenticated verifyToken next req :
  authenticated verifyToken req →
  ∃ userId role,
    authMiddleware verifyToken next req
    = next {| AuthRequest.userId := userId;
              AuthRequest.userRole := role;
              AuthRequest.params_id := Request.params_id req;
              AuthRequest.query_status := Request.query_status req;
              AuthRequest.body := Request.body req |}.
Proof.
  intros (token & userId & role & Htoken & Hne & Hverify).
  exists userId, role. unfold authMiddleware. rewrite Htoken.
  destruct token; [done|]. by rewrite Hverify.
Qed.

(** C10. GET /api/orders/:id and GET /api/orders/:id/history answer two
    authenticated requesters of the same order id alike, whoever they are
    and whatever the database refuses; and with no statement refused any
    authenticated requester is given the order stored under the id. *)
Theorem C10_single_order_reads_ignore_requester
    (verifyToken : string → option (string * string))
    (r1 r2 : Request.t) (w : World) (order : Order.t) :
  authenticated verifyToken r1 →
  authenticated verifyToken r2 →
  Request.params_id r1 = Request.params_id r2 →
  head (filter (λ o, Order.id o = Request.params_id r1) (Db.orders (db w)))
  = Some order →
  authMiddleware verifyToken get_api_orders_id r1 w
  = authMiddleware verifyToken get_api_orders_id r2 w
  ∧ authMiddleware verifyToken get_api_orders_id_history r1 w
    = authMiddleware verifyToken get_api_orders_id_history r2 w
  ∧ authMiddleware verifyToken get_api_orders_id r1 (quiet (db w))
    = (Resolved (res_json (JsonOrder order)), quiet (db w)).
Proof.
  intros H1 H2 Hid Hfind.
  destruct (authMiddleware_authenticated verifyToken get_api_orders_id r1 H1)
    as (u1 & role1 & ->).
  destruct (authMiddleware_authenticated verifyToken get_api_orders_id r2 H2)
    as (u2 & role2 & ->).
  destruct (authMiddleware_authenticated verifyToken
              get_api_orders_id_history r1 H1) as (u1' & role1' & ->).
  destruct (authMiddleware_authenticated verifyToken
              get_api_orders_id_history r2 H2) as (u2' & role2' & ->).
  unfold get_api_orders_id, get_api_orders_id_history. simpl.
  rewrite <- Hid. split; [done|]. split; [done|].
  unfold catch_500, try_catch, bind, getOrder, quiet.
  rewrite query_quiet. by rewrite Hfind.
Qed.

Lemma C10_single_order_reads_ignore_requester_witness :
  authMiddleware sample_verifyToken get_api_orders_id stranger_request
    (quiet sample_db)
  = authMiddleware sample_verifyToken get_api_orders_id owner_request
      (quiet sample_db)
  ∧ authMiddleware sample_verifyToken get_api_orders_id_history
      stranger_request (quiet sample_db)
    = authMiddleware sample_verifyToken get_api_orders_id_history
        owner_request (quiet sample_db)
  ∧ authMiddleware sample_verifyToken get_api_orders_id stranger_request
      (quiet sample_db)
    = (Resolved (res_json (JsonOrder sample_order)), quiet sample_db).
Proof.
  apply (C10_single_order_reads_ignore_requester sample_verifyToken
           stranger_request owner_request (quiet sample_db) sample_order).
  - exists "token-cust-9", "cust-9", "customer". by repeat split.
  - exists "token-cust-1", "cust-1", "customer". by repeat split.
  - reflexivity.
  - reflexivity.
Defined.

(** * Further properties of the order routes *)

(** ** Reads *)

Lemma reads_only_ret {A} (a : A) : reads_only (ret a).
Proof. done. Qed.

Lemma reads_only_bind {A B} (m : Async A) (k : A → Async B) :
  reads_only m → (∀ a, reads_only (k a)) → reads_only (bind m k).
Proof.
  intros Hm Hk w. unfold bind. specialize (Hm w).
  destruct (m w) as [[a|e] w']; simpl in *; [|done]. by rewrite Hk.
Qed.

Lemma reads_only_try_catch {A} (m : Async A) (handler : string → A) :
  reads_only m → reads_only (try_catch m handler).
Proof.
  intros Hm w. unfold try_catch. specialize (Hm w).
  by destruct (m w) as [[a|e] w'].
Qed.

Lemma reads_only_query {A} (stmt : Db.t → Outcome (A * Db.t)) :
  (∀ d a d', stmt d = Resolved (a, d') → d' = d) → reads_only (query stmt).
Proof.
  intros Hstmt w. unfold query.
  destruct (head (rejects w)) as [[]|]; simpl; try done;
    destruct (stmt (db w)) as [[a d']|e] eqn:E; simpl; try done;
    by apply Hstmt in E.
Qed.

Lemma reads_only_getOrdersByStatus statuses :
  reads_only (getOrdersByStatus statuses).
Proof.
  apply reads_only_query. intros d a d' H.
  destruct (mapM orderStatus_of_label statuses); by simplify_eq.
Qed.

(** X1. The three GET routes over orders never write: whatever the
    requester, the stored rows and the statements the database refuses,
    the tables after the request are the tables before it. *)
Theorem get_routes_leave_tables (req : AuthRequest.t) :
  reads_only (get_api_orders req)
  ∧ reads_only (get_api_orders_id req)
  ∧ reads_only (get_api_orders_id_history req).
Proof.
  split; [|split].
  - unfold get_api_orders, catch_500. apply reads_only_try_catch.
    repeat case_decide.
    + apply reads_only_bind; [|intros; apply reads_only_ret].
      apply reads_only_query. intros; by simplify_eq.
    + apply reads_only_bind; [apply reads_only_query; intros; by simplify_eq|].
      intros [seller|]; [|apply reads_only_ret].
      apply reads_only_bind; [|intros; apply reads_only_ret].
      apply reads_only_query. intros; by simplify_eq.
    + destruct (AuthRequest.query_status req) as [[|c status]|];
        (apply reads_only_bind; [|intros; apply reads_only_ret]);
        apply reads_only_getOrdersByStatus.
    + apply reads_only_ret.
  - unfold get_api_orders_id, catch_500.
    apply reads_only_try_catch, reads_only_bind.
    + apply reads_only_query. intros; by simplify_eq.
    + intros [order|]; apply reads_only_ret.
  - unfold get_api_orders_id_history, catch_500.
    apply reads_only_try_catch, reads_only_bind.
    + apply reads_only_query. intros; by simplify_eq.
    + intros; apply reads_only_ret.
Qed.

(** ** What an update leaves alone *)

Lemma orders_set_stamps data now0 o o' :
  orders_set data now0 o = Some o' →
  Order.id o' = Order.id o
  ∧ Order.createdAt o' = Order.createdAt o
  ∧ Order.updatedAt o' = now0.
Proof. unfold orders_set. intros H. by simplify_option_eq. Qed.

Lemma orders_update_where_id_frame id data now0 rows rows' :
  orders_update_where_id id data now0 rows = Some rows' →
  Forall2 (λ o o',
             Order.id o' = Order.id o
             ∧ Order.createdAt o' = Order.createdAt o
             ∧ (Order.id o ≠ id → o' = o)
             ∧ (Order.id o = id → Order.updatedAt o' = now0)) rows rows'.
Proof.
  intros H%mapM_Some_1. eapply Forall2_impl; [done|].
  intros o o' Ho. simpl in Ho. case_decide as Hid.
  - apply orders_set_stamps in Ho as (Hid' & Hcreated & Hupdated).
    naive_solver.
  - injection Ho as <-. naive_solver.
Qed.

(** Under any schedule the handler leaves the orders as they were or as
    the update statement made them, and touches no other table but the
    history. *)
Lemma patch_api_orders_id_orders env req (w : World) :
  let w' := (patch_api_orders_id env req w).2 in
  Db.sellers (db w') = Db.sellers (db w)
  ∧ Db.products (db w') = Db.products (db w)
  ∧ (Db.orders (db w') = Db.orders (db w)
     ∨ orders_update_where_id (AuthRequest.params_id req)
         (AuthRequest.body req) (now env) (Db.orders (db w))
       = Some (Db.orders (db w'))).
Proof.
  destruct w as [d schedule]. simpl.
  unfold patch_api_orders_id, catch_500, try_catch, bind, getOrder,
    updateOrder, createOrderStateHistory, query, ret. simpl.
  destruct schedule as [|b1 [|b2 [|b3 schedule]]];
    try destruct b1; try destruct b2; try destruct b3; simpl;
    try (by auto);
    (destruct (head (filter _ (Db.orders d))) as [order|]; simpl;
       [|by auto]);
    try (by auto);
    (destruct (orders_update_where_id _ _ _ _) as [rows|] eqn:Hupd; simpl;
       [|by auto]);
    (destruct (Body.status _) as [status|]; simpl; [|by auto]);
    (case_decide; simpl; by auto).
Qed.

(** X2. PATCH /api/orders/:id, whatever the body, the requester and the
    statements refused: removes and adds no order, leaves every order whose
    id is not the one of the request exactly as stored, touches neither
    sellers nor products, and adds at most one row at the end of the
    history without altering the rows recorded before. *)
Theorem patch_keeps_other_rows (env : Env) (req : AuthRequest.t) (w : World) :
  Forall2 (λ o o', Order.id o ≠ AuthRequest.params_id req → o' = o)
    (Db.orders (db w)) (Db.orders (db (patch_api_orders_id env req w).2))
  ∧ Db.sellers (db (patch_api_orders_id env req w).2) = Db.sellers (db w)
  ∧ Db.products (db (patch_api_orders_id env req w).2) = Db.products (db w)
  ∧ ∃ appended,
      Db.orderStateHistory (db (patch_api_orders_id env req w).2)
      = Db.orderStateHistory (db w) ++ appended
      ∧ (length appended ≤ 1)%nat.
Proof.
  pose proof (patch_api_orders_id_orders env req w) as H.
  cbv zeta in H. destruct H as (Hs & Hp & Ho).
  split; [|split; [done|split; [done|]]].
  - destruct Ho as [->|Ho].
    + apply Forall_Forall2_diag, Forall_forall. done.
    + apply orders_update_where_id_frame in Ho.
      eapply Forall2_impl; [done|]. intros o o' (_ & _ & ? & _). auto.
  - pose proof (patch_api_orders_id_history env req w) as H.
    cbv zeta in H.
    destruct H as [H|(order & status & rows & _ & _ & _ & _ & _ & H)];
      rewrite H.
    + exists []. split; [by rewrite app_nil_r|simpl; lia].
    + eexists. split; [done|]. simpl. lia.
Qed.

(** ** Creating an order: what can be left behind *)

Lemma orders_values_customerId id now0 data order :
  orders_values id now0 data = Some order →
  Order.id order = id
  ∧ Order.customerId order = InsertOrder.customerId data
  ∧ Order.status order = default created (InsertOrder.status data).
Proof. unfold orders_values. intros H. by simplify_option_eq. Qed.

(** X3. POST /api/orders always answers, and leaves the tables in one of
    three states: unchanged (answer 500); one order added for the
    authenticated user but no history row (answer 500: the history insert
    was refused after the order was stored); or one order added together
    with exactly one history row for it, carrying its status and the user
    (answer 200 with the order).  In no case is another row altered. *)
Theorem post_api_orders_outcomes (env : Env) (req : AuthRequest.t)
    (w : World) :
  (∃ e,
     (post_api_orders env req w).1
     = Resolved (res_status_json 500 (JsonError e))
     ∧ db (post_api_orders env req w).2 = db w)
  ∨ (∃ e order,
       (post_api_orders env req w).1
       = Resolved (res_status_json 500 (JsonError e))
       ∧ db (post_api_orders env req w).2
         = Db.with_orders (db w) (Db.orders (db w) ++ [order])
       ∧ Order.customerId order = AuthRequest.userId req)
  ∨ (∃ order row,
       (post_api_orders env req w).1 = Resolved (res_json (JsonOrder order))
       ∧ db (post_api_orders env req w).2
         = Db.mk (Db.sellers (db w)) (Db.products (db w))
             (Db.orders (db w) ++ [order])
             (Db.orderStateHistory (db w) ++ [row])
       ∧ Order.customerId order = AuthRequest.userId req
       ∧ OrderStateHistory.orderId row = Order.id order
       ∧ OrderStateHistory.status row = Order.status order
       ∧ OrderStateHistory.changedBy row = Some (AuthRequest.userId req)
       ∧ OrderStateHistory.note row = None).
Proof.
  destruct w as [d schedule].
  unfold post_api_orders, catch_500, try_catch, bind, of_outcome.
  destruct (insertOrderSchema_parse _) as [data|e] eqn:Hparse;
    [|left; by eexists].
  assert (InsertOrder.customerId data = AuthRequest.userId req) as Hcust.
  { unfold insertOrderSchema_parse in Hparse. simpl in Hparse.
    repeat case_match; by simplify_eq. }
  unfold createOrder, createOrderStateHistory, query, ret. simpl.
  destruct schedule as [|b1 [|b2 schedule]];
    try destruct b1; try destruct b2; simpl;
    try (left; by eexists);
    (destruct (orders_values _ _ data) as [order|] eqn:Hval; simpl;
       [|left; by eexists]);
    apply orders_values_customerId in Hval as (_ & Hc & _);
    rewrite Hcust in Hc;
    try (right; left; by do 2 eexists);
    right; right; by do 2 eexists.
Qed.

(** The middle state is reached: the sample POST on a connection that
    drops at the second statement. *)
Example post_api_orders_without_history :
  ∃ e order,
    post_api_orders sample_env cod_post_without_prepayment
      {| db := sample_db; rejects := [false; true] |}
    = (Resolved (res_status_json 500 (JsonError e)),
       quiet (Db.with_orders sample_db [sample_order; order]))
    ∧ Db.orderStateHistory sample_db = [sample_history].
Proof. do 2 eexists. split; [vm_compute; reflexivity|done]. Qed.

(** X4. A POST /api/orders body that lacks one of the required keys
    ([sellerId], [items], [subtotal], [total], [paymentMethod],
    [deliveryAddress]) is answered with status 500, and no statement reaches
    the database: tables and connection are as before.  A [customerId] in
    the body is not required, the route supplies it. *)
Theorem post_api_orders_missing_key (env : Env) (req : AuthRequest.t)
    (w : World) :
  required_keys_present (AuthRequest.body req) = false →
  ∃ e,
    post_api_orders env req w
    = (Resolved (res_status_json 500 (JsonError e)), w).
Proof.
  intros Hmissing.
  unfold post_api_orders, catch_500, try_catch, bind, of_outcome,
    insertOrderSchema_parse.
  simpl.
  unfold required_keys_present in Hmissing.
  destruct (Body.sellerId _), (Body.items _), (Body.subtotal _),
    (Body.total _), (Body.paymentMethod _), (Body.deliveryAddress _);
    simpl in Hmissing; try discriminate Hmissing; by eexists.
Qed.

Lemma post_api_orders_missing_key_witness :
  ∃ e,
    post_api_orders sample_env sample_list_request drops_third_statement
    = (Resolved (res_status_json 500 (JsonError e)), drops_third_statement).
Proof.
  apply (post_api_orders_missing_key sample_env sample_list_request
           drops_third_statement).
  reflexivity.
Defined.

Lemma post_api_orders_quiet_ok env req d order w' :
  post_api_orders env req (quiet d)
  = (Resolved (res_json (JsonOrder order)), w') →
  Order.id order = gen_random_uuid env 0
  ∧ w' = quiet
           (Db.mk (Db.sellers d) (Db.products d) (Db.orders d ++ [order])
              (Db.orderStateHistory d
               ++ [orderStateHistory_values (gen_random_uuid env 1) (now env)
                     {| InsertOrderStateHistory.orderId := Order.id order;
                        InsertOrderStateHistory.status := Order.status order;
                        InsertOrderStateHistory.changedBy :=
                          Some (AuthRequest.userId req);
                        InsertOrderStateHistory.note := None |}])).
Proof.
  unfold post_api_orders, catch_500, try_catch, bind, of_outcome, quiet.
  destruct (insertOrderSchema_parse _) as [data|e]; [|done].
  unfold createOrder, createOrderStateHistory. rewrite query_quiet.
  destruct (orders_values _ _ data) as [o|] eqn:Hval; [|done].
  rewrite query_quiet. unfold ret. intros H. simplify_eq.
  by apply orders_values_customerId in Hval as (-> & _).
Qed.

Lemma head_filter_app_fresh {A} (P : A → Prop) `{∀ x, Decision (P x)}
    (l : list A) (x : A) :
  Forall (λ y, ¬ P y) l → P x → filter P (l ++ [x]) = [x].
Proof.
  intros Hl Hx. rewrite filter_app.
  assert (filter P l = []) as ->.
  { induction Hl as [|y l Hy _ IH]; [done|].
    by rewrite filter_cons, decide_False. }
  by rewrite filter_cons, decide_True.
Qed.

(** X5. An order that POST /api/orders has answered with can be read back:
    when the generated id was not in use, GET /api/orders/:id for that id
    returns the same order to any requester, and GET
    /api/orders/:id/history returns exactly one row, with the status of
    the order and the user who created it. *)
Theorem post_then_get (env : Env) (req reader : AuthRequest.t) (d : Db.t)
    (order : Order.t) (w' : World) :
  post_api_orders env req (quiet d)
  = (Resolved (res_json (JsonOrder order)), w') →
  Forall (λ o, Order.id o ≠ gen_random_uuid env 0) (Db.orders d) →
  Forall (λ h, OrderStateHistory.orderId h ≠ gen_random_uuid env 0)
    (Db.orderStateHistory d) →
  AuthRequest.params_id reader = Order.id order →
  get_api_orders_id reader w' = (Resolved (res_json (JsonOrder order)), w')
  ∧ ∃ row,
      get_api_orders_id_history reader w'
      = (Resolved (res_json (JsonHistory [row])), w')
      ∧ OrderStateHistory.status row = Order.status order
      ∧ OrderStateHistory.changedBy row = Some (AuthRequest.userId req).
Proof.
  intros [Hid ->]%post_api_orders_quiet_ok Horders Hhistory Hreader.
  unfold get_api_orders_id, get_api_orders_id_history, catch_500, try_catch,
    bind, getOrder, getOrderStateHistory, quiet.
  rewrite !query_quiet. simpl. rewrite Hreader.
  rewrite (head_filter_app_fresh (λ o, Order.id o = Order.id order));
    [|by rewrite Hid|done].
  split; [done|].
  rewrite (head_filter_app_fresh
             (λ h, OrderStateHistory.orderId h = Order.id order));
    [|by rewrite Hid|done].
  by eexists.
Qed.

Lemma post_then_get_witness :
  ∃ order w',
    post_api_orders sample_env forged_post (quiet sample_db)
    = (Resolved (res_json (JsonOrder order)), w')
    ∧ get_api_orders_id sample_reader w'
      = (Resolved (res_json (JsonOrder order)), w').
Proof.
  do 2 eexists. split; [vm_compute; reflexivity|].
  apply (post_then_get sample_env forged_post sample_reader sample_db).
  - vm_compute. reflexivity.
  - repeat constructor. discriminate.
  - repeat constructor. discriminate.
  - reflexivity.
Defined.

(** ** Who may update *)

(** X6. PATCH /api/orders/:id does not look at who asks: two authenticated
    requests with the same order id and the same body, from any two users
    of any roles, are answered alike and leave the same orders, under every
    schedule of refusals; the history rows they leave differ at most in the
    user they are attributed to. *)
Theorem patch_ignores_requester (env : Env) (req1 req2 : AuthRequest.t)
    (w : World) :
  AuthRequest.params_id req1 = AuthRequest.params_id req2 →
  AuthRequest.body req1 = AuthRequest.body req2 →
  (patch_api_orders_id env req1 w).1 = (patch_api_orders_id env req2 w).1
  ∧ Db.orders (db (patch_api_orders_id env req1 w).2)
    = Db.orders (db (patch_api_orders_id env req2 w).2)
  ∧ without_changedBy
    <$> Db.orderStateHistory (db (patch_api_orders_id env req1 w).2)
    = without_changedBy
      <$> Db.orderStateHistory (db (patch_api_orders_id env req2 w).2).
Proof.
  destruct req1 as [u1 r1 id1 q1 b1], req2 as [u2 r2 id2 q2 b2].
  simpl. intros <- <-. destruct w as [d schedule].
  unfold patch_api_orders_id, catch_500, try_catch, bind, getOrder,
    updateOrder, createOrderStateHistory, query, ret. simpl.
  destruct schedule as [|s1 [|s2 [|s3 schedule]]];
    try destruct s1; try destruct s2; try destruct s3; simpl;
    try done;
    (destruct (head (filter _ (Db.orders d))) as [order|]; simpl; [|done]);
    try done;
    (destruct (orders_update_where_id _ _ _ _) as [rows|]; simpl; [|done]);
    (destruct (Body.status b1) as [status|]; simpl; [|done]);
    (case_decide; simpl; [|done]);
    try done;
    by rewrite !fmap_app.
Qed.

Lemma patch_ignores_requester_witness :
  (patch_api_orders_id sample_env stranger_patch (quiet sample_db)).1
  = (patch_api_orders_id sample_env sample_patch (quiet sample_db)).1
  ∧ Db.orders
      (db (patch_api_orders_id sample_env stranger_patch (quiet sample_db)).2)
    = Db.orders
        (db (patch_api_orders_id sample_env sample_patch (quiet sample_db)).2)
  ∧ without_changedBy
    <$> Db.orderStateHistory
          (db (patch_api_orders_id sample_env stranger_patch
                 (quiet sample_db)).2)
    = without_changedBy
      <$> Db.orderStateHistory
            (db (patch_api_orders_id sample_env sample_patch
                   (quiet sample_db)).2).
Proof.
  apply (patch_ignores_requester sample_env stranger_patch sample_patch
           (quiet sample_db)); reflexivity.
Defined.

(** ** Order lists *)

Lemma orderStatus_of_label_Some label status :
  orderStatus_of_label label = Some status → orderStatus_label status = label.
Proof.
  unfold orderStatus_of_label.
  intros [Hlabel _]%head_Some_elem_of%list_elem_of_filter. done.
Qed.

(** The cast of a label and the label of a status undo each other. *)
Lemma orderStatus_of_label_label status :
  orderStatus_of_label (orderStatus_label status) = Some status.
Proof. by destruct status. Qed.

(** X7. With no statement refused, the order list is complete and ordered:
    a customer receives all the orders placed under their user id, a seller
    all the orders of the seller record found for them, an admin who names
    no status all the orders in review, each list being a permutation of
    these rows with the latest created first. *)
Theorem order_lists_complete_newest_first (req : AuthRequest.t) (d : Db.t) :
  (AuthRequest.userRole req = "customer" →
   ∃ rows,
     get_api_orders req (quiet d)
     = (Resolved (res_json (JsonOrders rows)), quiet d)
     ∧ rows ≡ₚ filter (λ o, Order.customerId o = AuthRequest.userId req)
                 (Db.orders d)
     ∧ StronglySorted desc_orders_createdAt rows)
  ∧ (AuthRequest.userRole req = "seller" →
     ∀ seller,
       head (filter (λ s, Seller.userId s = AuthRequest.userId req)
               (Db.sellers d)) = Some seller →
       ∃ rows,
         get_api_orders req (quiet d)
         = (Resolved (res_json (JsonOrders rows)), quiet d)
         ∧ rows ≡ₚ filter (λ o, Order.sellerId o = Seller.id seller)
                     (Db.orders d)
         ∧ StronglySorted desc_orders_createdAt rows)
  ∧ (AuthRequest.userRole req = "admin" →
     AuthRequest.query_status req = None →
     ∃ rows,
       get_api_orders req (quiet d)
       = (Resolved (res_json (JsonOrders rows)), quiet d)
       ∧ rows ≡ₚ filter (λ o, Order.status o ∈ in_review) (Db.orders d)
       ∧ StronglySorted desc_orders_createdAt rows).
Proof.
  unfold get_api_orders, catch_500, try_catch, bind, getOrdersByCustomer,
    getSellerByUserId, getOrdersBySeller, getOrdersByStatus, quiet.
  split; [|split].
  - intros Hrole. rewrite decide_True by done. rewrite query_quiet.
    eexists. split; [reflexivity|].
    split; [apply merge_sort_Permutation|].
    apply StronglySorted_merge_sort; apply _.
  - intros Hrole seller Hseller.
    rewrite decide_False by (rewrite Hrole; done).
    rewrite decide_True by done. rewrite query_quiet, Hseller, query_quiet.
    eexists. split; [reflexivity|].
    split; [apply merge_sort_Permutation|].
    apply StronglySorted_merge_sort; apply _.
  - intros Hrole Hquery.
    rewrite decide_False by (rewrite Hrole; done).
    rewrite decide_False by (rewrite Hrole; done).
    rewrite decide_True, Hquery by done. rewrite query_quiet.
    eexists. split; [reflexivity|].
    split; [apply merge_sort_Permutation|].
    apply StronglySorted_merge_sort; apply _.
Qed.

Lemma order_lists_complete_newest_first_witness :
  ∃ rows,
    get_api_orders sample_list_request (quiet sample_db)
    = (Resolved (res_json (JsonOrders rows)), quiet sample_db)
    ∧ rows ≡ₚ filter (λ o, Order.customerId o = "cust-1")
                (Db.orders sample_db)
    ∧ StronglySorted desc_orders_createdAt rows.
Proof.
  apply (proj1 (order_lists_complete_newest_first sample_list_request
                  sample_db)).
  reflexivity.
Defined.

Lemma mapM_orderStatus_of_label labels statuses status :
  mapM orderStatus_of_label labels = Some statuses →
  status ∈ statuses → orderStatus_label status ∈ labels.
Proof.
  intros H%mapM_Some_1.
  induction H as [|label st labels statuses Hst _ IH]; [by intros ?%elem_of_nil|].
  intros [->|Hin]%elem_of_cons.
  - apply orderStatus_of_label_Some in Hst as <-. left.
  - right. auto.
Qed.

(** X8. An admin who names statuses (a non-empty [status] query, labels
    separated by commas) receives, when every label is one of the enum,
    exactly the orders whose status carries one of the labels, latest
    first; when a label is not of the enum the request is answered 500.
    Nothing is refused here by the schedule, and nothing is written. *)
Theorem admin_status_filter (req : AuthRequest.t) (d : Db.t)
    (c : ascii) (status : string) :
  AuthRequest.userRole req = "admin" →
  AuthRequest.query_status req = Some (String c status) →
  match mapM orderStatus_of_label (split_comma (String c status)) with
  | Some statuses =>
      ∃ rows,
        get_api_orders req (quiet d)
        = (Resolved (res_json (JsonOrders rows)), quiet d)
        ∧ rows ≡ₚ filter (λ o, Order.status o ∈ statuses) (Db.orders d)
        ∧ StronglySorted desc_orders_createdAt rows
        ∧ Forall (λ o, orderStatus_label (Order.status o)
                       ∈ split_comma (String c status)) rows
  | None =>
      ∃ e,
        get_api_orders req (quiet d)
        = (Resolved (res_status_json 500 (JsonError e)), quiet d)
  end.
Proof.
  intros Hrole Hquery.
  unfold get_api_orders, catch_500, try_catch, bind, getOrdersByStatus, quiet.
  rewrite decide_False by (rewrite Hrole; done).
  rewrite decide_False by (rewrite Hrole; done).
  rewrite decide_True, Hquery by done. rewrite query_quiet.
  destruct (mapM orderStatus_of_label (split_comma (String c status)))
    as [statuses|] eqn:Hlabels; [|by eexists].
  eexists. split; [reflexivity|].
  split; [apply merge_sort_Permutation|].
  split; [apply StronglySorted_merge_sort; apply _|].
  rewrite merge_sort_Permutation. apply Forall_forall.
  intros o [Hin _]%list_elem_of_filter.
  by eapply mapM_orderStatus_of_label.
Qed.

Lemma admin_status_filter_witness :
  ∃ rows,
    get_api_orders
      (AuthRequest.mk "admin-1" "admin" "" (Some "confirmed,pending_verification")
         Body.empty) (quiet sample_db)
    = (Resolved (res_json (JsonOrders rows)), quiet sample_db)
    ∧ rows ≡ₚ filter (λ o, Order.status o ∈ [confirmed; pending_verification])
                (Db.orders sample_db)
    ∧ StronglySorted desc_orders_createdAt rows
    ∧ Forall (λ o, orderStatus_label (Order.status o)
                   ∈ split_comma "confirmed,pending_verification") rows.
Proof.
  apply (admin_status_filter
           (AuthRequest.mk "admin-1" "admin" ""
              (Some "confirmed,pending_verification") Body.empty)
           sample_db "c" "onfirmed,pending_verification"); reflexivity.
Defined.

(** X9. Two requests the list route does not serve: a requester with role
    seller for whom no seller record exists is answered 403, whatever
    orders are stored; and a requester whose role is none of customer,
    seller, admin is answered 200 with no body, no statement having been
    sent to the database. *)
Theorem order_list_unserved_roles (req : AuthRequest.t) (w : World) :
  (AuthRequest.userRole req = "seller" →
   head (filter (λ s, Seller.userId s = AuthRequest.userId req)
           (Db.sellers (db w))) = None →
   head (rejects w) ≠ Some true →
   (get_api_orders req w).1
   = Resolved (res_status_json 403 (JsonError "Not a seller")))
  ∧ (AuthRequest.userRole req ≠ "customer" →
     AuthRequest.userRole req ≠ "seller" →
     AuthRequest.userRole req ≠ "admin" →
     get_api_orders req w = (Resolved (res_json JsonUndefined), w)).
Proof.
  unfold get_api_orders, catch_500, try_catch, bind, getSellerByUserId.
  split.
  - intros Hrole Hseller Hup.
    rewrite decide_False by (rewrite Hrole; done).
    rewrite decide_True by done. unfold query.
    destruct (head (rejects w)) as [[]|]; [done| |]; by rewrite Hseller.
  - intros H1 H2 H3. by rewrite !decide_False.
Qed.

Lemma order_list_unserved_roles_witness :
  (get_api_orders (AuthRequest.mk "cust-1" "seller" "" None Body.empty)
     (quiet sample_db)).1
  = Resolved (res_status_json 403 (JsonError "Not a seller"))
  ∧ get_api_orders (AuthRequest.mk "cust-1" "courier" "" None Body.empty)
      drops_third_statement
    = (Resolved (res_json JsonUndefined), drops_third_statement).
Proof.
  split.
  - apply (order_list_unserved_roles
             (AuthRequest.mk "cust-1" "seller" "" None Body.empty)
             (quiet sample_db)); [reflexivity|reflexivity|discriminate].
  - apply (order_list_unserved_roles
             (AuthRequest.mk "cust-1" "courier" "" None Body.empty)
             drops_third_statement); discriminate.
Defined.

(** X10. An admin who asks for one status by its label receives exactly the
    orders in that status, for each of the thirteen statuses. *)
Theorem admin_filter_by_status (req : AuthRequest.t) (d : Db.t)
    (status : OrderStatus) :
  AuthRequest.userRole req = "admin" →
  AuthRequest.query_status req = Some (orderStatus_label status) →
  ∃ rows,
    get_api_orders req (quiet d)
    = (Resolved (res_json (JsonOrders rows)), quiet d)
    ∧ rows ≡ₚ filter (λ o, Order.status o = status) (Db.orders d).
Proof.
  intros Hrole Hquery.
  unfold get_api_orders, catch_500, try_catch, bind, getOrdersByStatus, quiet.
  rewrite decide_False by (rewrite Hrole; done).
  rewrite decide_False by (rewrite Hrole; done).
  rewrite decide_True, Hquery by done.
  assert (∃ c s, orderStatus_label status = String c s
                 ∧ mapM orderStatus_of_label (split_comma (String c s))
                   = Some [status]) as (c & s & -> & Hlabels)
    by (destruct status; do 2 eexists; split; reflexivity).
  rewrite query_quiet, Hlabels.
  eexists. split; [reflexivity|]. rewrite merge_sort_Permutation.
  rewrite (list_filter_iff _ (λ o, Order.status o = status)); [done|].
  intros o. by rewrite list_elem_of_singleton.
Qed.

Lemma admin_filter_by_status_witness :
  ∃ rows,
    get_api_orders
      (AuthRequest.mk "admin-1" "admin" "" (Some "pending_verification")
         Body.empty) (quiet sample_db)
    = (Resolved (res_json (JsonOrders rows)), quiet sample_db)
    ∧ rows ≡ₚ filter (λ o, Order.status o = pending_verification)
                (Db.orders sample_db).
Proof.
  apply (admin_filter_by_status
           (AuthRequest.mk "admin-1" "admin" "" (Some "pending_verification")
              Body.empty) sample_db pending_verification); reflexivity.
Defined.

(** * Further properties of the trigger path *)

(** X11. An INSERT into orders sent by a client is refused, leaving the
    tables as they are, unless the row's customer is the session's user;
    when it is accepted, the order is stored together with exactly one
    history row, which carries the order's id and status, the session's
    user, and the first populated response of the row as its note. *)
Theorem insert_into_orders_effects (env : Env) (k : nat)
    (auth_uid : option string) (data : InsertOrder.t) (w : World) :
  (auth_uid ≠ Some (InsertOrder.customerId data) →
   ∃ e, insert_into_orders env k auth_uid data w
        = (Rejected e, {| db := db w; rejects := tail (rejects w) |}))
  ∧ ((∃ e, insert_into_orders env k auth_uid data w
           = (Rejected e, {| db := db w; rejects := tail (rejects w) |}))
     ∨ (∃ NEW row,
          insert_into_orders env k auth_uid data w
          = (Resolved NEW,
             {| db := Db.mk (Db.sellers (db w)) (Db.products (db w))
                        (Db.orders (db w) ++ [NEW])
                        (Db.orderStateHistory (db w) ++ [row]);
                rejects := tail (rejects w) |})
          ∧ auth_uid = Some (Order.customerId NEW)
          ∧ OrderStateHistory.orderId row = Order.id NEW
          ∧ OrderStateHistory.status row = Order.status NEW
          ∧ OrderStateHistory.changedBy row = auth_uid
          ∧ OrderStateHistory.note row = first_populated NEW)).
Proof.
  split.
  - intros Hother.
    destruct (insert_into_orders_cases env k auth_uid data w)
      as [?|(NEW & _ & Hself & _)]; done.
  - destruct (insert_into_orders_cases env k auth_uid data w)
      as [?|(NEW & Hval & Hself & ->)]; [by left|right].
    apply orders_values_customerId in Hval as (_ & Hcust & _).
    do 2 eexists. split; [reflexivity|]. rewrite Hcust.
    split; [done|]. simpl. repeat split.
    unfold first_populated. simpl.
    by destruct (Order.rejectReason NEW), (Order.sellerResponse NEW),
      (Order.buyerResponse NEW).
Qed.

Lemma insert_into_orders_effects_witness :
  ∃ e,
    insert_into_orders sample_env 0 (Some "cust-9")
      (orderData "cust-1" "sel-1" sample_cart cod sample_address)
      (quiet sample_db)
    = (Rejected e, quiet sample_db).
Proof.
  apply (insert_into_orders_effects sample_env 0 (Some "cust-9")
           (orderData "cust-1" "sel-1" sample_cart cod sample_address)
           (quiet sample_db)).
  discriminate.
Defined.

(** The UPDATE statement and [updateOrder] store the same rows. *)
Lemma update_orders_rows_orders env auth_uid id data rows :
  fst <$> update_orders_rows env auth_uid id data rows
  = orders_update_where_id id data (now env) rows.
Proof.
  unfold orders_update_where_id.
  induction rows as [|OLD rows IH]; [done|].
  simpl. rewrite <- IH.
  destruct (update_orders_rows env auth_uid id data rows)
    as [[rest' fired]|]; simpl.
  - case_decide; [|done].
    by destruct (orders_set data (now env) OLD).
  - case_decide; [|done].
    by destruct (orders_set data (now env) OLD).
Qed.

Lemma status_rows_none_matching auth_uid data now0 id rows rows' :
  Forall (λ o, Order.id o ≠ id) rows →
  Forall2 (λ OLD NEW,
             if decide (Order.id OLD = id)
             then orders_set data now0 OLD = Some NEW
             else NEW = OLD) rows rows' →
  mjoin (zip_with (status_rows auth_uid) rows rows') = [].
Proof.
  intros Hnone Hrows.
  induction Hrows as [|OLD NEW rows rows' Hrow _ IH]; [done|].
  apply Forall_cons in Hnone as [Hid Hnone]. simpl.
  rewrite (IH Hnone), app_nil_r. rewrite decide_False in Hrow by done.
  subst. unfold status_rows. by rewrite decide_False by auto.
Qed.

(** On a table with unique ids the trigger fires for the one row found, and
    only when the update names another status than the stored one. *)
Lemma status_rows_unique auth_uid data now0 id rows rows' :
  NoDup (Order.id <$> rows) →
  Forall2 (λ OLD NEW,
             if decide (Order.id OLD = id)
             then orders_set data now0 OLD = Some NEW
             else NEW = OLD) rows rows' →
  (λ i, (InsertOrderStateHistory.orderId i, InsertOrderStateHistory.status i))
  <$> mjoin (zip_with (status_rows auth_uid) rows rows')
  = match head (filter (λ o, Order.id o = id) rows), Body.status data with
    | Some order, Some status =>
        if decide (status ≠ Order.status order)
        then [(Order.id order, status)] else []
    | _, _ => []
    end.
Proof.
  intros Hnodup Hrows.
  induction Hrows as [|OLD NEW rows rows' Hrow Hrows IH]; [done|].
  rewrite fmap_cons in Hnodup. apply NoDup_cons in Hnodup as [Hfresh Hnodup].
  simpl. rewrite filter_cons. case_decide as Hid.
  - simpl.
    rewrite (status_rows_none_matching auth_uid data now0 id rows rows'),
      app_nil_r; [|apply Forall_forall; intros o Ho ?|done].
    + apply orders_set_fields in Hrow as (Hid' & Hstatus & _).
      unfold status_rows. rewrite Hstatus, Hid'.
      destruct (Body.status data) as [status|]; simpl.
      * repeat case_decide; simpl; try done; congruence.
      * by rewrite decide_False by auto.
    + apply Hfresh. apply list_elem_of_fmap. exists o. split; congruence.
  - subst NEW. unfold status_rows at 1. rewrite decide_False by auto.
    simpl. by apply IH.
Qed.

Lemma head_filter_None {A} (P : A → Prop) `{∀ x, Decision (P x)}
    (l : list A) :
  head (filter P l) = None → Forall (λ x, ¬ P x) l.
Proof.
  induction l as [|x l IH]; [constructor|].
  rewrite filter_cons. case_decide; [done|]. constructor; auto.
Qed.

(** An update that finds no row stores the table as it is. *)
Lemma orders_update_where_id_none id data now0 rows rows' :
  head (filter (λ o, Order.id o = id) rows) = None →
  orders_update_where_id id data now0 rows = Some rows' → rows' = rows.
Proof.
  intros Hnone%head_filter_None Hupd%orders_update_where_id_frame.
  symmetry. apply list_eq_Forall2.
  induction Hupd as [|o o' rows rows' (_ & _ & Ho & _) _ IH]; [constructor|].
  apply Forall_cons in Hnone as [Hid Hnone].
  constructor; [by rewrite Ho|auto].
Qed.

Lemma transition_history_rows env k fired :
  transition <$> history_rows env k fired
  = (λ i, (InsertOrderStateHistory.orderId i,
           InsertOrderStateHistory.status i)) <$> fired.
Proof.
  unfold history_rows. rewrite fmap_imap.
  rewrite <- (imap_const _ fired). by apply imap_ext.
Qed.

(** X12. The two ways of recording a status agree.  On the same table,
    order id and body (a body made of columns of the insert schema and
    [note]), with no statement refused, the PATCH handler and the UPDATE
    statement with its trigger leave the same orders; and when the order
    ids of the table are unique they append history rows for the same
    transitions: the same order ids with the same statuses. *)
Theorem patch_and_trigger_agree (env : Env) (req : AuthRequest.t)
    (auth_uid : option string) (d : Db.t) :
  NoDup (Order.id <$> Db.orders d) →
  Db.orders (db (patch_api_orders_id env req (quiet d)).2)
  = Db.orders
      (db (update_orders env auth_uid (AuthRequest.params_id req)
             (AuthRequest.body req) (quiet d)).2)
  ∧ transition
    <$> Db.orderStateHistory (db (patch_api_orders_id env req (quiet d)).2)
    = transition
      <$> Db.orderStateHistory
            (db (update_orders env auth_uid (AuthRequest.params_id req)
                   (AuthRequest.body req) (quiet d)).2).
Proof.
  intros Hnodup. rewrite patch_api_orders_id_quiet.
  destruct (update_orders_cases env auth_uid (AuthRequest.params_id req)
              (AuthRequest.body req) (quiet d))
    as [[e He]|(rows & Hrows & Hok)]; rewrite ?He, ?Hok; simpl.
  - (* the statement is refused: an amount of the body is out of range *)
    unfold update_orders, quiet in He. rewrite query_quiet in He.
    pose proof (update_orders_rows_orders env auth_uid
                  (AuthRequest.params_id req) (AuthRequest.body req)
                  (Db.orders d)) as Hsame.
    destruct (update_orders_rows _ _ _ _ _) as [[rows fired]|]; [done|].
    simpl in Hsame. rewrite <- Hsame.
    by destruct (head (filter _ (Db.orders d))).
  - assert (orders_update_where_id (AuthRequest.params_id req)
              (AuthRequest.body req) (now env) (Db.orders d) = Some rows)
      as Hupd.
    { apply mapM_Some_2. eapply Forall2_impl; [done|].
      intros o o'. simpl. destruct (decide _); congruence. }
    rewrite Hupd.
    pose proof (status_rows_unique auth_uid _ _ _ _ _ Hnodup Hrows) as Hfired.
    destruct (head (filter _ (Db.orders d))) as [order|] eqn:Hfind; simpl.
    + split; [done|]. rewrite !fmap_app, transition_history_rows, Hfired.
      f_equal.
      destruct (Body.status (AuthRequest.body req)) as [status|]; [|done].
      by case_decide.
    + pose proof (orders_update_where_id_none _ _ _ _ _ Hfind Hupd) as ->.
      split; [done|].
      rewrite !fmap_app, transition_history_rows, Hfired. simpl.
      by rewrite app_nil_r.
Qed.

Lemma patch_and_trigger_agree_witness :
  Db.orders (db (patch_api_orders_id sample_env reject_patch
                   (quiet sample_db)).2)
  = Db.orders
      (db (update_orders sample_env (Some "admin-1") "o-1"
             (AuthRequest.body reject_patch) (quiet sample_db)).2)
  ∧ transition
    <$> Db.orderStateHistory
          (db (patch_api_orders_id sample_env reject_patch
                 (quiet sample_db)).2)
    = transition
      <$> Db.orderStateHistory
            (db (update_orders sample_env (Some "admin-1") "o-1"
                   (AuthRequest.body reject_patch) (quiet sample_db)).2).
Proof.
  apply (patch_and_trigger_agree sample_env reject_patch (Some "admin-1")
           sample_db).
  apply NoDup_singleton.
Defined.

(** * Further properties of the cart and the checkout *)

(** ** Grouping by seller *)

Lemma sellerGroups_snoc cartItems item :
  sellerGroups (cartItems ++ [item])
  = sellerGroups_push (sellerGroups cartItems) item.
Proof. unfold sellerGroups. by rewrite fold_left_app. Qed.

Lemma sellerGroups_push_new groups item :
  CartItem.seller_id item ∉ (groups.*1) →
  sellerGroups_push groups item = groups ++ [(CartItem.seller_id item, [item])].
Proof.
  induction groups as [|[sellerId items] groups IH]; simpl; [done|].
  intros Hnew. apply not_elem_of_cons in Hnew as [Hne Hnew].
  rewrite decide_False by done. by rewrite IH.
Qed.

Lemma sellerGroups_push_old groups item :
  CartItem.seller_id item ∈ (groups.*1) →
  ∃ before items after,
    groups = before ++ (CartItem.seller_id item, items) :: after
    ∧ (CartItem.seller_id item ∉ before.*1)
    ∧ sellerGroups_push groups item
      = before ++ (CartItem.seller_id item, items ++ [item]) :: after.
Proof.
  induction groups as [|[sellerId items] groups IH]; simpl.
  { by intros ?%elem_of_nil. }
  intros Hin. case_decide as Hid.
  - subst sellerId. exists [], items, groups. split; [done|].
    split; [apply not_elem_of_nil|done].
  - apply elem_of_cons in Hin as [Heq|Hin]; [done|].
    destruct (IH Hin) as (before & items' & after & -> & Hbefore & ->).
    exists ((sellerId, items) :: before), items', after.
    split; [done|]. split; [|done].
    simpl. apply not_elem_of_cons. auto.
Qed.

Lemma sellerGroups_push_join groups item :
  mjoin (sellerGroups_push groups item).*2 ≡ₚ mjoin groups.*2 ++ [item].
Proof.
  induction groups as [|[sellerId items] groups IH]; simpl; [done|].
  case_decide; simpl.
  - rewrite <- !app_assoc. apply Permutation_app_head.
    apply Permutation_app_comm.
  - by rewrite IH, app_assoc.
Qed.

Lemma sellerGroups_push_keys groups item s :
  s ∈ (sellerGroups_push groups item).*1
  ↔ s ∈ groups.*1 ∨ s = CartItem.seller_id item.
Proof.
  induction groups as [|[sellerId items] groups IH]; simpl.
  - rewrite list_elem_of_singleton. split; [auto|].
    by intros [?%elem_of_nil|].
  - case_decide as Hid; simpl; rewrite !elem_of_cons.
    + subst sellerId. tauto.
    + rewrite IH. tauto.
Qed.

Lemma filter_none {A} (P : A → Prop) `{∀ x, Decision (P x)} (l : list A) :
  Forall (λ x, ¬ P x) l → filter P l = [].
Proof.
  induction 1 as [|x l Hx _ IH]; [done|].
  by rewrite filter_cons, decide_False.
Qed.

(** A group of another seller is what it was when an item is added. *)
Lemma filter_snoc_other (cartItems : list CartItem.t) item s :
  s ≠ CartItem.seller_id item →
  filter (λ i, CartItem.seller_id i = s) (cartItems ++ [item])
  = filter (λ i, CartItem.seller_id i = s) cartItems.
Proof.
  intros Hne. rewrite filter_app, filter_cons, decide_False by auto.
  by rewrite filter_nil, app_nil_r.
Qed.

(** X13. Grouping the cart by seller is a partition of the cart: the
    groups' seller ids are distinct, each group is exactly the items of the
    cart sold by its seller, in cart order, and is not empty, every item's
    seller has a group, and the groups together are a rearrangement of the
    cart. *)
Theorem sellerGroups_partition (cartItems : list CartItem.t) :
  NoDup ((sellerGroups cartItems).*1)
  ∧ Forall (λ group,
              group.2
              = filter (λ item, CartItem.seller_id item = group.1) cartItems
              ∧ group.2 ≠ []) (sellerGroups cartItems)
  ∧ (∀ item, item ∈ cartItems →
             CartItem.seller_id item ∈ (sellerGroups cartItems).*1)
  ∧ mjoin ((sellerGroups cartItems).*2) ≡ₚ cartItems.
Proof.
  induction cartItems as [|item cartItems (Hnodup & Hgroups & Hcover & Hjoin)]
    using rev_ind.
  { split; [constructor|]. split; [constructor|].
    split; [by intros ? ?%elem_of_nil|done]. }
  rewrite sellerGroups_snoc.
  assert (∀ g, g ∈ sellerGroups cartItems →
               g.1 ≠ CartItem.seller_id item →
               g.2 = filter (λ i, CartItem.seller_id i = g.1)
                       (cartItems ++ [item]) ∧ g.2 ≠ []) as Hother.
  { intros g Hg Hne. rewrite Forall_forall in Hgroups.
    destruct (Hgroups g Hg) as [Hg2 Hnonempty].
    by rewrite filter_snoc_other. }
  split; [|split; [|split]].
  - destruct (decide (CartItem.seller_id item ∈ (sellerGroups cartItems).*1))
      as [Hin|Hnew].
    + destruct (sellerGroups_push_old _ _ Hin)
        as (before & items & after & Heq & _ & ->).
      rewrite Heq in Hnodup. by rewrite fmap_app in *.
    + rewrite (sellerGroups_push_new _ _ Hnew), fmap_app. simpl.
      apply NoDup_app. split; [done|]. split; [|apply NoDup_singleton].
      intros s Hs ->%list_elem_of_singleton. done.
  - destruct (decide (CartItem.seller_id item ∈ (sellerGroups cartItems).*1))
      as [Hin|Hnew].
    + destruct (sellerGroups_push_old _ _ Hin)
        as (before & items & after & Heq & Hbefore & ->).
      rewrite Heq in Hnodup, Hgroups, Hother. rewrite fmap_app in Hnodup.
      apply NoDup_app in Hnodup as (_ & _ & Hafter).
      simpl in Hafter. apply NoDup_cons in Hafter as [Hafter _].
      apply Forall_app in Hgroups as [_ Ha].
      apply Forall_cons in Ha as [[Hitems _] _]. simpl in Hitems.
      apply Forall_app. split; [|apply Forall_cons; split].
      * apply Forall_forall. intros g Hg. apply Hother.
        { apply elem_of_app. by left. }
        intros Heq'. apply Hbefore. rewrite <- Heq'.
        apply list_elem_of_fmap. by exists g.
      * simpl. split; [|by destruct items].
        rewrite filter_app, <- Hitems.
        by rewrite filter_cons, decide_True.
      * apply Forall_forall. intros g Hg. apply Hother.
        { apply elem_of_app. right. by right. }
        intros Heq'. apply Hafter. rewrite <- Heq'.
        apply list_elem_of_fmap. by exists g.
    + rewrite (sellerGroups_push_new _ _ Hnew).
      apply Forall_app. split; [|apply Forall_singleton].
      * apply Forall_forall. intros g Hg. apply Hother; [done|].
        intros Heq'. apply Hnew. rewrite <- Heq'.
        apply list_elem_of_fmap. by exists g.
      * simpl. split; [|done]. rewrite filter_app, filter_none.
        { by rewrite filter_cons, decide_True. }
        apply Forall_forall. intros i Hi Hsame. apply Hnew.
        rewrite <- Hsame. by apply Hcover.
  - intros i Hi. apply sellerGroups_push_keys.
    apply elem_of_app in Hi as [Hi| ->%list_elem_of_singleton]; auto.
  - by rewrite sellerGroups_push_join, Hjoin.
Qed.

(** ** One order for each seller *)

Lemma orders_values_orderData_row id now0 user_id sellerId items paymentMethod
    address o :
  orders_values id now0 (orderData user_id sellerId items paymentMethod address)
  = Some o →
  order_of_group user_id paymentMethod address o (sellerId, items)
  ∧ Order.rejectReason o = None
  ∧ Order.sellerResponse o = None
  ∧ Order.buyerResponse o = None.
Proof.
  unfold orders_values, orderData, order_of_group. intros H.
  simplify_option_eq; repeat split;
    try done; try (by apply numeric_10_2_Some);
    try (f_equal; by apply numeric_10_2_Some).
Qed.

Lemma checkout_orders_prefix env user_id paymentMethod address groups :
  ∀ k (w : World), ∃ n new rows,
    (n ≤ length groups)%nat
    ∧ db (checkout_orders env k user_id paymentMethod address groups w).2
      = Db.mk (Db.sellers (db w)) (Db.products (db w))
          (Db.orders (db w) ++ new) (Db.orderStateHistory (db w) ++ rows)
    ∧ Forall2 (order_of_group user_id paymentMethod address) new
        (take n groups)
    ∧ Forall2 (first_row_of user_id) rows new
    ∧ ((n = length groups
        ∧ (checkout_orders env k user_id paymentMethod address groups w).1
          = Resolved ())
       ∨ ((n < length groups)%nat
          ∧ ∃ e,
              (checkout_orders env k user_id paymentMethod address groups w).1
              = Rejected e)).
Proof.
  induction groups as [|[sellerId items] groups IH]; intros k w.
  - exists 0%nat, [], []. simpl. rewrite !app_nil_r.
    split; [done|]. split; [by destruct w as [[] ?]|].
    split; [constructor|]. split; [constructor|]. by left.
  - simpl. unfold bind.
    destruct (insert_into_orders_cases env k (Some user_id)
                (orderData user_id sellerId items paymentMethod address) w)
      as [[e ->]|(NEW & Hval & _ & ->)].
    + exists 0%nat, [], []. simpl. rewrite !app_nil_r.
      split; [lia|]. split; [by destruct w as [[] ?]|].
      split; [constructor|]. split; [constructor|].
      right. split; [lia|by eexists].
    + apply orders_values_orderData_row in Hval as (Hgroup & Hr1 & Hr2 & Hr3).
      match goal with
      | |- context [checkout_orders _ _ _ _ _ _ ?w1] =>
          destruct (IH (S (S k)) w1)
            as (n & new & rows & Hn & Hdb & Hnew & Hrows & Hres)
      end.
      simpl in Hdb, Hres |- *.
      eexists (S n), (NEW :: new), (_ :: rows).
      split; [simpl; lia|]. split.
      { rewrite Hdb, <- !app_assoc. reflexivity. }
      split; [by constructor|]. split.
      { constructor; [|done]. unfold first_row_of. simpl.
        by rewrite Hr1, Hr2, Hr3. }
      destruct Hres as [[-> Hres]|[Hlt Hres]]; [by left|right].
      split; [simpl; lia|done].
Qed.

(** X14. A checkout with a complete address and a signed-in user creates
    one order for each seller of the cart, in the order of the groups, each
    holding that seller's items, the user as customer, status
    [pending_verification] and payment status [pending], and each with
    exactly one history row attributed to the user.  It is not all or
    nothing: when an insert is refused the orders of the groups before it
    stay stored and the page reports an error; "Order placed!" is shown
    exactly when every group got its order. *)
Theorem handleCheckout_one_order_per_seller (env : Env) (user_id : string)
    (address : Address.t) (cartItems : list CartItem.t)
    (paymentMethod : PaymentMethod) (w : World) :
  address_complete address →
  ∃ n new rows,
    (n ≤ length (sellerGroups cartItems))%nat
    ∧ db (handleCheckout env (Some user_id) address cartItems
            paymentMethod w).2
      = Db.mk (Db.sellers (db w)) (Db.products (db w))
          (Db.orders (db w) ++ new) (Db.orderStateHistory (db w) ++ rows)
    ∧ Forall2 (order_of_group user_id paymentMethod address) new
        (take n (sellerGroups cartItems))
    ∧ Forall2 (first_row_of user_id) rows new
    ∧ ((n = length (sellerGroups cartItems)
        ∧ (handleCheckout env (Some user_id) address cartItems
             paymentMethod w).1 = Resolved Toast_order_placed)
       ∨ ((n < length (sellerGroups cartItems))%nat
          ∧ ∃ e,
              (handleCheckout env (Some user_id) address cartItems
                 paymentMethod w).1 = Resolved (Toast_error e))).
Proof.
  intros (H1 & H2 & H3 & H4). unfold handleCheckout.
  rewrite !bool_decide_eq_false_2 by done. simpl.
  unfold try_catch, bind.
  destruct (checkout_orders_prefix env user_id paymentMethod address
              (sellerGroups cartItems) 0%nat w)
    as (n & new & rows & Hn & Hdb & Hnew & Hrows & Hres).
  exists n, new, rows.
  destruct (checkout_orders _ _ _ _ _ _ w) as [[[]|e] w'] eqn:Hrun;
    simpl in *.
  - repeat (split; [done|]).
    destruct Hres as [[-> _]|[_ [e ?]]]; [by left|done].
  - repeat (split; [done|]).
    destruct Hres as [[_ ?]|[Hlt _]]; [done|right]. split; [done|by eexists].
Qed.

Lemma handleCheckout_one_order_per_seller_witness :
  ∃ n new rows,
    (n ≤ length (sellerGroups sample_cart))%nat
    ∧ db (handleCheckout sample_env (Some "cust-1") sample_address
            sample_cart cod (quiet sample_db)).2
      = Db.mk (Db.sellers sample_db) (Db.products sample_db)
          (Db.orders sample_db ++ new)
          (Db.orderStateHistory sample_db ++ rows)
    ∧ Forall2 (order_of_group "cust-1" cod sample_address) new
        (take n (sellerGroups sample_cart))
    ∧ Forall2 (first_row_of "cust-1") rows new
    ∧ ((n = length (sellerGroups sample_cart)
        ∧ (handleCheckout sample_env (Some "cust-1") sample_address
             sample_cart cod (quiet sample_db)).1
          = Resolved Toast_order_placed)
       ∨ ((n < length (sellerGroups sample_cart))%nat
          ∧ ∃ e,
              (handleCheckout sample_env (Some "cust-1") sample_address
                 sample_cart cod (quiet sample_db)).1
              = Resolved (Toast_error e))).
Proof.
  apply (handleCheckout_one_order_per_seller sample_env "cust-1"
           sample_address sample_cart cod (quiet sample_db)).
  repeat split; discriminate.
Defined.

(** X15. The checkout sends nothing to the database, and leaves state and
    connection untouched, when a required address field is empty (the page
    asks for the address), when nobody is signed in (it reports an error),
    and when the cart is empty (it reports "Order placed!" although no
    order exists). *)
Theorem handleCheckout_sends_nothing (env : Env) (user : option string)
    (address : Address.t) (cartItems : list CartItem.t)
    (paymentMethod : PaymentMethod) (w : World) :
  (¬ address_complete address →
   handleCheckout env user address cartItems paymentMethod w
   = (Resolved Toast_incomplete_address, w))
  ∧ (address_complete address → user = None →
     handleCheckout env user address cartItems paymentMethod w
     = (Resolved (Toast_error "Not authenticated"), w))
  ∧ (address_complete address → is_Some user → cartItems = [] →
     handleCheckout env user address cartItems paymentMethod w
     = (Resolved Toast_order_placed, w)).
Proof.
  unfold handleCheckout, address_complete. split; [|split].
  - intros Hincomplete.
    destruct (_ || _) eqn:E; [done|]. exfalso. apply Hincomplete.
    rewrite !orb_false_iff in E. destruct E as [[[E1 E2] E3] E4].
    by apply bool_decide_eq_false in E1, E2, E3, E4.
  - intros (H1 & H2 & H3 & H4) ->.
    by rewrite !bool_decide_eq_false_2 by done.
  - intros (H1 & H2 & H3 & H4) [user_id ->] ->.
    by rewrite !bool_decide_eq_false_2 by done.
Qed.

Lemma handleCheckout_sends_nothing_witness :
  handleCheckout sample_env (Some "cust-1")
    (Address.mk "14 Kiln Road" "" "" "MH" "411001") sample_cart cod
    drops_third_statement
  = (Resolved Toast_incomplete_address, drops_third_statement)
  ∧ handleCheckout sample_env (Some "cust-1") sample_address [] cod
      drops_third_statement
    = (Resolved Toast_order_placed, drops_third_statement).
Proof.
  split.
  - apply (handleCheckout_sends_nothing sample_env (Some "cust-1")
             (Address.mk "14 Kiln Road" "" "" "MH" "411001") sample_cart cod
             drops_third_statement).
    intros (_ & Hcity & _). by apply Hcity.
  - apply (handleCheckout_sends_nothing sample_env (Some "cust-1")
             sample_address [] cod drops_third_statement).
    + repeat split; discriminate.
    + by eexists.
    + reflexivity.
Defined.

(** ** What a checkout charges *)

Lemma sellerGroups_join (cartItems : list CartItem.t) :
  mjoin (sellerGroups cartItems).*2 ≡ₚ cartItems.
Proof.
  induction cartItems as [|item cartItems IH] using rev_ind; [done|].
  by rewrite sellerGroups_snoc, sellerGroups_push_join, IH.
Qed.

Lemma cart_subtotal_cons item (items : list CartItem.t) :
  (cart_subtotal (item :: items)
   == CartItem.price item * inject_Z (CartItem.quantity item)
      + cart_subtotal items)%Q.
Proof. rewrite !cart_subtotal_items_subtotal. reflexivity. Qed.

Lemma cart_subtotal_app (items items' : list CartItem.t) :
  (cart_subtotal (items ++ items')
   == cart_subtotal items + cart_subtotal items')%Q.
Proof.
  induction items as [|item items IH]; simpl.
  - unfold cart_subtotal at 2. simpl. symmetry. apply Qplus_0_l.
  - rewrite !cart_subtotal_cons, IH. apply Qplus_assoc.
Qed.

Lemma cart_subtotal_Permutation (items items' : list CartItem.t) :
  items ≡ₚ items' → (cart_subtotal items == cart_subtotal items')%Q.
Proof.
  induction 1 as [|item items items' _ IH|item item' items|? ? ? _ IH1 _ IH2].
  - reflexivity.
  - by rewrite !cart_subtotal_cons, IH.
  - rewrite !cart_subtotal_cons. ring.
  - by rewrite IH1.
Qed.

Lemma cart_subtotal_groups (groups : list (string * list CartItem.t)) :
  (foldr (λ group acc, cart_subtotal group.2 + 50 + acc) 0 groups
   == cart_subtotal (mjoin groups.*2)
      + 50 * inject_Z (Z.of_nat (length groups)))%Q.
Proof.
  induction groups as [|group groups IH].
  - by vm_compute.
  - assert (mjoin (group :: groups).*2 = group.2 ++ mjoin groups.*2) as ->
      by done.
    cbn [foldr length].
    rewrite IH, cart_subtotal_app, Nat2Z.inj_succ.
    unfold Z.succ. rewrite inject_Z_plus.
    change (inject_Z 1) with 1%Q. ring.
Qed.

Lemma orders_total_groups user_id paymentMethod address new groups :
  Forall (λ group,
            Forall (λ item, two_decimals (CartItem.price item)) group.2)
    groups →
  Forall2 (order_of_group user_id paymentMethod address) new groups →
  (decimal_value (orders_total new)
   == foldr (λ group acc, cart_subtotal group.2 + 50 + acc) 0 groups)%Q.
Proof.
  intros Hprices Hnew. revert Hprices.
  induction Hnew as [|o group new groups Ho _ IH]; intros Hprices.
  - reflexivity.
  - apply Forall_cons in Hprices as [Hgroup Hprices].
    destruct Ho as (_ & _ & _ & _ & _ & _ & _ & _ & _ & Htotal).
    destruct (two_decimals_cart_subtotal _ Hgroup) as [c Hc].
    cbn [foldr orders_total]. rewrite <- (IH Hprices).
    fold (orders_total new).
    assert (Order.total o = c + 5000) as ->.
    { rewrite Htotal. unfold round_2.
      rewrite (round_half_away_comp _ (inject_Z (c + 5000)));
        [apply round_half_away_inject_Z|].
      rewrite Hc, inject_Z_plus. unfold decimal_value, Qdiv.
      change (/ 100)%Q with (1 # 100)%Q.
      change (inject_Z 5000) with 5000%Q. ring. }
    rewrite Hc. unfold decimal_value, Qdiv.
    rewrite !inject_Z_plus. change (/ 100)%Q with (1 # 100)%Q.
    change (inject_Z 5000) with 5000%Q. ring.
Qed.

(** X16. A checkout that reports "Order placed!" has stored one order for
    each seller of the cart, and with prices of two decimals these orders
    charge together the subtotal of the whole cart plus 50.00 for every
    seller.  The total the cart page shows (subtotal plus one delivery
    charge) is therefore what is charged exactly when the cart holds the
    products of a single seller; each further seller adds 50.00. *)
Theorem checkout_charges_delivery_per_seller (env : Env) (user_id : string)
    (address : Address.t) (cartItems : list CartItem.t)
    (paymentMethod : PaymentMethod) (w : World) :
  address_complete address →
  Forall (λ item, two_decimals (CartItem.price item)) cartItems →
  (handleCheckout env (Some user_id) address cartItems paymentMethod w).1
  = Resolved Toast_order_placed →
  ∃ new,
    Db.orders
      (db (handleCheckout env (Some user_id) address cartItems
             paymentMethod w).2)
    = Db.orders (db w) ++ new
    ∧ length new = length (sellerGroups cartItems)
    ∧ (decimal_value (orders_total new)
       == cart_total cartItems
          + 50 * (inject_Z (Z.of_nat (length (sellerGroups cartItems))) - 1))%Q.
Proof.
  intros (H1 & H2 & H3 & H4) Hprices. unfold handleCheckout.
  rewrite !bool_decide_eq_false_2 by done. simpl.
  unfold try_catch, bind.
  destruct (checkout_orders_prefix env user_id paymentMethod address
              (sellerGroups cartItems) 0%nat w)
    as (n & new & rows & Hn & Hdb & Hnew & _ & Hres).
  destruct (checkout_orders _ _ _ _ _ _ w) as [[[]|e] w'] eqn:Hrun;
    simpl in *; [intros _|done].
  destruct Hres as [[-> _]|[_ [e ?]]]; [|done].
  rewrite firstn_all in Hnew.
  exists new. split; [by rewrite Hdb|].
  split; [by eapply Forall2_length|].
  rewrite (orders_total_groups _ _ _ _ _
             (sellerGroups_Forall _ _ Hprices) Hnew).
  rewrite cart_subtotal_groups.
  rewrite (cart_subtotal_Permutation _ _ (sellerGroups_join cartItems)).
  unfold cart_total. ring.
Qed.

Lemma checkout_charges_delivery_per_seller_witness :
  ∃ new,
    Db.orders
      (db (handleCheckout sample_env (Some "cust-1") sample_address
             two_seller_cart cod (quiet sample_db)).2)
    = Db.orders sample_db ++ new
    ∧ length new = length (sellerGroups two_seller_cart)
    ∧ (decimal_value (orders_total new)
       == cart_total two_seller_cart
          + 50 * (inject_Z
                    (Z.of_nat (length (sellerGroups two_seller_cart))) - 1))%Q.
Proof.
  apply (checkout_charges_delivery_per_seller sample_env "cust-1"
           sample_address two_seller_cart cod (quiet sample_db)).
  - repeat split; discriminate.
  - repeat constructor; [exists 10000|exists 1999|exists 850]; by vm_compute.
  - by vm_compute.
Defined.

(** ** The cart and its saved copy *)

Lemma loaded_from_loadCartItems saved products :
  loaded_from products (loadCartItems saved products).
Proof.
  unfold loadCartItems.
  induction products as [|product products IH]; [constructor|].
  rewrite filter_cons. case_decide as Hin; [|by constructor].
  rewrite fmap_cons. apply (loaded_cons product); [|done].
  apply list_elem_of_split in Hin as (l1 & l2 & ->).
  rewrite filter_app, filter_cons, decide_True by done.
  rewrite length_app. simpl. lia.
Qed.

Lemma loaded_from_updateQuantity id delta products cartItems :
  loaded_from products cartItems →
  loaded_from products (updateQuantity id delta cartItems).
Proof.
  unfold updateQuantity.
  induction 1 as [|product products cartItems _ IH
                  |product quantity products cartItems Hq _ IH];
    [constructor|by constructor|].
  rewrite fmap_cons. case_decide.
  - apply (loaded_cons product (Z.max 1 (quantity + delta))); [lia|done].
  - by constructor.
Qed.

Lemma loaded_from_removeItem id products cartItems :
  loaded_from products cartItems →
  loaded_from products (removeItem id cartItems).
Proof.
  unfold removeItem.
  induction 1 as [|product products cartItems _ IH
                  |product quantity products cartItems Hq _ IH];
    [constructor|by constructor|].
  rewrite filter_cons. case_decide; by constructor.
Qed.

Lemma loaded_from_cart_actions actions products cartItems :
  loaded_from products cartItems →
  loaded_from products (cart_actions actions cartItems).
Proof.
  unfold cart_actions. revert cartItems.
  induction actions as [|[id delta|id] actions IH]; intros cartItems H;
    simpl; [done|apply IH|apply IH].
  - by apply loaded_from_updateQuantity.
  - by apply loaded_from_removeItem.
Qed.

Lemma loaded_from_quantity products cartItems :
  loaded_from products cartItems →
  Forall (λ item, 1 ≤ CartItem.quantity item) cartItems.
Proof. induction 1; [constructor|done|by constructor]. Qed.

Lemma loaded_from_ids products cartItems :
  loaded_from products cartItems →
  CartItem.id <$> cartItems ⊆ Product.id <$> products.
Proof.
  induction 1 as [|product products cartItems _ IH
                  |product quantity products cartItems _ _ IH]; simpl.
  - done.
  - intros x Hx. right. by apply IH.
  - intros x [->|Hx]%elem_of_cons; [left|right; by apply IH].
Qed.

Lemma loaded_from_NoDup products cartItems :
  NoDup (Product.id <$> products) →
  loaded_from products cartItems →
  NoDup (CartItem.id <$> cartItems).
Proof.
  intros Hnodup H.
  induction H as [|product products cartItems _ IH
                  |product quantity products cartItems _ H IH]; simpl in *.
  - constructor.
  - apply NoDup_cons in Hnodup as [_ Hnodup]. auto.
  - apply NoDup_cons in Hnodup as [Hnew Hnodup].
    apply NoDup_cons. split; [|auto].
    intros Hin. by apply Hnew, (loaded_from_ids _ _ H).
Qed.

Lemma newCart_ids (cartItems : list CartItem.t) :
  newCart cartItems ⊆ CartItem.id <$> cartItems.
Proof.
  unfold newCart. intros x (item & Hx & Hitem)%list_elem_of_bind.
  apply elem_of_replicate in Hx as [-> _].
  by apply list_elem_of_fmap_2.
Qed.

Lemma filter_replicate_other (x y : string) (n : nat) :
  x ≠ y → filter (λ id, id = y) (replicate n x) = [].
Proof.
  intros Hne. induction n as [|n IH]; simpl; [done|].
  by rewrite filter_cons, decide_False.
Qed.

Lemma filter_replicate_same (x : string) (n : nat) :
  filter (λ id, id = x) (replicate n x) = replicate n x.
Proof.
  induction n as [|n IH]; simpl; [done|].
  by rewrite filter_cons, decide_True, IH.
Qed.

(** Saved copies of a product the table does not hold change nothing. *)
Lemma loadCartItems_replicate_other x n saved products :
  x ∉ Product.id <$> products →
  loadCartItems (replicate n x ++ saved) products
  = loadCartItems saved products.
Proof.
  unfold loadCartItems. induction products as [|product products IH];
    [done|].
  rewrite fmap_cons. intros [Hne Hnew]%not_elem_of_cons.
  rewrite !filter_cons.
  assert (Product.id product ∈ replicate n x ++ saved
          ↔ Product.id product ∈ saved) as Hiff.
  { rewrite elem_of_app, elem_of_replicate. intuition congruence. }
  destruct (decide (Product.id product ∈ saved)) as [Hin|Hout].
  - rewrite decide_True by by apply Hiff.
    rewrite !fmap_cons, (IH Hnew).
    by rewrite filter_app, filter_replicate_other.
  - rewrite decide_False by by rewrite Hiff.
    by apply IH.
Qed.

Lemma loadCartItems_newCart products cartItems :
  NoDup (Product.id <$> products) →
  loaded_from products cartItems →
  loadCartItems (newCart cartItems) products = cartItems.
Proof.
  intros Hnodup H.
  induction H as [|product products cartItems H IH
                  |product quantity products cartItems Hq H IH].
  - done.
  - rewrite fmap_cons in Hnodup. apply NoDup_cons in Hnodup as [Hnew Hnodup].
    rewrite <- (IH Hnodup) at 2. unfold loadCartItems.
    rewrite filter_cons, decide_False; [done|].
    intros Hin. by apply Hnew, (loaded_from_ids _ _ H), newCart_ids.
  - rewrite fmap_cons in Hnodup. apply NoDup_cons in Hnodup as [Hnew Hnodup].
    assert (newCart (cart_item product quantity :: cartItems)
            = replicate (Z.to_nat quantity) (Product.id product)
              ++ newCart cartItems) as -> by done.
    assert (Product.id product ∉ newCart cartItems) as Hfresh.
    { intros Hin. by apply Hnew, (loaded_from_ids _ _ H), newCart_ids. }
    unfold loadCartItems at 1. rewrite filter_cons, decide_True.
    2:{ apply elem_of_app. left. apply elem_of_replicate. split; [done|lia]. }
    rewrite fmap_cons. f_equal.
    + unfold cart_item. f_equal.
      rewrite filter_app, filter_replicate_same, length_app, length_replicate.
      rewrite (filter_none (λ id, id = Product.id product)); [simpl; lia|].
      apply Forall_forall. intros id Hid ->. done.
    + fold (loadCartItems
              (replicate (Z.to_nat quantity) (Product.id product)
               ++ newCart cartItems) products).
      rewrite loadCartItems_replicate_other by done. by apply IH.
Qed.

(** X17. Over a products table with unique ids, the cart shown after
    loading the saved ids and any sequence of quantity changes and removals
    is restored by saving and loading it again: the ids written back, one
    per unit, load to the very same items.  In such a cart every quantity
    is at least one and no product appears twice, however far a quantity
    was turned down. *)
Theorem cart_reload_round_trip (saved : list string)
    (products : list Product.t) (actions : list CartAction) :
  NoDup (Product.id <$> products) →
  loadCartItems
    (newCart (cart_actions actions (loadCartItems saved products))) products
  = cart_actions actions (loadCartItems saved products)
  ∧ Forall (λ item, 1 ≤ CartItem.quantity item)
      (cart_actions actions (loadCartItems saved products))
  ∧ NoDup (CartItem.id
           <$> cart_actions actions (loadCartItems saved products)).
Proof.
  intros Hnodup.
  pose proof (loaded_from_cart_actions actions _ _
                (loaded_from_loadCartItems saved products)) as H.
  split; [by apply loadCartItems_newCart|].
  split; [by eapply loaded_from_quantity|by eapply loaded_from_NoDup].
Qed.

Lemma cart_reload_round_trip_witness :
  loadCartItems
    (newCart (cart_actions sample_actions
                (loadCartItems sample_saved sample_catalog))) sample_catalog
  = cart_actions sample_actions (loadCartItems sample_saved sample_catalog)
  ∧ Forall (λ item, 1 ≤ CartItem.quantity item)
      (cart_actions sample_actions
         (loadCartItems sample_saved sample_catalog))
  ∧ NoDup (CartItem.id
           <$> cart_actions sample_actions
                 (loadCartItems sample_saved sample_catalog)).
Proof.
  apply (cart_reload_round_trip sample_saved sample_catalog sample_actions).
  apply (bool_decide_unpack _). by vm_compute.
Defined.

(** ** Routes behind [authMiddleware] and [requireRole] *)

(** X18. A route registered behind [authMiddleware] and [requireRole] runs
    its handler only for a cookie that [verifyToken] accepts and whose role
    is one of the roles named, and then with the identity of the token, not
    one the request could choose.  Every other request is answered 401 (no
    or invalid token) or 403 (role not allowed) before any statement is
    sent: state and connection are as they were. *)
Theorem guarded_route_cases
    (verifyToken : string → option (string * string)) (roles : list string)
    (next : AuthRequest.t → Async Response) (req : Request.t) (w : World) :
  (∃ token userId role,
     Request.auth_token req = Some token
     ∧ token ≠ ""
     ∧ verifyToken token = Some (userId, role)
     ∧ role ≠ "" ∧ role ∈ roles
     ∧ authMiddleware verifyToken (requireRole roles next) req w
       = next {| AuthRequest.userId := userId;
                 AuthRequest.userRole := role;
                 AuthRequest.params_id := Request.params_id req;
                 AuthRequest.query_status := Request.query_status req;
                 AuthRequest.body := Request.body req |} w)
  ∨ (¬ authenticated verifyToken req
     ∧ ∃ e,
         authMiddleware verifyToken (requireRole roles next) req w
         = (Resolved (res_status_json 401 (JsonError e)), w))
  ∨ (authenticated verifyToken req
     ∧ authMiddleware verifyToken (requireRole roles next) req w
       = (Resolved (res_status_json 403
                      (JsonError "Insufficient permissions")), w)).
Proof.
  unfold authMiddleware, authenticated.
  destruct (Request.auth_token req) as [[|c token]|] eqn:Htoken.
  - right; left. split; [|by eexists].
    intros (token & ? & ? & [= <-] & Hne & _). done.
  - destruct (verifyToken (String c token)) as [[userId role]|] eqn:Hverify.
    + unfold requireRole. simpl.
      destruct (bool_decide (role = "")) eqn:Hempty; simpl.
      { right; right. split; [|done].
        exists (String c token), userId, role. done. }
      destruct (bool_decide (role ∈ roles)) eqn:Hrole; simpl.
      * left. exists (String c token), userId, role.
        apply bool_decide_eq_false in Hempty.
        apply bool_decide_eq_true in Hrole. done.
      * right; right. split; [|done].
        exists (String c token), userId, role. done.
    + right; left. split; [|by eexists].
      intros (? & ? & ? & [= <-] & _ & Hsome). congruence.
  - right; left. split; [|by eexists].
    intros (? & ? & ? & [=] & _).
Qed.

(** ** From the home page to the cart page *)

Lemma elem_of_loadCartItems item saved products :
  item ∈ loadCartItems saved products
  ↔ ∃ product,
      product ∈ products
      ∧ Product.id product ∈ saved
      ∧ item
        = cart_item product
            (Z.of_nat
               (length (filter (λ id, id = Product.id product) saved))).
Proof.
  unfold loadCartItems. rewrite list_elem_of_fmap. split.
  - intros (product & -> & [Hin Hp]%list_elem_of_filter). by exists product.
  - intros (product & Hp & Hin & ->). exists product.
    split; [done|]. by apply list_elem_of_filter.
Qed.

Lemma filter_addToCart (cart : list string) productId id :
  length (filter (λ id', id' = id) (addToCart cart productId))
  = (length (filter (λ id', id' = id) cart)
     + if decide (productId = id) then 1 else 0)%nat.
Proof.
  unfold addToCart. rewrite filter_app, length_app, filter_cons.
  by case_decide.
Qed.

(** X19. A product of the table added to the cart on the home page is shown
    on the cart page with one unit more than the saved cart held of it (one
    unit if it held none), and every other item is shown as it would have
    been without the addition. *)
Theorem addToCart_adds_one_unit (cart : list string) (product : Product.t)
    (products : list Product.t) :
  product ∈ products →
  cart_item product
    (Z.of_nat (length (filter (λ id, id = Product.id product) cart)) + 1)
  ∈ loadCartItems (addToCart cart (Product.id product)) products
  ∧ ∀ item, CartItem.id item ≠ Product.id product →
      (item ∈ loadCartItems (addToCart cart (Product.id product)) products
       ↔ item ∈ loadCartItems cart products).
Proof.
  intros Hproduct. split.
  - apply elem_of_loadCartItems. exists product.
    split; [done|]. split.
    + apply elem_of_app. right. by left.
    + rewrite filter_addToCart, decide_True by done. f_equal. lia.
  - intros item Hother. rewrite !elem_of_loadCartItems.
    split; intros (p & Hp & Hin & ->); exists p; simpl in Hother.
    + split; [done|]. split.
      * apply elem_of_app in Hin as [Hin|Hin%list_elem_of_singleton];
          [done|congruence].
      * by rewrite filter_addToCart, decide_False, Nat.add_0_r
          by congruence.
    + split; [done|]. split.
      * apply elem_of_app. by left.
      * by rewrite filter_addToCart, decide_False, Nat.add_0_r
          by congruence.
Qed.

Lemma addToCart_adds_one_unit_witness :
  cart_item (Product.mk "p-7" "sel-2" "River sand" 1999 "bag")
    (Z.of_nat (length (filter (λ id, id = "p-7") sample_saved)) + 1)
  ∈ loadCartItems (addToCart sample_saved "p-7") sample_catalog
  ∧ ∀ item, CartItem.id item ≠ "p-7" →
      (item ∈ loadCartItems (addToCart sample_saved "p-7") sample_catalog
       ↔ item ∈ loadCartItems sample_saved sample_catalog).
Proof.
  apply (addToCart_adds_one_unit sample_saved
           (Product.mk "p-7" "sel-2" "River sand" 1999 "bag") sample_catalog).
  right. left.
Defined.

Lemma length_filter_elem_of_cons (x : string) (l cart : list string) :
  x ∉ l →
  length (filter (λ id, id ∈ x :: l) cart)
  = (length (filter (λ id, id = x) cart)
     + length (filter (λ id, id ∈ l) cart))%nat.
Proof.
  intros Hx. induction cart as [|id cart IH]; [done|].
  rewrite !filter_cons.
  destruct (decide (id = x)) as [->|Hne].
  - rewrite decide_True by left. rewrite decide_False by done.
    simpl. by rewrite IH.
  - destruct (decide (id ∈ l)) as [Hin|Hout].
    + rewrite decide_True by by right. simpl. rewrite IH. lia.
    + rewrite decide_False; [done|].
      by intros [?|?]%elem_of_cons.
Qed.

(** X20. Over a products table with unique ids the cart page shows as many
    units as the saved cart has entries naming a product of the table: when
    every saved id is such a product, the sum of the quantities shown is
    the number the badge of the home page counts; saved ids of no product
    are dropped without notice. *)
Theorem cart_units_loadCartItems (cart : list string)
    (products : list Product.t) :
  NoDup (Product.id <$> products) →
  cart_units (loadCartItems cart products)
  = Z.of_nat (length (filter (λ id, id ∈ Product.id <$> products) cart))
  ∧ (Forall (λ id, id ∈ Product.id <$> products) cart →
     cart_units (loadCartItems cart products) = Z.of_nat (length cart)).
Proof.
  intros Hnodup.
  assert (cart_units (loadCartItems cart products)
          = Z.of_nat
              (length (filter (λ id, id ∈ Product.id <$> products) cart)))
    as Hunits.
  { induction products as [|product products IH].
    - rewrite (filter_none (λ id, id ∈ Product.id <$> [])); [done|].
      apply Forall_forall. intros id _ Hid. by apply elem_of_nil in Hid.
    - rewrite fmap_cons in Hnodup |- *.
      apply NoDup_cons in Hnodup as [Hnew Hnodup].
      rewrite length_filter_elem_of_cons, Nat2Z.inj_add, <- (IH Hnodup)
        by done.
      unfold loadCartItems. rewrite filter_cons. case_decide as Hin.
      + by rewrite fmap_cons.
      + rewrite (filter_none (λ id, id = Product.id product)); [done|].
        apply Forall_forall. by intros id Hid ->. }
  split; [done|]. intros Hknown. rewrite Hunits. f_equal. f_equal.
  clear -Hknown. induction Hknown as [|id cart Hid _ IH]; [done|].
  by rewrite filter_cons, decide_True, IH.
Qed.

Lemma cart_units_loadCartItems_witness :
  cart_units (loadCartItems sample_saved sample_catalog)
  = Z.of_nat
      (length (filter (λ id, id ∈ Product.id <$> sample_catalog)
                 sample_saved))
  ∧ (Forall (λ id, id ∈ Product.id <$> sample_catalog) sample_saved →
     cart_units (loadCartItems sample_saved sample_catalog)
     = Z.of_nat (length sample_saved)).
Proof.
  apply (cart_units_loadCartItems sample_saved sample_catalog).
  apply (bool_decide_unpack _). by vm_compute.
Defined.

(** * Accounts *)

Lemma statement_cases {A} (stmt : Tables.t → Outcome (A * Tables.t))
    (s : Site) :
  (∃ e, statement stmt s
        = (Rejected e,
           {| tables := tables s;
              world := {| db := db (world s);
                          rejects := tail (rejects (world s)) |} |}))
  ∨ (∃ a t, stmt (tables s) = Resolved (a, t)
            ∧ statement stmt s
              = (Resolved a,
                 {| tables := t;
                    world := {| db := db (world s);
                                rejects := tail (rejects (world s)) |} |})).
Proof.
  unfold statement. destruct (head (rejects (world s))) as [[]|]; eauto;
    destruct (stmt (tables s)) as [[a t]|e]; eauto.
Qed.

Lemma statement_calm {A} (stmt : Tables.t → Outcome (A * Tables.t)) t d :
  statement stmt (calm t d)
  = match stmt t with
    | Resolved (a, t') => (Resolved a, calm t' d)
    | Rejected e => (Rejected e, calm t d)
    end.
Proof. reflexivity. Qed.

Lemma lift_query_calm {A} (stmt : Db.t → Outcome (A * Db.t)) t d :
  lift (query stmt) (calm t d)
  = match stmt d with
    | Resolved (a, d') => (Resolved a, calm t d')
    | Rejected e => (Rejected e, calm t d)
    end.
Proof.
  unfold lift, calm, quiet. simpl. rewrite query_quiet.
  by destruct (stmt d) as [[a d']|e].
Qed.

Lemma head_filter_fresh {A} (P : A → Prop) `{∀ x, Decision (P x)}
    (l : list A) (x : A) :
  Forall (λ y, ¬ P y) l → P x → head (filter P (l ++ [x])) = Some x.
Proof.
  intros Hl Hx. rewrite filter_app, (filter_none P l Hl), filter_cons.
  by rewrite decide_True.
Qed.

(** X21. Signing up and signing in fit together.  With a name in the form,
    a phone number no profile has yet and no statement refused, sign-up
    answers 200, stores one more profile with the first generated id, the
    role asked for ([customer] if none), the hash of the password and not
    the password, and sets the cookie; the seller record is added exactly
    for role [seller] with a shop name.  Signing in afterwards with the same
    phone and password answers 200 with the same user and a token for its
    id and role, provided [bcrypt] accepts a password against its own
    hash. *)
Theorem signup_then_signin (c : Crypto) (env env' : Env) (salt : string)
    (body : SignupBody.t) (t : Tables.t) (d : Db.t) :
  bcrypt_compare c (SignupBody.password body)
    (bcrypt_hash c salt (SignupBody.password body)) = true →
  is_Some (SignupBody.name body) →
  Forall (λ p, Profile.phone p ≠ SignupBody.phone body) (Tables.profiles t) →
  ∃ profile d',
    post_api_auth_signup c env salt body (calm t d)
    = (Resolved
         (Reply.mk 200
            (CookieSet (jwt_sign c (Profile.id profile)
                          (appRole_label (Profile.role profile)) (now env)))
            (JsonSession (sanitizeProfile profile)
               (jwt_sign c (Profile.id profile)
                  (appRole_label (Profile.role profile)) (now env)))),
       calm (Tables.mk (Tables.profiles t ++ [profile])
               (Tables.userAddresses t)) d')
    ∧ Profile.id profile = gen_random_uuid env 0%nat
    ∧ Profile.role profile = default role_customer (SignupBody.role body)
    ∧ Profile.phone profile = SignupBody.phone body
    ∧ Profile.passwordHash profile
      = bcrypt_hash c salt (SignupBody.password body)
    ∧ Db.sellers d'
      = Db.sellers d
        ++ match SignupBody.role body, truthy (SignupBody.shopName body) with
           | Some role_seller, Some shopName =>
               [Seller.mk (gen_random_uuid env 1%nat) (Profile.id profile)
                  shopName "active"]
           | _, _ => []
           end
    ∧ Db.orders d' = Db.orders d
    ∧ post_api_auth_signin c env'
        (SigninBody.mk (SignupBody.phone body) (SignupBody.password body))
        (calm (Tables.mk (Tables.profiles t ++ [profile])
                 (Tables.userAddresses t)) d')
      = (Resolved
           (Reply.mk 200
              (CookieSet (jwt_sign c (Profile.id profile)
                            (appRole_label (Profile.role profile))
                            (now env')))
              (JsonSession (sanitizeProfile profile)
                 (jwt_sign c (Profile.id profile)
                    (appRole_label (Profile.role profile)) (now env')))),
         calm (Tables.mk (Tables.profiles t ++ [profile])
                 (Tables.userAddresses t)) d').
Proof.
  intros Hcompare [name Hname] Hphone.
  set (profile :=
         {| Profile.id := gen_random_uuid env 0%nat;
            Profile.role := default role_customer (SignupBody.role body);
            Profile.phone := SignupBody.phone body;
            Profile.name := name;
            Profile.email := truthy (SignupBody.email body);
            Profile.passwordHash :=
              bcrypt_hash c salt (SignupBody.password body);
            Profile.createdAt := now env;
            Profile.updatedAt := now env |}).
  assert (∀ d',
            post_api_auth_signin c env'
              (SigninBody.mk (SignupBody.phone body)
                 (SignupBody.password body))
              (calm (Tables.mk (Tables.profiles t ++ [profile])
                       (Tables.userAddresses t)) d')
            = (Resolved
                 (Reply.mk 200
                    (CookieSet (jwt_sign c (Profile.id profile)
                                  (appRole_label (Profile.role profile))
                                  (now env')))
                    (JsonSession (sanitizeProfile profile)
                       (jwt_sign c (Profile.id profile)
                          (appRole_label (Profile.role profile))
                          (now env')))),
               calm (Tables.mk (Tables.profiles t ++ [profile])
                       (Tables.userAddresses t)) d')) as Hsignin.
  { intros d'.
    unfold post_api_auth_signin, task_catch_500, task_try_catch, task_bind,
      getProfileByPhone.
    rewrite statement_calm. cbn [Tables.profiles SigninBody.phone].
    rewrite (head_filter_fresh _ _ profile) by done.
    unfold comparePassword. cbn [SigninBody.password Profile.passwordHash
                                 profile].
    by rewrite Hcompare. }
  assert (post_api_auth_signup c env salt body (calm t d)
          = (Resolved
               (Reply.mk 200
                  (CookieSet (jwt_sign c (Profile.id profile)
                                (appRole_label (Profile.role profile))
                                (now env)))
                  (JsonSession (sanitizeProfile profile)
                     (jwt_sign c (Profile.id profile)
                        (appRole_label (Profile.role profile)) (now env)))),
             calm (Tables.mk (Tables.profiles t ++ [profile])
                     (Tables.userAddresses t))
               (Db.mk
                  (Db.sellers d
                   ++ match SignupBody.role body,
                            truthy (SignupBody.shopName body) with
                      | Some role_seller, Some shopName =>
                          [Seller.mk (gen_random_uuid env 1%nat)
                             (Profile.id profile) shopName "active"]
                      | _, _ => []
                      end)
                  (Db.products d) (Db.orders d) (Db.orderStateHistory d))))
    as Hsignup.
  { unfold post_api_auth_signup, task_catch_500, task_try_catch, task_bind,
      getProfileByPhone.
    rewrite statement_calm. cbn [Tables.profiles].
    rewrite (filter_none (λ p, Profile.phone p = SignupBody.phone body))
      by done.
    cbn [head]. unfold createProfile. rewrite statement_calm.
    cbn [InsertProfile.name]. rewrite Hname.
    cbn [InsertProfile.id InsertProfile.role InsertProfile.phone
         InsertProfile.email InsertProfile.passwordHash hashPassword].
    fold profile.
    destruct (SignupBody.role body) as [[]|];
      destruct (truthy (SignupBody.shopName body)) as [shopName|];
      unfold createSeller, task_ret, generateToken;
      rewrite ?lift_query_calm; cbn [Profile.id profile];
      try (by rewrite app_nil_r; destruct d). done. }
  exists profile. eexists. split; [exact Hsignup|].
  repeat (split; [reflexivity|]). apply Hsignin.
Qed.

Lemma signup_then_signin_witness :
  ∃ profile d',
    (post_api_auth_signup sample_crypto sample_env "salt" sample_signup
       (calm sample_tables sample_db)).1
    = Resolved
        (Reply.mk 200 (CookieSet "u-0.seller")
           (JsonSession (sanitizeProfile profile) "u-0.seller"))
    ∧ Db.sellers d'
      = Db.sellers sample_db ++ [Seller.mk "u-1" "u-0" "Ravi Bricks" "active"]
    ∧ (post_api_auth_signin sample_crypto later_env
         (SigninBody.mk "98111" "brick")
         (calm (Tables.mk (Tables.profiles sample_tables ++ [profile])
                  (Tables.userAddresses sample_tables)) d')).1
      = Resolved
          (Reply.mk 200 (CookieSet "u-0.seller")
             (JsonSession (sanitizeProfile profile) "u-0.seller")).
Proof.
  destruct (signup_then_signin sample_crypto sample_env later_env "salt"
              sample_signup sample_tables sample_db)
    as (profile & d' & Hsignup & Hid & Hrole & _ & _ & Hsellers & _ & Hsignin).
  - reflexivity.
  - by eexists.
  - repeat constructor. discriminate.
  - exists profile, d'.
    split; [by rewrite Hsignup, Hid, Hrole|].
    split; [by rewrite Hsellers, Hid|].
    change (SigninBody.mk "98111" "brick")
      with (SigninBody.mk (SignupBody.phone sample_signup)
              (SignupBody.password sample_signup)).
    by rewrite Hsignin, Hid, Hrole.
Defined.

Lemma lift_query_cases {A} (stmt : Db.t → Outcome (A * Db.t)) (s : Site) :
  (∃ e, lift (query stmt) s
        = (Rejected e,
           {| tables := tables s;
              world := {| db := db (world s);
                          rejects := tail (rejects (world s)) |} |}))
  ∨ (∃ a d, stmt (db (world s)) = Resolved (a, d)
            ∧ lift (query stmt) s
              = (Resolved a,
                 {| tables := tables s;
                    world := {| db := d;
                                rejects := tail (rejects (world s)) |} |})).
Proof.
  unfold lift.
  destruct (query_cases stmt (world s)) as [[e ->]|(a & d & Hstmt & ->)];
    eauto.
Qed.

(** Case analysis on the first statement on the account tables found in the
    goal. *)
Ltac statement_inv :=
  let e := fresh "e" in
  let He := fresh "He" in
  let a := fresh "a" in
  let t := fresh "t" in
  let Hstmt := fresh "Hstmt" in
  let Hq := fresh "Hq" in
  match goal with
  | |- context [@statement ?A ?stmt ?s] =>
      destruct (@statement_cases A stmt s) as [[e He]|(a & t & Hstmt & Hq)];
      [rewrite He; clear He|rewrite Hq; clear Hq]
  end.

(** X22. Sign-up always answers, and is not all or nothing.  Whatever is
    refused, it alters no stored profile, address or order and adds at most
    one profile, never one whose phone number a stored profile has.  It
    ends in one of three ways: nothing is stored (the answer is not 200);
    the profile is stored and the answer is 200, with a seller record added
    exactly for role [seller] with a shop name; or the profile is stored
    without the seller record asked for and the answer is 500, after which
    the phone number is taken. *)
Theorem signup_outcomes (c : Crypto) (env : Env) (salt : string)
    (body : SignupBody.t) (s : Site) :
  ∃ reply s',
    post_api_auth_signup c env salt body s = (Resolved reply, s')
    ∧ Tables.userAddresses (tables s') = Tables.userAddresses (tables s)
    ∧ Db.orders (db (world s')) = Db.orders (db (world s))
    ∧ ((Reply.statusCode reply ≠ 200
        ∧ tables s' = tables s ∧ db (world s') = db (world s))
       ∨ ∃ profile,
           Tables.profiles (tables s') = Tables.profiles (tables s) ++ [profile]
           ∧ Profile.phone profile = SignupBody.phone body
           ∧ Forall (λ p, Profile.phone p ≠ SignupBody.phone body)
               (Tables.profiles (tables s))
           ∧ ((Reply.statusCode reply = 200
               ∧ Db.sellers (db (world s'))
                 = Db.sellers (db (world s))
                   ++ match SignupBody.role body,
                            truthy (SignupBody.shopName body) with
                      | Some role_seller, Some shopName =>
                          [Seller.mk (gen_random_uuid env 1%nat)
                             (Profile.id profile) shopName "active"]
                      | _, _ => []
                      end)
              ∨ (Reply.statusCode reply = 500
                 ∧ Db.sellers (db (world s')) = Db.sellers (db (world s))
                 ∧ SignupBody.role body = Some role_seller
                 ∧ is_Some (truthy (SignupBody.shopName body))))).
Proof.
  unfold post_api_auth_signup, task_catch_500, task_try_catch, task_bind,
    getProfileByPhone.
  statement_inv.
  { do 2 eexists. split; [done|]. simpl. repeat (split; [done|]).
    left. by destruct s as [? []]. }
  injection Hstmt as <- <-.
  destruct (head (filter _ (Tables.profiles (tables s)))) as [existing|]
    eqn:Hexisting.
  { do 2 eexists. split; [done|]. simpl. repeat (split; [done|]).
    left. by destruct s as [[] []]. }
  apply head_filter_None in Hexisting.
  unfold createProfile. statement_inv.
  { do 2 eexists. split; [done|]. simpl. repeat (split; [done|]).
    left. by destruct s as [[] []]. }
  simpl in Hstmt.
  destruct (SignupBody.name body) as [name|]; [|done].
  injection Hstmt as <- <-.
  destruct (SignupBody.role body) as [[]|] eqn:Hrole;
    destruct (truthy (SignupBody.shopName body)) as [shopName|] eqn:Hshop;
    unfold createSeller, task_ret;
    try (do 2 eexists; split; [done|]; simpl; repeat (split; [done|]);
         right; eexists; split; [done|]; split; [done|]; split; [done|];
         left; split; [done|]; by rewrite app_nil_r).
  match goal with
  | |- context [lift (query ?stmt) ?s0] =>
      destruct (lift_query_cases stmt s0)
        as [[e He]|(seller & d & Hstmt & Hq)]
  end.
  - rewrite He. do 2 eexists. split; [done|]. simpl.
    repeat (split; [done|]). right. eexists. split; [done|].
    split; [done|]. split; [done|]. right. split; [done|]. split; [done|].
    split; [done|by eexists].
  - rewrite Hq. simpl in Hstmt. injection Hstmt as <- <-.
    do 2 eexists. split; [done|]. simpl. repeat (split; [done|]).
    right. eexists. split; [done|]. split; [done|]. split; [done|].
    by left.
Qed.

(** ** Profiles *)

Lemma filter_ne_eq_Permutation {A} (f : A → string) (k : string)
    (l : list A) :
  filter (λ x, f x ≠ k) l ++ filter (λ x, f x = k) l ≡ₚ l.
Proof.
  induction l as [|x l IH]; [done|].
  rewrite !filter_cons. destruct (decide (f x = k)) as [Hx|Hx].
  - rewrite decide_False by auto. rewrite <- Permutation_middle.
    by constructor.
  - rewrite decide_True by done. simpl. by constructor.
Qed.

(** X23. PATCH /api/profiles/:id, whatever the body and the statements
    refused: a request for another user's profile is answered 403 before
    anything is sent; no profile is added or removed; only a profile with
    the requester's id can change, and then to the row the keys of the body
    make of it (an [id] among them gives it that id); it keeps its password
    hash, also when the body names a [passwordHash], and its creation time;
    addresses and the tables of the orders are untouched. *)
Theorem patch_profile_guards (env : Env) (userId params_id : string)
    (body : ProfileBody.t) (s : Site) :
  (userId ≠ params_id →
   patch_api_profiles_id env userId params_id body s
   = (Resolved (reply_status_json 403
                  (JsonFailure "Cannot update other user's profile")), s))
  ∧ (∃ others own own',
       Tables.profiles (tables s) ≡ₚ others ++ own
       ∧ Tables.profiles
           (tables (patch_api_profiles_id env userId params_id body s).2)
         ≡ₚ others ++ own'
       ∧ Forall (λ p, Profile.id p = userId) own
       ∧ Forall2 (λ p p',
                    Profile.passwordHash p' = Profile.passwordHash p
                    ∧ Profile.createdAt p' = Profile.createdAt p
                    ∧ (p' = p
                       ∨ p' = profiles_set (allowedUpdates body) (now env) p))
           own own')
  ∧ Tables.userAddresses
      (tables (patch_api_profiles_id env userId params_id body s).2)
    = Tables.userAddresses (tables s)
  ∧ db (world (patch_api_profiles_id env userId params_id body s).2)
    = db (world s).
Proof.
  assert (∃ others own own',
            Tables.profiles (tables s) ≡ₚ others ++ own
            ∧ Tables.profiles (tables s) ≡ₚ others ++ own'
            ∧ Forall (λ p, Profile.id p = userId) own
            ∧ Forall2 (λ p p',
                         Profile.passwordHash p' = Profile.passwordHash p
                         ∧ Profile.createdAt p' = Profile.createdAt p
                         ∧ (p' = p
                            ∨ p' = profiles_set (allowedUpdates body)
                                     (now env) p))
                own own') as Hsame.
  { exists (Tables.profiles (tables s)), [], [].
    rewrite app_nil_r. split; [done|]. split; [done|].
    split; constructor. }
  unfold patch_api_profiles_id, task_catch_500, task_try_catch, task_bind.
  destruct (decide (userId ≠ params_id)) as [Hother|Hown]; [done|].
  apply dec_stable in Hown as ->. cbv beta iota.
  split; [done|]. unfold updateProfile.
  statement_inv; simpl.
  { by destruct s as [[] []]. }
  injection Hstmt as <- <-.
  destruct (head (profiles_set _ _ <$> _)); simpl; (split; [|done]);
    exists (filter (λ p, Profile.id p ≠ params_id)
              (Tables.profiles (tables s))),
      (filter (λ p, Profile.id p = params_id) (Tables.profiles (tables s))),
      (profiles_set (allowedUpdates body) (now env)
       <$> filter (λ p, Profile.id p = params_id)
             (Tables.profiles (tables s)));
    (split; [by rewrite filter_ne_eq_Permutation|]); (split; [done|]);
    (split;
     [apply Forall_forall; by intros p [? _]%list_elem_of_filter
     |apply Forall2_fmap_r, Forall_Forall2_diag, Forall_forall;
      intros p _; unfold compose; simpl; auto]).
Qed.

Lemma get_api_orders_admin (req : AuthRequest.t) (d : Db.t) :
  AuthRequest.userRole req = "admin" →
  AuthRequest.query_status req = None →
  get_api_orders req (quiet d)
  = (Resolved
       (res_json
          (JsonOrders
             (merge_sort desc_orders_createdAt
                (filter (λ o, Order.status o ∈ in_review) (Db.orders d))))),
     quiet d).
Proof.
  intros Hrole Hquery.
  unfold get_api_orders, catch_500, try_catch, bind, getOrdersByStatus, quiet.
  rewrite decide_False by (rewrite Hrole; done).
  rewrite decide_False by (rewrite Hrole; done).
  rewrite decide_True, Hquery by done. by rewrite query_quiet.
Qed.

Lemma filter_filter_comm {A} (P Q : A → Prop) `{∀ x, Decision (P x)}
    `{∀ x, Decision (Q x)} (l : list A) :
  filter P (filter Q l) = filter Q (filter P l).
Proof.
  induction l as [|x l IH]; [done|].
  rewrite !filter_cons.
  destruct (decide (P x)), (decide (Q x));
    rewrite ?filter_cons, ?decide_True, ?decide_False by done;
    by rewrite ?IH.
Qed.

Lemma head_fmap_Some {A B} (f : A → B) (l : list A) (x : A) :
  head l = Some x → head (f <$> l) = Some (f x).
Proof. destruct l; [done|]. by intros [= ->]. Qed.

Lemma filter_eq_ne_nil {A} (f : A → string) (k : string) (l : list A) :
  filter (λ x, f x = k) (filter (λ x, f x ≠ k) l) = [].
Proof.
  apply filter_none, Forall_forall.
  intros x [Hx _]%list_elem_of_filter. done.
Qed.

(** After an update of the profile with [id], the first profile found by
    the phone number of [profile] is the updated [profile], when no other
    profile has that number and the update names no phone. *)
Lemma head_filter_phone_updated (data : ProfileBody.t) (now0 : Z)
    (profile : Profile.t) (profiles : list Profile.t) :
  ProfileBody.phone data = None →
  head (filter (λ p, Profile.id p = Profile.id profile) profiles)
  = Some profile →
  filter (λ p, Profile.phone p = Profile.phone profile) profiles
  = [profile] →
  head (filter (λ p, Profile.phone p = Profile.phone profile)
          (filter (λ p, Profile.id p ≠ Profile.id profile) profiles
           ++ (profiles_set data now0
               <$> filter (λ p, Profile.id p = Profile.id profile) profiles)))
  = Some (profiles_set data now0 profile).
Proof.
  intros Hdata Hid Hphone.
  rewrite filter_app, filter_filter_comm, Hphone.
  rewrite filter_cons, decide_False, filter_nil by auto. simpl.
  destruct (filter (λ p, Profile.id p = Profile.id profile) profiles)
    as [|p rest]; [done|].
  injection Hid as ->. rewrite fmap_cons, filter_cons.
  rewrite decide_True; [done|]. simpl. by rewrite Hdata.
Qed.

(** X24. Any user can give themselves any role.  With no statement refused,
    for a user whose profile is the one found by its id and the only one
    with its phone number, a PATCH of one's own profile naming a role
    stores that role and answers 200; signing in afterwards with the
    unchanged password yields a token for that role; and with the role
    [admin] this token, once [verifyToken] accepts it, makes GET
    /api/orders list the orders in review of every customer. *)
Theorem profile_patch_sets_own_role (c : Crypto)
    (verifyToken : string → option (string * string)) (env env' : Env)
    (profile : Profile.t) (password : string) (role : AppRole)
    (t : Tables.t) (d : Db.t) :
  head (filter (λ p, Profile.id p = Profile.id profile) (Tables.profiles t))
  = Some profile →
  filter (λ p, Profile.phone p = Profile.phone profile) (Tables.profiles t)
  = [profile] →
  bcrypt_compare c password (Profile.passwordHash profile) = true →
  ∃ profile' t',
    Profile.role profile' = role
    ∧ Profile.id profile' = Profile.id profile
    ∧ patch_api_profiles_id env (Profile.id profile) (Profile.id profile)
        (ProfileBody.mk None (Some role) None None None None) (calm t d)
      = (Resolved (reply_json (JsonProfile (sanitizeProfile profile'))),
         calm t' d)
    ∧ post_api_auth_signin c env'
        (SigninBody.mk (Profile.phone profile) password) (calm t' d)
      = (Resolved
           (Reply.mk 200
              (CookieSet (jwt_sign c (Profile.id profile)
                            (appRole_label role) (now env')))
              (JsonSession (sanitizeProfile profile')
                 (jwt_sign c (Profile.id profile) (appRole_label role)
                    (now env')))),
         calm t' d)
    ∧ (role = role_admin →
       jwt_sign c (Profile.id profile) "admin" (now env') ≠ "" →
       verifyToken (jwt_sign c (Profile.id profile) "admin" (now env'))
       = Some (Profile.id profile, "admin") →
       lift (authMiddleware verifyToken get_api_orders
               (Request.mk
                  (Some (jwt_sign c (Profile.id profile) "admin" (now env')))
                  "" None Body.empty)) (calm t' d)
       = (Resolved
            (res_json
               (JsonOrders
                  (merge_sort desc_orders_createdAt
                     (filter (λ o, Order.status o ∈ in_review)
                        (Db.orders d))))),
          calm t' d)).
Proof.
  intros Hid Hphone Hcompare.
  set (data := ProfileBody.mk None (Some role) None None None None).
  exists (profiles_set data (now env) profile),
    (Tables.mk
       (filter (λ p, Profile.id p ≠ Profile.id profile) (Tables.profiles t)
        ++ (profiles_set data (now env)
            <$> filter (λ p, Profile.id p = Profile.id profile)
                  (Tables.profiles t)))
       (Tables.userAddresses t)).
  split; [done|]. split; [done|]. split; [|split].
  - unfold patch_api_profiles_id, task_catch_500, task_try_catch, task_bind,
      updateProfile.
    rewrite decide_False by (intros H; by apply H).
    rewrite statement_calm. cbn [allowedUpdates ProfileBody.role
      ProfileBody.phone ProfileBody.name ProfileBody.email ProfileBody.id].
    fold data.
    by rewrite (head_fmap_Some _ _ profile).
  - unfold post_api_auth_signin, task_catch_500, task_try_catch, task_bind,
      getProfileByPhone.
    rewrite statement_calm. cbn [Tables.profiles SigninBody.phone].
    rewrite head_filter_phone_updated by done.
    unfold comparePassword. cbn [SigninBody.password]. simpl.
    by rewrite Hcompare.
  - intros -> Hne Hverify. unfold lift, authMiddleware. simpl.
    rewrite Hverify.
    destruct (jwt_sign c (Profile.id profile) "admin" (now env')) eqn:Htoken;
      [done|].
    by rewrite get_api_orders_admin.
Qed.

Lemma profile_patch_sets_own_role_witness :
  ∃ profile' t',
    Profile.role profile' = role_admin
    ∧ patch_api_profiles_id sample_env "cust-1" "cust-1"
        (ProfileBody.mk None (Some role_admin) None None None None)
        (calm sample_tables sample_db)
      = (Resolved (reply_json (JsonProfile (sanitizeProfile profile'))),
         calm t' sample_db)
    ∧ lift (authMiddleware sample_jwt_verify get_api_orders
              (Request.mk (Some "cust-1.admin") "" None Body.empty))
        (calm t' sample_db)
      = (Resolved (res_json (JsonOrders [sample_order])), calm t' sample_db).
Proof.
  destruct (profile_patch_sets_own_role sample_crypto sample_jwt_verify
              sample_env later_env sample_profile "secret" role_admin
              sample_tables sample_db)
    as (profile' & t' & Hrole & _ & Hpatch & _ & Hlist);
    [reflexivity|reflexivity|reflexivity|].
  exists profile', t'. split; [done|]. split; [done|].
  apply Hlist; [done|discriminate|reflexivity].
Defined.

(** X25. Changing the password, with no statement refused, for a user
    whose profile is the one found by its id and the only one with its
    phone number.  A wrong current password is answered 401 and nothing
    changes.  The right one is answered 200: the profile then holds the
    hash of the new password and keeps id, role and phone; no profile is
    added or removed and every profile of another id is as it was; signing
    in with the new password succeeds when [bcrypt] accepts it against its
    own hash, and signing in with the old one is answered 401 when [bcrypt]
    tells it from the new hash. *)
Theorem change_password_effects (c : Crypto) (env env' : Env) (salt : string)
    (profile : Profile.t) (body : ChangePasswordBody.t) (t : Tables.t)
    (d : Db.t) :
  head (filter (λ p, Profile.id p = Profile.id profile) (Tables.profiles t))
  = Some profile →
  filter (λ p, Profile.phone p = Profile.phone profile) (Tables.profiles t)
  = [profile] →
  (bcrypt_compare c (ChangePasswordBody.currentPassword body)
     (Profile.passwordHash profile) = false →
   post_api_auth_change_password c env salt (Profile.id profile) body
     (calm t d)
   = (Resolved (reply_status_json 401
                  (JsonFailure "Current password is incorrect")),
      calm t d))
  ∧ (bcrypt_compare c (ChangePasswordBody.currentPassword body)
       (Profile.passwordHash profile) = true →
     ∃ profile' t',
       post_api_auth_change_password c env salt (Profile.id profile) body
         (calm t d)
       = (Resolved (reply_json (JsonMessage "Password changed successfully")),
          calm t' d)
       ∧ Profile.passwordHash profile'
         = bcrypt_hash c salt (ChangePasswordBody.newPassword body)
       ∧ Profile.id profile' = Profile.id profile
       ∧ Profile.role profile' = Profile.role profile
       ∧ Profile.phone profile' = Profile.phone profile
       ∧ head (filter (λ p, Profile.id p = Profile.id profile)
                 (Tables.profiles t')) = Some profile'
       ∧ length (Tables.profiles t') = length (Tables.profiles t)
       ∧ (∀ p, Profile.id p ≠ Profile.id profile →
               (p ∈ Tables.profiles t' ↔ p ∈ Tables.profiles t))
       ∧ Tables.userAddresses t' = Tables.userAddresses t
       ∧ (bcrypt_compare c (ChangePasswordBody.newPassword body)
            (bcrypt_hash c salt (ChangePasswordBody.newPassword body)) = true →
          post_api_auth_signin c env'
            (SigninBody.mk (Profile.phone profile)
               (ChangePasswordBody.newPassword body)) (calm t' d)
          = (Resolved
               (Reply.mk 200
                  (CookieSet (jwt_sign c (Profile.id profile)
                                (appRole_label (Profile.role profile))
                                (now env')))
                  (JsonSession (sanitizeProfile profile')
                     (jwt_sign c (Profile.id profile)
                        (appRole_label (Profile.role profile)) (now env')))),
             calm t' d))
       ∧ (bcrypt_compare c (ChangePasswordBody.currentPassword body)
            (bcrypt_hash c salt (ChangePasswordBody.newPassword body)) = false →
          post_api_auth_signin c env'
            (SigninBody.mk (Profile.phone profile)
               (ChangePasswordBody.currentPassword body)) (calm t' d)
          = (Resolved (reply_status_json 401
                         (JsonFailure "Invalid credentials")),
             calm t' d))).
Proof.
  intros Hid Hphone.
  set (data :=
         ProfileBody.mk None None None None None
           (Some (bcrypt_hash c salt (ChangePasswordBody.newPassword body)))).
  split; intros Hcompare.
  - unfold post_api_auth_change_password, task_catch_500, task_try_catch,
      task_bind, getProfile.
    rewrite statement_calm. cbn [Tables.profiles]. rewrite Hid.
    unfold comparePassword. by rewrite Hcompare.
  - exists (profiles_set data (now env) profile),
      (Tables.mk
         (filter (λ p, Profile.id p ≠ Profile.id profile) (Tables.profiles t)
          ++ (profiles_set data (now env)
              <$> filter (λ p, Profile.id p = Profile.id profile)
                    (Tables.profiles t)))
         (Tables.userAddresses t)).
    split.
    { unfold post_api_auth_change_password, task_catch_500, task_try_catch,
        task_bind, getProfile.
      rewrite statement_calm. cbn [Tables.profiles]. rewrite Hid.
      unfold comparePassword. rewrite Hcompare.
      unfold updateProfile, hashPassword. by rewrite statement_calm. }
    do 4 (split; [done|]). cbn [Tables.profiles Tables.userAddresses].
    split.
    { rewrite filter_app, filter_eq_ne_nil, app_nil_l.
      destruct (filter (λ p, Profile.id p = Profile.id profile)
                  (Tables.profiles t)) as [|p rest]; [done|].
      injection Hid as ->. rewrite fmap_cons, filter_cons.
      by rewrite decide_True. }
    split.
    { rewrite length_app, length_fmap, <- length_app.
      by rewrite filter_ne_eq_Permutation. }
    split.
    { intros p Hp. rewrite elem_of_app, list_elem_of_fmap.
      rewrite list_elem_of_filter. split.
      - intros [[_ ?]|(q & -> & [Hq _]%list_elem_of_filter)]; [done|].
        by destruct Hp.
      - intros ?. by left. }
    split; [done|].
    split; intros Hcompare';
      unfold post_api_auth_signin, task_catch_500, task_try_catch, task_bind,
        getProfileByPhone;
      rewrite statement_calm; cbn [Tables.profiles SigninBody.phone];
      rewrite head_filter_phone_updated by done;
      unfold comparePassword; cbn [SigninBody.password]; simpl;
      by rewrite Hcompare'.
Qed.

Lemma change_password_effects_witness :
  ∃ profile' t',
    post_api_auth_change_password sample_crypto sample_env "salt" "cust-1"
      (ChangePasswordBody.mk "secret" "brick") (calm sample_tables sample_db)
    = (Resolved (reply_json (JsonMessage "Password changed successfully")),
       calm t' sample_db)
    ∧ Profile.passwordHash profile' = "$salt$brick"
    ∧ post_api_auth_signin sample_crypto later_env
        (SigninBody.mk "98200" "secret") (calm t' sample_db)
      = (Resolved (reply_status_json 401 (JsonFailure "Invalid credentials")),
         calm t' sample_db).
Proof.
  destruct (proj2 (change_password_effects sample_crypto sample_env later_env
                     "salt" sample_profile
                     (ChangePasswordBody.mk "secret" "brick") sample_tables
                     sample_db eq_refl eq_refl) eq_refl)
    as (profile' & t' & Hchange & Hhash & _ & _ & _ & _ & _ & _ & _ & _
        & Hold).
  exists profile', t'. split; [done|]. split; [done|].
  by apply Hold.
Defined.

(** Why the phone number has to be the profile's alone: sign-in takes the
    first profile the table returns for the number, and an updated row
    stands behind the others.  With two profiles on one number, the first
    of them changes its password and signs in with the new one: the answer
    is 401, the password being compared with the hash of the other
    profile. *)
Example change_password_shared_phone :
  ∃ t',
    post_api_auth_change_password sample_crypto sample_env "salt" "cust-1"
      (ChangePasswordBody.mk "secret" "brick") (calm twin_tables sample_db)
    = (Resolved (reply_json (JsonMessage "Password changed successfully")),
       calm t' sample_db)
    ∧ post_api_auth_signin sample_crypto later_env
        (SigninBody.mk "98200" "brick") (calm t' sample_db)
      = (Resolved (reply_status_json 401 (JsonFailure "Invalid credentials")),
         calm t' sample_db).
Proof. eexists. split; reflexivity. Qed.

(** ** Addresses *)

(** X26. An address is stored under the user who posts it, and listed to
    that user only.  With the four required keys in the body and no
    statement refused, POST /api/addresses answers 200 with the new row,
    whose user is the requester whatever [userId] the body names; GET
    /api/addresses then returns to the requester their earlier addresses
    followed by the new one, and to every other user exactly what it
    returned before.  A body lacking a required key is answered 500 with
    nothing sent. *)
Theorem address_post_then_get (env : Env) (userId : string)
    (body : AddressBody.t) (t : Tables.t) (d : Db.t) :
  (is_Some (AddressBody.addressLine1 body) →
   is_Some (AddressBody.city body) →
   is_Some (AddressBody.state body) →
   is_Some (AddressBody.pinCode body) →
   ∃ address t',
     post_api_addresses env userId body (calm t d)
     = (Resolved (reply_json (JsonAddress (Some address))), calm t' d)
     ∧ Tables.userAddresses t' = Tables.userAddresses t ++ [address]
     ∧ Tables.profiles t' = Tables.profiles t
     ∧ UserAddress.userId address = userId
     ∧ UserAddress.id address = gen_random_uuid env 0%nat
     ∧ get_api_addresses userId (calm t' d)
       = (Resolved
            (reply_json
               (JsonAddresses
                  (filter (λ a, UserAddress.userId a = userId)
                     (Tables.userAddresses t) ++ [address]))),
          calm t' d)
     ∧ ∀ other, other ≠ userId →
         get_api_addresses other (calm t' d)
         = (Resolved
              (reply_json
                 (JsonAddresses
                    (filter (λ a, UserAddress.userId a = other)
                       (Tables.userAddresses t)))),
            calm t' d))
  ∧ (AddressBody.addressLine1 body = None ∨ AddressBody.city body = None
     ∨ AddressBody.state body = None ∨ AddressBody.pinCode body = None →
     ∀ s, ∃ e,
       post_api_addresses env userId body s
       = (Resolved (reply_status_json 500 (JsonFailure e)), s)).
Proof.
  split.
  - intros [addressLine1 H1] [city H2] [state H3] [pinCode H4].
    unfold post_api_addresses, task_catch_500, task_try_catch, task_bind,
      task_of_outcome, insertUserAddressSchema_parse, with_userId,
      createUserAddress.
    cbn [AddressBody.userId AddressBody.addressLine1 AddressBody.city
         AddressBody.state AddressBody.pinCode AddressBody.addressLine2
         AddressBody.isDefault].
    rewrite H1, H2, H3, H4, statement_calm.
    do 2 eexists. split; [reflexivity|].
    do 4 (split; [reflexivity|]).
    unfold get_api_addresses, task_catch_500, task_try_catch, task_bind,
      getUserAddresses.
    split.
    + rewrite statement_calm. cbn [Tables.userAddresses].
      by rewrite filter_app, filter_cons, decide_True.
    + intros other Hother. rewrite statement_calm.
      cbn [Tables.userAddresses].
      rewrite filter_app, filter_cons, decide_False, app_nil_r; [done|].
      simpl. congruence.
  - intros Hmissing s.
    unfold post_api_addresses, task_catch_500, task_try_catch, task_bind,
      task_of_outcome, insertUserAddressSchema_parse, with_userId.
    cbn [AddressBody.userId AddressBody.addressLine1 AddressBody.city
         AddressBody.state AddressBody.pinCode].
    destruct (AddressBody.addressLine1 body), (AddressBody.city body),
      (AddressBody.state body), (AddressBody.pinCode body);
      try (by eexists).
    exfalso. destruct Hmissing as [?|[?|[?|?]]]; discriminate.
Qed.

Lemma address_post_then_get_witness :
  ∃ address t',
    post_api_addresses sample_env "cust-1" sample_address_body
      (calm sample_tables sample_db)
    = (Resolved (reply_json (JsonAddress (Some address))),
       calm t' sample_db)
    ∧ UserAddress.userId address = "cust-1"
    ∧ get_api_addresses "cust-9" (calm t' sample_db)
      = (Resolved (reply_json (JsonAddresses [])), calm t' sample_db).
Proof.
  destruct (proj1 (address_post_then_get sample_env "cust-1"
                     sample_address_body sample_tables sample_db))
    as (address & t' & Hpost & _ & _ & Huser & _ & _ & Hother);
    [by eexists|by eexists|by eexists|by eexists|].
  exists address, t'. split; [done|]. split; [done|].
  by apply Hother.
Defined.

Lemma filter_every {A} (P : A → Prop) `{∀ x, Decision (P x)} (l : list A) :
  Forall P l → filter P l = l.
Proof.
  induction 1 as [|x l Hx _ IH]; [done|].
  by rewrite filter_cons, decide_True, IH.
Qed.

(** X27. The address routes that change or delete take the address by its
    id alone; the handlers never read who asks.  With no statement refused,
    DELETE /api/addresses/:id answers 200 (also when no address has the id)
    and every user's list is afterwards their former list without that id.
    PATCH /api/addresses/:id with a body that names a value answers 200
    with the row of that id as the keys of the body make it (an [id] among
    them gives it that id), or with no row when none has the id; the table
    then holds the other addresses unchanged and the updated row, in
    whatever order it returns them.  A body naming a [userId] moves the
    address to that user: it leaves the list of every other user and joins
    the list of the named one. *)
Theorem address_routes_by_id (params_id owner : string)
    (body : AddressBody.t) (t : Tables.t) (d : Db.t) :
  (∃ t',
     delete_api_addresses_id params_id (calm t d)
     = (Resolved (reply_json (JsonMessage "Address deleted")), calm t' d)
     ∧ Tables.profiles t' = Tables.profiles t
     ∧ get_api_addresses owner (calm t' d)
       = (Resolved
            (reply_json
               (JsonAddresses
                  (filter (λ a, UserAddress.id a ≠ params_id)
                     (filter (λ a, UserAddress.userId a = owner)
                        (Tables.userAddresses t))))),
          calm t' d))
  ∧ (body ≠ AddressBody.empty →
     ∃ t',
       patch_api_addresses_id params_id body (calm t d)
       = (Resolved
            (reply_json
               (JsonAddress
                  (userAddresses_set body
                   <$> head (filter (λ a, UserAddress.id a = params_id)
                               (Tables.userAddresses t))))),
          calm t' d)
       ∧ Tables.profiles t' = Tables.profiles t
       ∧ Tables.userAddresses t'
         ≡ₚ filter (λ a, UserAddress.id a ≠ params_id)
              (Tables.userAddresses t)
            ++ (userAddresses_set body
                <$> filter (λ a, UserAddress.id a = params_id)
                      (Tables.userAddresses t))
       ∧ ∀ userId, AddressBody.userId body = Some userId →
           ∃ listed,
             get_api_addresses owner (calm t' d)
             = (Resolved (reply_json (JsonAddresses listed)), calm t' d)
             ∧ listed
               ≡ₚ filter (λ a, UserAddress.id a ≠ params_id)
                    (filter (λ a, UserAddress.userId a = owner)
                       (Tables.userAddresses t))
                  ++ if decide (owner = userId)
                     then userAddresses_set body
                          <$> filter (λ a, UserAddress.id a = params_id)
                                (Tables.userAddresses t)
                     else []).
Proof.
  split.
  - unfold delete_api_addresses_id, task_catch_500, task_try_catch,
      task_bind, deleteUserAddress.
    rewrite statement_calm. eexists. split; [reflexivity|].
    split; [reflexivity|].
    unfold get_api_addresses, task_catch_500, task_try_catch, task_bind,
      getUserAddresses.
    rewrite statement_calm. cbn [Tables.userAddresses].
    by rewrite filter_filter_comm.
  - intros Hbody.
    unfold patch_api_addresses_id, task_catch_500, task_try_catch,
      task_bind, updateUserAddress.
    rewrite decide_False by done. rewrite statement_calm.
    exists (Tables.mk (Tables.profiles t)
              (filter (λ a, UserAddress.id a ≠ params_id)
                 (Tables.userAddresses t)
               ++ (userAddresses_set body
                   <$> filter (λ a, UserAddress.id a = params_id)
                         (Tables.userAddresses t)))).
    split.
    { by destruct (filter (λ a, UserAddress.id a = params_id)
                     (Tables.userAddresses t)). }
    split; [reflexivity|]. cbn [Tables.userAddresses].
    split; [done|].
    intros userId HuserId. eexists.
    unfold get_api_addresses, task_catch_500, task_try_catch, task_bind,
      getUserAddresses.
    rewrite statement_calm. cbn [Tables.userAddresses].
    split; [reflexivity|].
    rewrite filter_app, (filter_filter_comm (λ a, UserAddress.userId a = owner)).
    apply Permutation_app_head.
    assert (∀ a, UserAddress.userId (userAddresses_set body a) = userId)
      as Hmoved.
    { intros a. unfold userAddresses_set. simpl. by rewrite HuserId. }
    case_decide as Howner.
    + rewrite (filter_every (λ a, UserAddress.userId a = owner)); [done|].
      apply Forall_fmap, Forall_forall. intros a _. unfold compose.
      by rewrite Hmoved.
    + rewrite (filter_none (λ a, UserAddress.userId a = owner)); [done|].
      apply Forall_fmap, Forall_forall. intros a _. unfold compose.
      rewrite Hmoved. congruence.
Qed.

Lemma address_routes_by_id_witness :
  ∃ t' listed,
    patch_api_addresses_id "a-1" transfer_body (calm sample_tables sample_db)
    = (Resolved
         (reply_json
            (JsonAddress
               (Some (UserAddress.mk "a-1" "cust-9" "14 Kiln Road" None
                        "Pune" "MH" "411001" (Some false) 6)))),
       calm t' sample_db)
    ∧ get_api_addresses "cust-1" (calm t' sample_db)
      = (Resolved (reply_json (JsonAddresses listed)), calm t' sample_db)
    ∧ listed ≡ₚ [].
Proof.
  destruct (proj2 (address_routes_by_id "a-1" "cust-1" transfer_body
                     sample_tables sample_db))
    as (t' & Hpatch & _ & _ & Hmoved); [discriminate|].
  destruct (Hmoved "cust-9" eq_refl) as (listed & Hget & Hlisted).
  exists t', listed. split; [exact Hpatch|]. split; [exact Hget|].
  exact Hlisted.
Defined.

(** ** Reading accounts *)

Lemma task_reads_only_select {A} (f : Tables.t → A) (k : A → Reply.t) :
  task_reads_only
    (task_catch_500
       (task_bind (statement (λ t, Resolved (f t, t)))
          (λ a, task_ret (k a)))).
Proof.
  intros s. unfold task_catch_500, task_try_catch, task_bind.
  statement_inv; simpl; [done|].
  injection Hstmt as <- <-. done.
Qed.

(** X28. The routes that read accounts never write: whatever the requester,
    the stored rows and the statements refused, GET /api/auth/session, GET
    /api/profiles/:id and GET /api/addresses leave the account tables and
    the tables of the orders as they found them, and so does signing
    out, which sends no statement at all. *)
Theorem account_reads_leave_tables (userId params_id : string) :
  task_reads_only (get_api_auth_session userId)
  ∧ task_reads_only (get_api_profiles_id params_id)
  ∧ task_reads_only (get_api_addresses userId)
  ∧ ∀ s, (post_api_auth_signout s).2 = s.
Proof.
  split; [|split; [|split]].
  - intros s.
    pose proof (task_reads_only_select
                  (λ t, head (filter (λ p, Profile.id p = userId)
                                (Tables.profiles t)))
                  (λ profile,
                     match profile with
                     | None =>
                         reply_status_json 404
                           (JsonFailure "Profile not found")
                     | Some profile =>
                         reply_json (JsonUser (sanitizeProfile profile))
                     end) s) as H.
    unfold get_api_auth_session, getProfile, task_catch_500, task_try_catch,
      task_bind in *.
    destruct (statement _ s) as [[[profile|]|e] s']; exact H.
  - intros s.
    pose proof (task_reads_only_select
                  (λ t, head (filter (λ p, Profile.id p = params_id)
                                (Tables.profiles t)))
                  (λ profile,
                     match profile with
                     | None =>
                         reply_status_json 404
                           (JsonFailure "Profile not found")
                     | Some profile =>
                         reply_json (JsonProfile (sanitizeProfile profile))
                     end) s) as H.
    unfold get_api_profiles_id, getProfile, task_catch_500, task_try_catch,
      task_bind in *.
    destruct (statement _ s) as [[[profile|]|e] s']; exact H.
  - apply (task_reads_only_select
             (λ t, filter (λ a, UserAddress.userId a = userId)
                     (Tables.userAddresses t))
             (λ addresses, reply_json (JsonAddresses addresses))).
  - done.
Qed.

(** X29. Signing in never writes and always answers, in one of three ways:
    500 when the statement is refused; 401 "Invalid credentials", alike for
    a phone number no profile has and for a password that [bcrypt] does not
    accept against the stored hash, with no cookie set; or 200 with the
    cookie set to a token for the id and role of the first profile with
    that phone, issued only when [bcrypt] accepts the password against that
    profile's hash. *)
Theorem signin_outcomes (c : Crypto) (env : Env) (body : SigninBody.t)
    (s : Site) :
  ∃ reply s',
    post_api_auth_signin c env body s = (Resolved reply, s')
    ∧ tables s' = tables s
    ∧ db (world s') = db (world s)
    ∧ ((∃ e, reply = reply_status_json 500 (JsonFailure e))
       ∨ (reply = reply_status_json 401 (JsonFailure "Invalid credentials")
          ∧ ∀ profile,
              head (filter (λ p, Profile.phone p = SigninBody.phone body)
                      (Tables.profiles (tables s))) = Some profile →
              bcrypt_compare c (SigninBody.password body)
                (Profile.passwordHash profile) = false)
       ∨ (∃ profile,
            head (filter (λ p, Profile.phone p = SigninBody.phone body)
                    (Tables.profiles (tables s))) = Some profile
            ∧ bcrypt_compare c (SigninBody.password body)
                (Profile.passwordHash profile) = true
            ∧ reply
              = Reply.mk 200
                  (CookieSet (jwt_sign c (Profile.id profile)
                                (appRole_label (Profile.role profile))
                                (now env)))
                  (JsonSession (sanitizeProfile profile)
                     (jwt_sign c (Profile.id profile)
                        (appRole_label (Profile.role profile)) (now env))))).
Proof.
  unfold post_api_auth_signin, task_catch_500, task_try_catch, task_bind,
    getProfileByPhone.
  statement_inv.
  { do 2 eexists. split; [done|]. simpl. do 2 (split; [done|]).
    left. by eexists. }
  injection Hstmt as <- <-.
  destruct (head (filter _ (Tables.profiles (tables s)))) as [profile|]
    eqn:Hprofile.
  - unfold comparePassword.
    destruct (bcrypt_compare c (SigninBody.password body)
                (Profile.passwordHash profile)) eqn:Hcompare.
    + do 2 eexists. split; [done|]. simpl. do 2 (split; [done|]).
      right; right. by exists profile.
    + do 2 eexists. split; [done|]. simpl. do 2 (split; [done|]).
      right; left. split; [done|]. by intros ? [= <-].
  - do 2 eexists. split; [done|]. simpl. do 2 (split; [done|]).
    right; left. split; [done|]. by intros ? [=].
Qed.
